(** * Reminder scheduling engine of the appointment bot (index.js)

    A shallow embedding of the scheduler of [index.js]: the reminder
    policy [REMINDERS], the job registry [jobsMap], the scheduling
    routine [scheduleRemindersForTurno], the start-up routine [init],
    the firing callback of a reminder job and the [/borrar] command.

    Modelling conventions.
    - An instant (a luxon [DateTime] in zone utc, a JS [Date]) is its
      number of milliseconds since the epoch, a [Z]; the column
      [fecha_iso] holds the instant its ISO text denotes.
    - [jobsMap] (a JS [Map] from strings to job objects) is a
      [gmap string nat]: a job object is a handle, its index in the
      store [timers] of the timer facility.  Two references to the same
      job object are the same handle, so cancelling through the registry
      is seen by the timer facility.
    - The external collaborators are modelled by what the code uses of
      them: [schedule.scheduleJob date fn] registers a one-shot job,
      [job.cancel ()] withdraws a pending job, the facility runs [fn] once
      when the clock has reached [date]; [bot.sendMessage] is recorded in
      [outbox] together with the outcome the transport gave it.
    - One synchronous run of a routine reads one clock value. *)

From Stdlib Require Import ZArith List String Ascii Decimal DecimalString DecimalZ DecimalPos Sorted Lia.
From stdpp Require Import gmap strings list.

Local Open Scope string_scope.
Local Open Scope Z_scope.

(** ** Data model *)

(** A row of table [turnos] (column [created_at] is never read by the
    scheduler). [descripcion] is nullable. A table is the list of its rows
    in the order in which a query scans them. *)
Record Turno := mkTurno {
  id : Z;
  chat_id : Z;
  fecha_iso : Z;
  descripcion : option string
}.

(** The object passed to luxon's [minus]: only the units the policy uses. *)
Record Duration := mkDuration {
  days : Z;
  hours : Z;
  minutes : Z
}.

Record Reminder := mkReminder {
  key : string;
  label : string;
  minus : Duration
}.

#[global] Instance Turno_eq_dec : EqDecision Turno.
Proof. solve_decision. Defined.
#[global] Instance Duration_eq_dec : EqDecision Duration.
Proof. solve_decision. Defined.
#[global] Instance Reminder_eq_dec : EqDecision Reminder.
Proof. solve_decision. Defined.

(** [const REMINDERS = [...]] *)
Definition REMINDERS : list Reminder :=
  [ mkReminder "24h" "1 día" (mkDuration 1 0 0);
    mkReminder "10h" "10 horas" (mkDuration 0 10 0);
    mkReminder "2h" "2 horas" (mkDuration 0 2 0);
    mkReminder "1h" "1 hora" (mkDuration 0 1 0);
    mkReminder "30m" "30 minutos" (mkDuration 0 0 30) ].

(** Length of a duration in milliseconds. In zone utc a calendar day is
    exactly 24 hours, so luxon's calendar arithmetic for [days] agrees with
    the fixed length. *)
Definition millis (d : Duration) : Z :=
  days d * 86400000 + hours d * 3600000 + minutes d * 60000.

(** [dtUtc.minus(r.minus)] *)
Definition DateTime_minus (dt : Z) (d : Duration) : Z := dt - millis d.

(** The trigger instant [when] of reminder [r] for a target instant. *)
Definition when_of (dtUtc : Z) (r : Reminder) : Z :=
  DateTime_minus dtUtc (minus r).

(** ** Job keys *)

(** String conversion of an integral JS number in a template literal:
    decimal digits, a leading minus sign for negative values. This is what
    JS writes for the integers of magnitude up to 2^53, which a JS number
    holds exactly; what it writes for a larger number is [Number_shown]
    below. *)
Definition Number_toString (n : Z) : string :=
  NilEmpty.string_of_int (Z.to_int n).

(** [`turno-${turno.id}-${r.key}`] *)
Definition job_key_of (turno_id : Z) (offset_key : string) : string :=
  "turno-" +:+ Number_toString turno_id +:+ "-" +:+ offset_key.

(** ** Message formatting *)

(** A luxon zone: the offset from UTC, in minutes, at a given instant. *)
Record Zone := mkZone { offset : Z -> Z }.

(** The fixed-offset zone [UTC-3], a value [BOT_TIMEZONE] can take. (The
    default zone, [America/Argentina/Buenos_Aires], has had this offset
    since 15 March 2009; before that its offset varied.) *)
Definition UTC_minus_3 : Zone := mkZone (fun _ => -180).

(** Gregorian date (year, month, day) of a day number counted from the
    epoch. *)
Definition civil_from_days (z : Z) : Z * Z * Z :=
  let z := z + 719468 in
  let era := z / 146097 in
  let doe := z - era * 146097 in
  let yoe := (doe - doe / 1460 + doe / 36524 - doe / 146096) / 365 in
  let doy := doe - (365 * yoe + yoe / 4 - yoe / 100) in
  let mp := (5 * doy + 2) / 153 in
  let d := doy - (153 * mp + 2) / 5 + 1 in
  let m := if mp <? 10 then mp + 3 else mp - 9 in
  let y := yoe + era * 400 in
  (if m <=? 2 then y + 1 else y, m, d).

Fixpoint zeros (n : nat) : string :=
  match n with
  | O => ""
  | S n' => String "0" (zeros n')
  end.

(** JS [s.padStart(n, '0')]: zeros in front, up to length [n]. *)
Definition padStart (n : nat) (s : string) : string :=
  zeros (n - String.length s) +:+ s.

(** A field that is never negative (day, month, hour, minute), in two
    digits. *)
Definition pad2 (n : Z) : string := padStart 2 (Number_toString n).

(** luxon's [padStart(input, n)] on an integer: the sign of a negative
    number goes in front of the zeros. *)
Definition luxon_padStart (input : Z) (n : nat) : string :=
  if input <? 0 then "-" +:+ padStart n (Number_toString (- input))
  else padStart n (Number_toString input).

(** [dt.setZone(zone).toFormat('dd/LL/yyyy HH:mm')] *)
Definition toFormat_local (zone : Zone) (dt : Z) : string :=
  let loc := dt + offset zone dt * 60000 in
  let '(y, m, d) := civil_from_days (loc / 86400000) in
  let ms := loc mod 86400000 in
  pad2 d +:+ "/" +:+ pad2 m +:+ "/" +:+ luxon_padStart y 4 +:+ " " +:+
  pad2 (ms / 3600000) +:+ ":" +:+ pad2 (ms mod 3600000 / 60000).

(** [turno.descripcion || ''] *)
Definition or_empty (d : option string) : string :=
  match d with
  | Some s => s
  | None => ""
  end.

(** The text sent by the firing callback. *)
Definition reminder_text (zone : Zone) (turno : Turno) (r : Reminder) : string :=
  "⏰ Recordatorio (" +:+ label r +:+ " antes): " +:+
  toFormat_local zone (fecha_iso turno) +:+ " " +:+ or_empty (descripcion turno).

(** ** Process state *)

Inductive JobState := Scheduled | Fired | Cancelled.

#[global] Instance JobState_eq_dec : EqDecision JobState.
Proof. solve_decision. Defined.

(** A job of the timer facility: the date it was scheduled for, the
    variables its callback closes over ([turno], [r], [key]) and its
    state. *)
Record Job := mkJob {
  job_when : Z;
  job_turno : Turno;
  job_reminder : Reminder;
  job_key : string;
  job_state : JobState
}.

(** A call of [bot.sendMessage] and what became of it. *)
Record Delivery := mkDelivery {
  to : Z;
  text : string;
  delivered : bool
}.

Record World := mkWorld {
  jobsMap : gmap string nat;
  timers : list Job;
  clock : Z;
  outbox : list Delivery;
  turnos : list Turno;
  console : list string
}.

(** The process right after [const jobsMap = new Map()]. *)
Definition boot (now : Z) (rows : list Turno) : World :=
  mkWorld ∅ [] now [] rows [].

(** ** The timer facility and the transport *)

(** [job.cancel()]: a pending job is withdrawn; a job that has already run
    or was already cancelled has nothing pending and stays as it is. *)
Definition cancel_job (j : Job) : Job :=
  match job_state j with
  | Scheduled => mkJob (job_when j) (job_turno j) (job_reminder j) (job_key j) Cancelled
  | _ => j
  end.

Definition Job_cancel (h : nat) (w : World) : World :=
  mkWorld (jobsMap w) (alter cancel_job h (timers w)) (clock w) (outbox w)
          (turnos w) (console w).

(** [schedule.scheduleJob(date, fn)]: a fresh job object, pending. The
    closure [fn] is given by the variables it captures. *)
Definition scheduleJob (date : Z) (turno : Turno) (r : Reminder) (k : string)
    (w : World) : nat * World :=
  (length (timers w),
   mkWorld (jobsMap w) (timers w ++ [mkJob date turno r k Scheduled]) (clock w)
           (outbox w) (turnos w) (console w)).

(** [jobsMap.set(key, job)] and [jobsMap.delete(key)] *)
Definition jobsMap_set (k : string) (h : nat) (w : World) : World :=
  mkWorld (<[k := h]> (jobsMap w)) (timers w) (clock w) (outbox w) (turnos w)
          (console w).

Definition jobsMap_delete (k : string) (w : World) : World :=
  mkWorld (delete k (jobsMap w)) (timers w) (clock w) (outbox w) (turnos w)
          (console w).

(** [bot.sendMessage(chat, text)]; [ok] is what the transport will make of
    it. The returned promise is dropped by every caller in the scheduler. *)
Definition sendMessage (ok : bool) (chat : Z) (msg : string) (w : World) : World :=
  mkWorld (jobsMap w) (timers w) (clock w) (outbox w ++ [mkDelivery chat msg ok])
          (turnos w) (console w).

Definition console_log (line : string) (w : World) : World :=
  mkWorld (jobsMap w) (timers w) (clock w) (outbox w) (turnos w)
          (console w ++ [line]).

(** ** The scheduler *)

(** The body of the [for (const r of REMINDERS)] loop. *)
Definition schedule_one (turno : Turno) (w : World) (r : Reminder) : World :=
  let dtUtc := fecha_iso turno in
  let when := when_of dtUtc r in
  if when <=? clock w then w
  else
    let k := job_key_of (id turno) (key r) in
    let w1 := match jobsMap w !! k with
              | Some h => Job_cancel h w
              | None => w
              end in
    let '(job, w2) := scheduleJob when turno r k w1 in
    jobsMap_set k job w2.

Definition scheduleRemindersForTurno (turno : Turno) (w : World) : World :=
  foldl (schedule_one turno) w REMINDERS.

(** The instants of the years 0000 to 9999: from 0000-01-01T00:00:00Z up
    to, not including, 10000-01-01T00:00:00Z. *)
Definition year_0000 : Z := -62167219200000.
Definition year_10000 : Z := 253402300800000.

(** SQLite's [datetime(x)] on the ISO text of an instant, and
    [datetime('now')] on the clock. Within the years 0000 to 9999 the
    instant is rendered with a resolution of one second, and the rendered
    texts compare as the whole seconds do. Outside them the result is
    NULL, here [None]: luxon writes such an instant with a sign and six
    digits of year, which SQLite does not read as a date. *)
Definition sql_datetime (t : Z) : option Z :=
  if decide (year_0000 <= t < year_10000) then Some (t / 1000) else None.

(** SQL comparison in a [WHERE] clause: a row passes only if the
    comparison is true, and a comparison with NULL is not. *)
Definition sql_lt (a b : option Z) : Prop :=
  match a, b with
  | Some x, Some y => x < y
  | _, _ => False
  end.

Definition sql_le (a b : option Z) : Prop :=
  match a, b with
  | Some x, Some y => x <= y
  | _, _ => False
  end.

#[global] Instance sql_lt_dec (a b : option Z) : Decision (sql_lt a b).
Proof. destruct a, b; simpl; apply _. Defined.

#[global] Instance sql_le_dec (a b : option Z) : Decision (sql_le a b).
Proof. destruct a, b; simpl; apply _. Defined.

(** [SELECT * FROM turnos WHERE datetime(fecha_iso) > datetime('now')] *)
Definition select_futuros (now : Z) (rows : list Turno) : list Turno :=
  filter (fun t => sql_lt (sql_datetime now) (sql_datetime (fecha_iso t))) rows.

(** The start-up routine [init]. *)
Definition init (w : World) : World :=
  let futuros := select_futuros (clock w) (turnos w) in
  let w' := foldl (fun acc t => scheduleRemindersForTurno t acc) w futuros in
  console_log ("Programados " +:+ Number_toString (Z.of_nat (length futuros))
               +:+ " turnos futuros") w'.

(** [borrarTurno(id, chatId)]: the rows left, and whether a row went. *)
Definition borrarTurno (i chat : Z) (rows : list Turno) : bool * list Turno :=
  let hit t := bool_decide (id t = i /\ chat_id t = chat) in
  (existsb hit rows, filter (fun t => ~ (id t = i /\ chat_id t = chat)) rows).

(** The handler of [/borrar ID] sent from [chat], for an id that a JS
    number holds exactly. *)
Definition cmd_borrar (ok : bool) (chat i : Z) (w : World) : World :=
  let '(changed, rows) := borrarTurno i chat (turnos w) in
  let w1 := mkWorld (jobsMap w) (timers w) (clock w) (outbox w) rows (console w) in
  if changed
  then sendMessage ok chat ("🗑️ Turno " +:+ Number_toString i +:+ " borrado") w1
  else sendMessage ok chat ("No se encontró el turno " +:+ Number_toString i) w1.

(** ** Firing *)

Definition mark_fired (j : Job) : Job :=
  mkJob (job_when j) (job_turno j) (job_reminder j) (job_key j) Fired.

(** The timer facility runs the callback of job [h]: possible once the
    clock has reached the job's date, for a job still pending. The callback
    sends the reminder and then deletes its key from the registry. *)
Definition fire (TZ : Zone) (ok : bool) (h : nat) (w : World) : option World :=
  match timers w !! h with
  | Some j =>
      if decide (job_state j = Scheduled /\ job_when j <= clock w) then
        let w0 := mkWorld (jobsMap w) (<[h := mark_fired j]> (timers w)) (clock w)
                          (outbox w) (turnos w) (console w) in
        let w1 := sendMessage ok (chat_id (job_turno j))
                    (reminder_text TZ (job_turno j) (job_reminder j)) w0 in
        Some (jobsMap_delete (job_key j) w1)
      else None
  | None => None
  end.

(** ** Runs of the process *)

Definition tick (d : Z) (w : World) : World :=
  mkWorld (jobsMap w) (timers w) (clock w + Z.max 0 d) (outbox w) (turnos w)
          (console w).

Inductive Event :=
| EvTick (d : Z)
| EvFire (ok : bool) (h : nat)
| EvSchedule (t : Turno)
| EvBorrar (ok : bool) (chat i : Z).

Definition step (TZ : Zone) (e : Event) (w : World) : option World :=
  match e with
  | EvTick d => Some (tick d w)
  | EvFire ok h => fire TZ ok h w
  | EvSchedule t => Some (scheduleRemindersForTurno t w)
  | EvBorrar ok chat i => Some (cmd_borrar ok chat i w)
  end.

Fixpoint run (TZ : Zone) (es : list Event) (w : World) : option World :=
  match es with
  | [] => Some w
  | e :: es' =>
      match step TZ e w with
      | Some w' => run TZ es' w'
      | None => None
      end
  end.

(** ** Observations used in the statements *)

(** Live jobs whose callback would delete key [k]. *)
Definition live_under (k : string) (w : World) : list Job :=
  filter (fun j => job_state j = Scheduled /\ job_key j = k) (timers w).

(** Jobs under key [k] whose callback has run; each sent one reminder. *)
Definition fired_under (k : string) (w : World) : list Job :=
  filter (fun j => job_state j = Fired /\ job_key j = k) (timers w).

(** The job that the loop body creates for reminder [r] of [turno]. *)
Definition new_job (turno : Turno) (r : Reminder) : Job :=
  mkJob (when_of (fecha_iso turno) r) turno r (job_key_of (id turno) (key r))
        Scheduled.

(** The store of the timer facility after the cancel step
    [if (jobsMap.has(key)) jobsMap.get(key).cancel()] for key [k]. *)
Definition after_cancel (k : string) (w : World) : list Job :=
  match jobsMap w !! k with
  | Some h => alter cancel_job h (timers w)
  | None => timers w
  end.

(** The offsets of [rs] that are not skipped at instant [now]. *)
Definition planned (now : Z) (turno : Turno) (rs : list Reminder) : list Reminder :=
  filter (fun r => now < when_of (fecha_iso turno) r) rs.

(** The registry and the timer facility agree: every registry entry is a
    pending job that carries the entry's key, and every pending job is the
    registry entry of its key. *)
Definition wf (w : World) : Prop :=
  (forall k h, jobsMap w !! k = Some h ->
     exists j, timers w !! h = Some j /\ job_key j = k /\ job_state j = Scheduled) /\
  (forall h j, timers w !! h = Some j -> job_state j = Scheduled ->
     jobsMap w !! job_key j = Some h).

(** JS [String.prototype.includes]. *)
Definition includes (s part : string) : Prop :=
  exists a b, s = a +:+ part +:+ b.

(** The world a successful run of the callback of job [j] at handle [h]
    leaves behind. *)
Definition fired_world (TZ : Zone) (ok : bool) (h : nat) (j : Job) (w : World) : World :=
  mkWorld (delete (job_key j) (jobsMap w)) (<[h := mark_fired j]> (timers w))
          (clock w)
          (outbox w ++ [mkDelivery (chat_id (job_turno j))
                          (reminder_text TZ (job_turno j) (job_reminder j)) ok])
          (turnos w) (console w).

(** The scheduling part of [init]: [futuros.forEach(scheduleRemindersForTurno)]. *)
Definition recover (w : World) (futuros : list Turno) : World :=
  foldl (fun acc t => scheduleRemindersForTurno t acc) w futuros.

(** No registry key of appointment [i] is taken. *)
Definition fresh_for (w : World) (i : Z) : Prop :=
  forall k, jobsMap w !! job_key_of i k = None.

(** What repeated scheduling of appointment [t] maintains for its offset
    [r]: among the jobs under the pair's key at most one was not cancelled;
    a pending one fires at the trigger instant of the pair; one that has
    run did so when that instant had come. *)
Definition steady (t : Turno) (r : Reminder) (w : World) : Prop :=
  (forall h1 h2 j1 j2,
     timers w !! h1 = Some j1 -> timers w !! h2 = Some j2 ->
     job_key j1 = job_key_of (id t) (key r) ->
     job_key j2 = job_key_of (id t) (key r) ->
     job_state j1 <> Cancelled -> job_state j2 <> Cancelled -> h1 = h2) /\
  (forall h j, timers w !! h = Some j -> job_key j = job_key_of (id t) (key r) ->
     job_state j = Scheduled -> job_when j = when_of (fecha_iso t) r) /\
  (forall h j, timers w !! h = Some j -> job_key j = job_key_of (id t) (key r) ->
     job_state j = Fired -> when_of (fecha_iso t) r <= clock w).

(** The scheduling calls of a run pass appointment [t] as it is stored:
    a call for the id of [t] is a call for [t]. *)
Definition same_appointment (t : Turno) (e : Event) : Prop :=
  match e with
  | EvSchedule t' => id t' = id t -> t' = t
  | _ => True
  end.

(** ** The appointment table *)

(** Table [turnos] together with the counter that SQLite keeps for an
    [AUTOINCREMENT] key: the largest rowid the table has ever held. *)
Record Db := mkDb {
  db_rows : list Turno;
  sqlite_sequence : Z
}.

Definition max_rowid (rows : list Turno) : Z :=
  foldr (fun t m => Z.max (id t) m) 0 rows.

(** [agregarTurno(chatId, fechaISO, descripcion)]: the [INSERT] takes the
    next rowid, one above the largest ever used, and stores
    [descripcion || '']; the rowid is returned. (The end of the 64-bit
    rowid range, where SQLite refuses the insert, is not modelled.) *)
Definition agregarTurno (chatId fechaISO : Z) (descripcion : option string)
    (db : Db) : Z * Db :=
  let rowid := Z.max (sqlite_sequence db) (max_rowid (db_rows db)) + 1 in
  (rowid,
   mkDb (db_rows db ++ [mkTurno rowid chatId fechaISO (Some (or_empty descripcion))])
        rowid).

(** [ORDER BY fecha_iso] on rows that passed the [datetime] test. Their
    texts all have the shape luxon's [toISO] gives an instant of the years
    0000 to 9999 in zone utc, so the text order is the order of the
    instants. Rows of equal instant stay in the order of the table scan:
    the sort is stable. *)
Definition fecha_le (a b : Turno) : Prop := fecha_iso a <= fecha_iso b.

#[global] Instance fecha_le_dec : RelDecision fecha_le.
Proof. intros a b. unfold fecha_le. apply _. Defined.

Fixpoint insert_by_fecha (x : Turno) (l : list Turno) : list Turno :=
  match l with
  | [] => [x]
  | y :: l' =>
      if decide (fecha_iso y < fecha_iso x) then y :: insert_by_fecha x l'
      else x :: l
  end.

Definition order_by_fecha (l : list Turno) : list Turno :=
  foldr insert_by_fecha [] l.

(** [listarTurnos(chatId)]:
    [SELECT * FROM turnos WHERE chat_id = ? AND datetime(fecha_iso) >=
    datetime('now') ORDER BY fecha_iso]. *)
Definition listarTurnos (chatId now : Z) (rows : list Turno) : list Turno :=
  order_by_fecha
    (filter (fun t => chat_id t = chatId /\
                      sql_le (sql_datetime now) (sql_datetime (fecha_iso t))) rows).

(** ** Inline keyboards *)

(** A button of an inline keyboard: the object [{ text, callback_data }]. *)
Record Button := mkButton {
  btn_text : string;
  callback_data : string
}.

(** A calendar date is its day number, counted from 1970-01-01; luxon's
    [plus({ days: i })] on a date moves the day number by [i].
    [toFormat('dd/MM')] and [toISODate()] read the day's Gregorian fields;
    [toISODate] writes a year outside 0 to 9999 in six digits, with its
    sign. *)
Definition fmt_ddMM (day : Z) : string :=
  let '(y, m, d) := civil_from_days day in pad2 d +:+ "/" +:+ pad2 m.

Definition toISODate (day : Z) : string :=
  let '(y, m, d) := civil_from_days day in
  let longFormat := (9999 <? y) || (y <? 0) in
  (if longFormat && (0 <=? y) then "+" else "") +:+
  luxon_padStart y (if longFormat then 6 else 4) +:+ "-" +:+ pad2 m +:+ "-" +:+ pad2 d.

(** A JS array of rows that may have holes: [rows[i] = x] beyond the end
    leaves holes between the old end and [i]. *)
Definition array_set {A} (i : nat) (x : A) (a : list (option A)) : list (option A) :=
  if decide (i < length a)%nat then <[i := Some x]> a
  else (a ++ replicate (i - length a) None ++ [Some x])%list.

(** [if (!rows[weekIndex]) rows[weekIndex] = []; rows[weekIndex].push(b)] *)
Definition calendar_push (weekIndex : nat) (b : Button)
    (rows : list (option (list Button))) : list (option (list Button)) :=
  let rows1 := match rows !! weekIndex with
               | Some (Some _) => rows
               | _ => array_set weekIndex [] rows
               end in
  alter (fmap (fun row => (row ++ [b])%list)) weekIndex rows1.

Definition day_button (startDate : Z) (i : nat) : Button :=
  mkButton (fmt_ddMM (startDate + Z.of_nat i))
           ("pickDay_" +:+ toISODate (startDate + Z.of_nat i)).

(** [calendarKeyboard(startDate, days)]: the [inline_keyboard] it returns.
    [startDate] is the day the ISO date denotes. *)
Definition calendarKeyboard (startDate : Z) (days : nat)
    : list (option (list Button)) :=
  foldl (fun rows i => calendar_push (i / 7)%nat (day_button startDate i) rows)
        [] (seq 0 days).

(** The first loop of [hoursKeyboard]: the half-hour slots. *)
Definition hour_slots : list string :=
  h ← seqZ 7 13; [pad2 h +:+ ":00"; pad2 h +:+ ":30"].

Definition hour_button (dateISO h : string) : Button :=
  mkButton h ("pickHour_" +:+ dateISO +:+ "_" +:+ h).

(** The second loop, [for (let i = 0; i < hours.length; i += 4)], with
    [hours.slice(i, i + 4)]; [None] when the fuel runs out before the loop
    ends. *)
Fixpoint slice_rows (fuel i : nat) (dateISO : string) (hours : list string)
    (rows : list (list Button)) : option (list (list Button)) :=
  if decide (i < length hours)%nat then
    match fuel with
    | O => None
    | S fuel' =>
        slice_rows fuel' (i + 4) dateISO hours
          (rows ++ [hour_button dateISO <$> take 4 (drop i hours)])%list
    end
  else Some rows.

(** [hoursKeyboard(dateISO)]: the [inline_keyboard] it returns. *)
Definition hoursKeyboard (dateISO : string) : option (list (list Button)) :=
  slice_rows (length hour_slots) 0 dateISO hour_slots [].

(** ** Reading commands and callback data *)

(** [s.split(sep)] for a separator of one character. *)
Fixpoint split (sep : ascii) (s : string) : list string :=
  match s with
  | EmptyString => [""]
  | String c s' =>
      if decide (c = sep) then "" :: split sep s'
      else match split sep s' with
           | w :: ws => String c w :: ws
           | [] => [String c ""]
           end
  end.

Fixpoint string_drop (n : nat) (s : string) : string :=
  match n, s with
  | S n', String _ s' => string_drop n' s'
  | _, _ => s
  end.

(** [s.replace(pat, rep)] for a string pattern: the first occurrence. *)
Fixpoint replace_first (pat rep s : string) : string :=
  if String.prefix pat s then rep +:+ string_drop (String.length pat) s
  else match s with
       | EmptyString => ""
       | String c s' => String c (replace_first pat rep s')
       end.

(** [data.replace('pickDay_', '')] behind [data.startsWith('pickDay_')]. *)
Definition pickDay_date (data : string) : option string :=
  if String.prefix "pickDay_" data then Some (replace_first "pickDay_" "" data)
  else None.

(** [const [, dateISO, hourStr] = data.split('_')] behind
    [data.startsWith('pickHour_')]; a missing element is [undefined]. *)
Definition pickHour_fields (data : string) : option (option string * option string) :=
  if String.prefix "pickHour_" data
  then Some (split "_" data !! 1%nat, split "_" data !! 2%nat)
  else None.

Definition is_digit (c : ascii) : bool :=
  (48 <=? nat_of_ascii c)%nat && (nat_of_ascii c <=? 57)%nat.

Fixpoint all_digits (s : string) : bool :=
  match s with
  | EmptyString => true
  | String c s' => is_digit c && all_digits s'
  end.

(** The patterns given to [bot.onText], in the order of registration. A
    pattern without flags and anchored by [^] and [$] matches the whole
    text. *)
Inductive Handler := OnStart | OnTurnos | OnBorrar | OnTurno.

(** [/^\/borrar (\d+)$/]: the digits captured, if the text matches. *)
Definition match_borrar (msg : string) : option string :=
  let digits := string_drop 8 msg in
  if String.prefix "/borrar " msg && negb (String.eqb digits "") && all_digits digits
  then Some digits else None.

Definition handler_matches (h : Handler) (msg : string) : bool :=
  match h with
  | OnStart => String.eqb msg "/start"
  | OnTurnos => String.eqb msg "/turnos"
  | OnBorrar => bool_decide (is_Some (match_borrar msg))
  | OnTurno => String.eqb msg "/turno"
  end.

(** The callbacks the library runs for a text: every registered pattern
    that matches, in order. *)
Definition handlers_for (msg : string) : list Handler :=
  filter (fun h => handler_matches h msg = true) [OnStart; OnTurnos; OnBorrar; OnTurno].

(** The double nearest to a positive integer, as an integer: the integers
    up to 2^53 are doubles; a larger one keeps its 53 leading bits, rounded
    to nearest with ties to the even significand. [None] stands for
    [Infinity], the result beyond the largest double. *)
Definition nearest_double (n : Z) : option Z :=
  if n <=? 2 ^ 53 then Some n
  else
    let e := Z.log2 n - 52 in
    let q := n / 2 ^ e in
    let r := n mod 2 ^ e in
    let half := 2 ^ (e - 1) in
    let q' := if (half <? r) || ((r =? half) && Z.odd q) then q + 1 else q in
    if 2 ^ 1024 <=? q' * 2 ^ e then None else Some (q' * 2 ^ e).

(** [Number(match[1])]: a run of digits is read as a decimal number and
    rounded to the nearest double. [Exact n] is a value up to 2^53, which
    no rounding touches; [Rounded v] is the double [v] that a larger number
    was rounded to; [NaN] is what a text that is no run of digits gives
    (the pattern captures none). *)
Inductive JSInteger := Exact (n : Z) | Rounded (v : Z) | Infinity | NaN.

Definition Number_of_digits (digits : string) : JSInteger :=
  match NilEmpty.uint_of_string digits with
  | Some d =>
      if Z.of_uint d <=? 2 ^ 53 then Exact (Z.of_uint d)
      else match nearest_double (Z.of_uint d) with
           | Some v => Rounded v
           | None => Infinity
           end
  | None => NaN
  end.

(** The decimal numbers of [k] digits next to [v], as significand and
    power of ten: the one below and the one above, the nearer first (of
    two equally near, the even one). *)
Definition decimals_near (v : Z) (k : nat) : list (Z * Z) :=
  let p := Z.of_nat (String.length (Number_toString v)) - Z.of_nat k in
  let lo := v / 10 ^ p in
  let hi := lo + 1 in
  let below := v - lo * 10 ^ p in
  let above := hi * 10 ^ p - v in
  if (below <? above) || ((below =? above) && Z.even lo)
  then [(lo, p); (hi, p)] else [(hi, p); (lo, p)].

(** The shortest decimal number that the double [v] is the nearest double
    of, searched from one digit up. *)
Fixpoint shortest_decimal (v : Z) (k : nat) (fuel : nat) : Z * Z :=
  match fuel with
  | O => (v, 0)
  | S fuel' =>
      match filter (fun c => nearest_double (c.1 * 10 ^ c.2) = Some v)
                   (decimals_near v k) with
      | (s, p) :: _ =>
          if s =? 10 ^ Z.of_nat k then (1, p + Z.of_nat k) else (s, p)
      | [] => shortest_decimal v (S k) fuel'
      end
  end.

(** [`${id}`] for a double [v] from 2^53 on, an integer: JS writes the
    digits of the shortest decimal number that rounds to [v], filled up
    with zeros while the number has at most 21 digits, and in exponent
    notation beyond that. *)
Definition Number_shown (v : Z) : string :=
  let '(s, p) := shortest_decimal v 1
                   (Nat.min 17 (String.length (Number_toString v))) in
  let digits := Number_toString s in
  let n := Z.of_nat (String.length digits) + p in
  if n <=? 21 then digits +:+ zeros (Z.to_nat p)
  else
    match digits with
    | String c "" => String c ("e+" +:+ Number_toString (n - 1))
    | String c rest => String c ("." +:+ rest +:+ "e+" +:+ Number_toString (n - 1))
    | "" => ""
    end.

(** ** The command handlers and the bot as a whole *)

Definition newline : string := String "010" "".

(** [r.descripcion || 'Sin descripción']: the default also stands in for
    the empty description that [agregarTurno] stores. *)
Definition or_default (d : option string) (dflt : string) : string :=
  match d with
  | Some s => if String.eqb s "" then dflt else s
  | None => dflt
  end.

(** A line of the list that [/turnos] sends. *)
Definition turno_line (TZ : Zone) (r : Turno) : string :=
  Number_toString (id r) +:+ ". " +:+ toFormat_local TZ (fecha_iso r) +:+
  " — " +:+ or_default (descripcion r) "Sin descripción".

(** The handler of [/turnos]. *)
Definition cmd_turnos (TZ : Zone) (ok : bool) (chat : Z) (w : World) : World :=
  let rows := listarTurnos chat (clock w) (turnos w) in
  if decide (length rows = 0%nat)
  then sendMessage ok chat "No hay turnos agendados." w
  else sendMessage ok chat (String.concat newline (turno_line TZ <$> rows)) w.

(** The handler of [/start]. *)
Definition cmd_start (ok : bool) (chat : Z) (w : World) : World :=
  sendMessage ok chat
    ("Hola! Soy tu recordatorio de turnos." +:+ newline +:+ "Comandos:" +:+ newline +:+
     "/turno → agenda un turno con selector" +:+ newline +:+
     "/turnos → listar turnos" +:+ newline +:+
     "/borrar ID → borrar turno por ID") w.

(** A call of [bot.editMessageText]. *)
Record Edit := mkEdit {
  edit_chat : Z;
  edit_message : Z;
  edit_text : string
}.

(** The process with what the scheduler's state leaves out: the rowid
    counter of the table, the keyboards passed to [sendMessage] (each with
    the position of its message in the outbox) and the edits made. *)
Record Bot := mkBot {
  world : World;
  sequence : Z;
  markups : list (nat * list (option (list Button)));
  edits : list Edit
}.

(** [DateTime.now().setZone(TZ).toISODate()], as a day number. *)
Definition local_day (TZ : Zone) (now : Z) : Z :=
  (now + offset TZ now * 60000) / 86400000.

(** The handler of [/turno]. *)
Definition cmd_turno (TZ : Zone) (ok : bool) (chat : Z) (b : Bot) : Bot :=
  let today := local_day TZ (clock (world b)) in
  mkBot (sendMessage ok chat "📅 Elegí el día del turno:" (world b))
        (sequence b)
        (markups b ++ [(length (outbox (world b)), calendarKeyboard today 37)])%list
        (edits b).

(** The [pickHour_] branch of the callback handler from the point where
    the chosen date and hour have been read as the instant [fechaUTC]:
    insert the row, schedule its reminders, confirm by editing the message. *)
Definition cmd_pickHour (TZ : Zone) (chatId message_id fechaUTC : Z) (b : Bot) : Bot :=
  let '(i, db) := agregarTurno chatId fechaUTC (Some "Turno")
                    (mkDb (turnos (world b)) (sequence b)) in
  let w := world b in
  let w1 := mkWorld (jobsMap w) (timers w) (clock w) (outbox w) (db_rows db)
                    (console w) in
  let w2 := scheduleRemindersForTurno (mkTurno i chatId fechaUTC (Some "Turno")) w1 in
  mkBot w2 (sqlite_sequence db) (markups b)
        (edits b ++ [mkEdit chatId message_id
                       ("✅ Turno agendado (ID " +:+ Number_toString i +:+ ") para "
                        +:+ toFormat_local TZ fechaUTC)])%list.

Definition with_world (f : World -> World) (b : Bot) : Bot :=
  mkBot (f (world b)) (sequence b) (markups b) (edits b).

(** The handler of [/borrar ID] for an id that [Number] had to round: the
    deletion looks for a row whose id is the double [v], and the reply
    shows [v] the way JS writes it. *)
Definition cmd_borrar_rounded (ok : bool) (chat v : Z) (w : World) : World :=
  let '(changed, rows) := borrarTurno v chat (turnos w) in
  let w1 := mkWorld (jobsMap w) (timers w) (clock w) (outbox w) rows (console w) in
  if changed
  then sendMessage ok chat ("🗑️ Turno " +:+ Number_shown v +:+ " borrado") w1
  else sendMessage ok chat ("No se encontró el turno " +:+ Number_shown v) w1.

(** The same handler for an id that is no finite number, [shown] in the
    reply as JS writes it: no row has such an id, nothing is deleted. *)
Definition cmd_borrar_none (ok : bool) (chat : Z) (shown : string) (w : World) : World :=
  sendMessage ok chat ("No se encontró el turno " +:+ shown) w.

(** The callback of a command. *)
Definition run_handler (TZ : Zone) (ok : bool) (chat : Z) (msg : string)
    (h : Handler) (b : Bot) : Bot :=
  match h with
  | OnStart => with_world (cmd_start ok chat) b
  | OnTurnos => with_world (cmd_turnos TZ ok chat) b
  | OnBorrar =>
      match Number_of_digits (default "" (match_borrar msg)) with
      | Exact i => with_world (cmd_borrar ok chat i) b
      | Rounded v => with_world (cmd_borrar_rounded ok chat v) b
      | Infinity => with_world (cmd_borrar_none ok chat "Infinity") b
      | NaN => with_world (cmd_borrar_none ok chat "NaN") b
      end
  | OnTurno => cmd_turno TZ ok chat b
  end.

(** What happens to the bot: time passes, a job fires, a text arrives from
    a chat, an hour button is pressed. (Pressing a day button only edits a
    message.) *)
Inductive BotEvent :=
| Elapse (d : Z)
| Fires (ok : bool) (h : nat)
| Text (ok : bool) (chat : Z) (msg : string)
| PickHour (chat message_id fechaUTC : Z).

Definition bot_step (TZ : Zone) (e : BotEvent) (b : Bot) : option Bot :=
  match e with
  | Elapse d => Some (with_world (tick d) b)
  | Fires ok h =>
      w ← fire TZ ok h (world b); Some (mkBot w (sequence b) (markups b) (edits b))
  | Text ok chat msg =>
      Some (foldl (fun acc h => run_handler TZ ok chat msg h acc) b
                  (handlers_for msg))
  | PickHour chat message_id fechaUTC =>
      Some (cmd_pickHour TZ chat message_id fechaUTC b)
  end.

Fixpoint bot_run (TZ : Zone) (es : list BotEvent) (b : Bot) : option Bot :=
  match es with
  | [] => Some b
  | e :: es' => b' ← bot_step TZ e b; bot_run TZ es' b'
  end.

(** The bot once the module has loaded: [init] has run on the table found. *)
Definition bot_boot (now : Z) (rows : list Turno) (seq : Z) : Bot :=
  mkBot (init (boot now rows)) seq [] [].

(** The jobs are in order: registry and timers agree, no two jobs share a
    key, none was cancelled, and each carries the key of its appointment
    and offset. *)
Definition tidy (w : World) : Prop :=
  wf w /\ NoDup (job_key <$> timers w) /\
  Forall (fun j => job_state j <> Cancelled /\
                   job_key j = job_key_of (id (job_turno j)) (key (job_reminder j)))
         (timers w).

(** The table and the jobs respect the rowid counter and the primary key. *)
Definition consistent (b : Bot) : Prop :=
  tidy (world b) /\
  Forall (fun j => id (job_turno j) <= sequence b) (timers (world b)) /\
  Forall (fun t => id t <= sequence b) (turnos (world b)) /\
  NoDup (id <$> turnos (world b)).

(** The number of jobs whose callback has run. *)
Definition fired_count (w : World) : nat :=
  length (filter (fun j => job_state j = Fired) (timers w)).

(** The number of command callbacks an event runs. *)
Definition answered (e : BotEvent) : nat :=
  match e with
  | Text _ _ msg => length (handlers_for msg)
  | _ => 0%nat
  end.

Definition fires (e : BotEvent) : nat :=
  match e with
  | Fires _ _ => 1%nat
  | _ => 0%nat
  end.

(** Whether character [c] occurs in [s]. *)
Fixpoint has_char (c : ascii) (s : string) : bool :=
  match s with
  | EmptyString => false
  | String x s' => bool_decide (x = c) || has_char c s'
  end.

(** ** What a formatted instant says *)

(** The day number, counted from the epoch, of a Gregorian date. *)
Definition days_from_civil (y m d : Z) : Z :=
  let y' := if m <=? 2 then y - 1 else y in
  let era := y' / 400 in
  let yoe := y' - era * 400 in
  let mp := if 2 <? m then m - 3 else m + 9 in
  let doy := (153 * mp + 2) / 5 + d - 1 in
  let doe := yoe * 365 + yoe / 4 - yoe / 100 + doy in
  era * 146097 + doe - 719468.

(** A decimal number as a reader takes it: digits, with or without a
    minus sign in front. *)
Definition read_number (s : string) : option Z :=
  Z.of_int <$> NilEmpty.int_of_string s.

(** The five numbers of a text of the shape [dd/LL/yyyy HH:mm]: year,
    month, day, hour and minute. *)
Definition read_fecha (s : string) : option (Z * Z * Z * Z * Z) :=
  match split "/" s with
  | [dd; LL; rest] =>
      match split " " rest with
      | [yyyy; time] =>
          match split ":" time with
          | [HH; mm] =>
              y ← read_number yyyy; m ← read_number LL; d ← read_number dd;
              H ← read_number HH; M ← read_number mm;
              Some (y, m, d, H, M)
          | _ => None
          end
      | _ => None
      end
  | _ => None
  end.

(** Minutes since the epoch of the minute that the fields name, read on a
    clock that shows Gregorian dates. *)
Definition minute_of_fields (f : Z * Z * Z * Z * Z) : Z :=
  let '(y, m, d, H, M) := f in (days_from_civil y m d * 24 + H) * 60 + M.

(** ** A sample process *)

(** An appointment on 2026-01-01T00:00Z, booked from chat 7, in a process
    started two days before. *)
Definition sample_turno : Turno := mkTurno 1 7 1767225600000 (Some "Turno").
Definition sample_start : Z := 1767052800000.
Definition sample_world : World :=
  scheduleRemindersForTurno sample_turno (boot sample_start [sample_turno]).

(** The same appointment seen 20 minutes before its target instant. *)
Definition late_world : World := boot (1767225600000 - 1200000) [sample_turno].

(** The first offset of the policy. *)
Definition sample_reminder : Reminder := mkReminder "24h" "1 día" (mkDuration 1 0 0).

(** The sample process one day later, when the first reminder is due. *)
Definition due_world : World := tick 86400000 sample_world.

(** A second appointment, already past when the sample process starts. *)
Definition past_turno : Turno := mkTurno 2 7 1767000000000 None.

(** Two runs of the bot: a booking, deletions from another chat (the
    second with an id that no JS number holds exactly), a day passing and
    the first reminder; and texts, a day passing and the first reminder. *)
Definition booking_run : list BotEvent :=
  [PickHour 7 55 1767400000000; Text true 8 "/borrar 2";
   Text true 8 "/borrar 9007199254740993"; Elapse 86400000; Fires true 0%nat].

Definition texts_run : list BotEvent :=
  [Text true 7 "/turnos"; Text true 7 "hola";
   Text true 7 "/borrar 9007199254740993"; Elapse 86400000; Fires true 0%nat].

Example key_sample : job_key_of 12 "24h" = "turno-12-24h".
Proof. reflexivity. Qed.

Example fmt_sample :
  toFormat_local UTC_minus_3 1767225600000 = "31/12/2025 21:00".
Proof. vm_compute. reflexivity. Qed.

(** Preservation of [wf], for [auto with sched]. *)
Create HintDb sched discriminated.

(** ** Job keys: rendering and injectivity *)

Section Keys.

Local Abbreviation dec := NilEmpty.string_of_uint.

(** A run of decimal digits ends at the first dash that follows it. *)
Lemma digits_cut (d1 d2 : uint) (r1 r2 : string) :
  dec d1 +:+ "-" +:+ r1 = dec d2 +:+ "-" +:+ r2 -> d1 = d2 /\ r1 = r2.
Proof.
  revert d2; induction d1 as [|d1 IH|d1 IH|d1 IH|d1 IH|d1 IH|d1 IH|d1 IH|d1 IH|d1 IH|d1 IH];
    intros [|d2|d2|d2|d2|d2|d2|d2|d2|d2|d2]; simpl; intros H;
    try discriminate H;
    try (injection H as H; apply IH in H as [-> ->]; split; reflexivity).
  change (String "-" r1 = String "-" r2) in H.
  injection H as ->. split; reflexivity.
Qed.

Lemma Number_toString_cut (a b : Z) (r1 r2 : string) :
  Number_toString a +:+ "-" +:+ r1 = Number_toString b +:+ "-" +:+ r2 ->
  a = b /\ r1 = r2.
Proof.
  unfold Number_toString.
  assert (Hnil : forall z d, Z.to_int z = Decimal.Pos d -> d <> Nil).
  { intros [|p|p] d [= <-]; [discriminate | apply Unsigned.to_uint_nonnil]. }
  destruct (Z.to_int a) as [da|da] eqn:Ha, (Z.to_int b) as [db|db] eqn:Hb;
    simpl; intros H.
  - apply digits_cut in H as [-> ->]. split; [|reflexivity].
    apply DecimalZ.to_int_inj. congruence.
  - apply Hnil in Ha. destruct da; try discriminate H. congruence.
  - apply Hnil in Hb. destruct db; try discriminate H. congruence.
  - injection H as H. apply digits_cut in H as [-> ->]. split; [|reflexivity].
    apply DecimalZ.to_int_inj. congruence.
Qed.

Lemma job_key_of_inj (i i' : Z) (k k' : string) :
  job_key_of i k = job_key_of i' k' -> i = i' /\ k = k'.
Proof.
  unfold job_key_of. intros H. simpl in H. injection H as H.
  apply Number_toString_cut in H. exact H.
Qed.

Lemma REMINDERS_keys_NoDup : NoDup (key <$> REMINDERS).
Proof.
  apply NoDup_ListNoDup. simpl.
  repeat (constructor; [simpl; intuition discriminate|]). constructor.
Qed.

Lemma REMINDERS_key_inj (r r' : Reminder) :
  r ∈ REMINDERS -> r' ∈ REMINDERS -> key r = key r' -> r = r'.
Proof.
  unfold REMINDERS. rewrite !elem_of_cons, !elem_of_nil.
  intros Hr Hr' Hk.
  destruct Hr as [->|[->|[->|[->|[->|[]]]]]];
    destruct Hr' as [->|[->|[->|[->|[->|[]]]]]];
    first [reflexivity | discriminate Hk].
Qed.

End Keys.

(** ** The loop body *)

Section LoopBody.

Variable turno : Turno.

Lemma schedule_one_skip (w : World) (r : Reminder) :
  when_of (fecha_iso turno) r <= clock w -> schedule_one turno w r = w.
Proof.
  intros H. unfold schedule_one. cbv zeta.
  destruct (Z.leb_spec (when_of (fecha_iso turno) r) (clock w)); [reflexivity|lia].
Qed.

Lemma after_cancel_length (k : string) (w : World) :
  length (after_cancel k w) = length (timers w).
Proof. unfold after_cancel. destruct (jobsMap w !! k); [apply length_alter|reflexivity]. Qed.

Lemma schedule_one_go (w : World) (r : Reminder) :
  clock w < when_of (fecha_iso turno) r ->
  schedule_one turno w r =
  mkWorld (<[job_key_of (id turno) (key r) := length (timers w)]> (jobsMap w))
          (after_cancel (job_key_of (id turno) (key r)) w ++ [new_job turno r])
          (clock w) (outbox w) (turnos w) (console w).
Proof.
  intros H. unfold schedule_one, after_cancel. cbv zeta.
  destruct (Z.leb_spec (when_of (fecha_iso turno) r) (clock w)); [lia|].
  destruct (jobsMap w !! job_key_of (id turno) (key r)) as [h|]; simpl;
    rewrite ?length_alter; reflexivity.
Qed.

Lemma schedule_one_frame (w : World) (r : Reminder) :
  clock (schedule_one turno w r) = clock w /\
  outbox (schedule_one turno w r) = outbox w /\
  turnos (schedule_one turno w r) = turnos w /\
  console (schedule_one turno w r) = console w.
Proof.
  destruct (Z.le_gt_cases (when_of (fecha_iso turno) r) (clock w)) as [H|H].
  - rewrite schedule_one_skip by exact H. auto.
  - rewrite schedule_one_go by lia. auto.
Qed.

Lemma after_cancel_lookup (k : string) (w : World) (h : nat) (j : Job) :
  wf w -> timers w !! h = Some j ->
  after_cancel k w !! h =
  Some (if decide (job_state j = Scheduled /\ job_key j = k) then cancel_job j else j).
Proof.
  intros [W1 W2] Hj. unfold after_cancel.
  destruct (jobsMap w !! k) as [h0|] eqn:Hk.
  - destruct (W1 _ _ Hk) as (j0 & Hj0 & Hk0 & Hs0).
    destruct (decide (h0 = h)) as [->|Hne].
    + rewrite list_lookup_alter_eq, Hj. simpl. simplify_eq.
      case_decide as Hd; [reflexivity|]. exfalso. apply Hd. auto.
    + rewrite list_lookup_alter_ne by exact Hne. rewrite Hj.
      case_decide as Hd; [|reflexivity].
      destruct Hd as [Hs Hkk]. exfalso. apply Hne.
      specialize (W2 _ _ Hj Hs). congruence.
  - rewrite Hj. case_decide as Hd; [|reflexivity].
    destruct Hd as [Hs Hkk]. specialize (W2 _ _ Hj Hs). congruence.
Qed.

Lemma cancel_job_key (j : Job) : job_key (cancel_job j) = job_key j.
Proof. unfold cancel_job. destruct (job_state j); reflexivity. Qed.

Lemma cancel_job_live (j : Job) : job_state (cancel_job j) <> Scheduled.
Proof. unfold cancel_job. destruct (job_state j) eqn:E; simpl; congruence. Qed.

Lemma cancel_job_idle (j : Job) : job_state j <> Scheduled -> cancel_job j = j.
Proof. unfold cancel_job. destruct (job_state j); congruence. Qed.

Lemma wf_schedule_one (w : World) (r : Reminder) :
  wf w -> wf (schedule_one turno w r).
Proof.
  intros Hwf.
  destruct (Z.le_gt_cases (when_of (fecha_iso turno) r) (clock w)) as [H|H].
  { rewrite schedule_one_skip by exact H. exact Hwf. }
  rewrite schedule_one_go by lia.
  set (k := job_key_of (id turno) (key r)).
  pose proof (after_cancel_length k w) as Hlen.
  split; simpl.
  - intros k' h Hk'.
    destruct (decide (k = k')) as [<-|Hne].
    + rewrite lookup_insert_eq in Hk'. injection Hk' as <-.
      exists (new_job turno r). rewrite <- Hlen.
      rewrite list_lookup_middle by reflexivity. auto.
    + rewrite lookup_insert_ne in Hk' by exact Hne.
      destruct Hwf as [W1 W2]. destruct (W1 _ _ Hk') as (j & Hj & Hjk & Hjs).
      exists j. split; [|auto].
      rewrite lookup_app_l by (rewrite Hlen; eapply lookup_lt_Some; eauto).
      rewrite (after_cancel_lookup k w h j) by (try split; assumption).
      case_decide as Hd; [|reflexivity]. destruct Hd as [_ ?]. congruence.
  - intros h j Hj Hs.
    destruct (decide (h < length (timers w))%nat) as [Hlt|Hge].
    + rewrite lookup_app_l in Hj by (rewrite Hlen; exact Hlt).
      destruct (lookup_lt_is_Some_2 _ _ Hlt) as [j0 Hj0].
      rewrite (after_cancel_lookup k w h j0) in Hj by assumption.
      injection Hj as Hj. case_decide as Hd; subst j.
      * exfalso. eapply cancel_job_live; eauto.
      * destruct Hwf as [W1 W2]. specialize (W2 _ _ Hj0 Hs).
        rewrite lookup_insert_ne; [exact W2|].
        intros Hk. apply Hd. auto.
    + assert (h = length (after_cancel k w) /\ j = new_job turno r) as [-> ->].
      { apply lookup_app_Some in Hj as [Hj|[Hl Hj]].
        - apply lookup_lt_Some in Hj. lia.
        - destruct (h - length (after_cancel k w))%nat eqn:E; simpl in Hj; [|
            rewrite lookup_nil in Hj; discriminate].
          injection Hj as <-. split; [lia|reflexivity]. }
      simpl. fold k. rewrite lookup_insert_eq. congruence.
Qed.

End LoopBody.

(** ** The whole loop, over any list of offsets *)

Section Loop.

Variable turno : Turno.

Local Abbreviation loop := (foldl (schedule_one turno)).
Local Abbreviation key_for r := (job_key_of (id turno) (key r)).
Local Abbreviation due r := (when_of (fecha_iso turno) r).

Lemma loop_frame (rs : list Reminder) (w : World) :
  clock (loop w rs) = clock w /\ outbox (loop w rs) = outbox w /\
  turnos (loop w rs) = turnos w /\ console (loop w rs) = console w.
Proof.
  revert w; induction rs as [|r rs IH]; intros w; simpl; [auto|].
  destruct (IH (schedule_one turno w r)) as (-> & -> & -> & ->).
  apply schedule_one_frame.
Qed.

Lemma loop_clock (rs : list Reminder) (w : World) : clock (loop w rs) = clock w.
Proof. apply loop_frame. Qed.

Lemma wf_loop (rs : list Reminder) (w : World) : wf w -> wf (loop w rs).
Proof.
  revert w; induction rs as [|r rs IH]; intros w Hwf; simpl; [exact Hwf|].
  apply IH, wf_schedule_one, Hwf.
Qed.

Lemma loop_skip_all (rs : list Reminder) (w : World) :
  (forall r, r ∈ rs -> due r <= clock w) -> loop w rs = w.
Proof.
  induction rs as [|r rs IH]; intros H; simpl; [reflexivity|].
  rewrite schedule_one_skip by (apply H; left).
  apply IH. intros r' Hr'. apply H. right. exact Hr'.
Qed.

(** A job that no iteration addresses is left as it is. *)
Lemma loop_timers_kept (rs : list Reminder) (w : World) (h : nat) (j : Job) :
  wf w -> timers w !! h = Some j ->
  (job_state j = Scheduled ->
   forall r, r ∈ rs -> clock w < due r -> job_key j <> key_for r) ->
  timers (loop w rs) !! h = Some j.
Proof.
  revert w; induction rs as [|r rs IH]; intros w Hwf Hj Hfree; simpl; [exact Hj|].
  pose proof (schedule_one_frame turno w r) as (Hc & _).
  apply IH.
  - apply wf_schedule_one, Hwf.
  - destruct (Z.le_gt_cases (due r) (clock w)) as [H|H].
    + rewrite schedule_one_skip by exact H. exact Hj.
    + rewrite schedule_one_go by lia. simpl.
      rewrite lookup_app_l
        by (rewrite after_cancel_length; eapply lookup_lt_Some; eauto).
      rewrite (after_cancel_lookup _ w h j) by assumption.
      case_decide as Hd; [|reflexivity].
      destruct Hd as [Hs Hk]. exfalso.
      apply (Hfree Hs r); [left|lia|exact Hk].
  - rewrite Hc. intros Hs r' Hr'. apply (Hfree Hs). right. exact Hr'.
Qed.

(** A registry key that no iteration addresses is left as it is. *)
Lemma loop_registry_kept (rs : list Reminder) (w : World) (k : string) :
  (forall r, r ∈ rs -> clock w < due r -> k <> key_for r) ->
  jobsMap (loop w rs) !! k = jobsMap w !! k.
Proof.
  revert w; induction rs as [|r rs IH]; intros w Hfree; simpl; [reflexivity|].
  pose proof (schedule_one_frame turno w r) as (Hc & _).
  rewrite IH.
  - destruct (Z.le_gt_cases (due r) (clock w)) as [H|H].
    + rewrite schedule_one_skip by exact H. reflexivity.
    + rewrite schedule_one_go by lia. simpl.
      apply lookup_insert_ne. intros Hk. apply (Hfree r); [left|lia|auto].
  - rewrite Hc. intros r' Hr'. apply Hfree. right. exact Hr'.
Qed.

(** Scheduling only ever withdraws pending jobs; it never runs one. *)
Lemma loop_timers_old (rs : list Reminder) (w : World) (h : nat) (j : Job) :
  timers w !! h = Some j ->
  timers (loop w rs) !! h = Some j \/ timers (loop w rs) !! h = Some (cancel_job j).
Proof.
  revert w j; induction rs as [|r rs IH]; intros w j Hj; simpl; [auto|].
  destruct (Z.le_gt_cases (due r) (clock w)) as [H|H].
  { rewrite schedule_one_skip by exact H. apply IH, Hj. }
  rewrite schedule_one_go by lia.
  set (w1 := mkWorld _ _ _ _ _ _).
  assert (timers w1 !! h = Some j \/ timers w1 !! h = Some (cancel_job j)) as [H1|H1].
  { unfold w1; simpl.
    rewrite lookup_app_l
      by (rewrite after_cancel_length; eapply lookup_lt_Some; eauto).
    unfold after_cancel. destruct (jobsMap w !! key_for r) as [h0|]; [|auto].
    destruct (decide (h0 = h)) as [->|Hne].
    - rewrite list_lookup_alter_eq, Hj. auto.
    - rewrite list_lookup_alter_ne by exact Hne. auto. }
  - apply IH, H1.
  - destruct (IH _ _ H1) as [H2|H2]; rewrite H2; right; f_equal.
    apply cancel_job_idle, cancel_job_live.
Qed.

Lemma key_for_fresh (r : Reminder) (rs : list Reminder) :
  key r ∉ (key <$> rs) -> forall r', r' ∈ rs -> key_for r <> key_for r'.
Proof.
  intros Hnot r' Hr' Hk. apply job_key_of_inj in Hk as [_ Hk].
  apply Hnot. rewrite Hk. apply list_elem_of_fmap_2, Hr'.
Qed.

(** The jobs created by the loop, in creation order. *)
Lemma loop_timers_new (rs : list Reminder) (w : World) :
  wf w -> NoDup (key <$> rs) ->
  drop (length (timers w)) (timers (loop w rs)) =
  new_job turno <$> planned (clock w) turno rs.
Proof.
  revert w; induction rs as [|r rs IH]; intros w Hwf Hnd; simpl.
  { rewrite drop_all. reflexivity. }
  rewrite fmap_cons in Hnd. apply NoDup_cons in Hnd as [Hr Hnd].
  unfold planned. rewrite filter_cons. fold (planned (clock w) turno rs).
  pose proof (schedule_one_frame turno w r) as (Hc & _).
  pose proof (wf_schedule_one turno w r Hwf) as Hwf1.
  specialize (IH _ Hwf1 Hnd). rewrite Hc in IH.
  case_decide as Hd.
  - rewrite schedule_one_go in IH, Hwf1 |- * by lia.
    set (w1 := mkWorld _ _ _ _ _ _) in *.
    assert (Hlen : length (timers w1) = S (length (timers w))).
    { unfold w1; simpl. rewrite length_app, after_cancel_length. simpl. lia. }
    assert (Hat : timers w1 !! length (timers w) = Some (new_job turno r)).
    { unfold w1; simpl. apply list_lookup_middle.
      symmetry. apply after_cancel_length. }
    rewrite Hlen in IH.
    rewrite (drop_S _ (new_job turno r)); [rewrite IH; reflexivity|].
    apply loop_timers_kept; [exact Hwf1|exact Hat|].
    intros _ r' Hr' _. simpl. apply key_for_fresh with rs; assumption.
  - rewrite schedule_one_skip in IH |- * by lia. exact IH.
Qed.

Lemma loop_timers_length (rs : list Reminder) (w : World) :
  length (timers (loop w rs)) =
  (length (timers w) + length (planned (clock w) turno rs))%nat.
Proof.
  revert w; induction rs as [|r rs IH]; intros w; simpl; [lia|].
  rewrite IH. pose proof (schedule_one_frame turno w r) as (-> & _).
  unfold planned at 2. rewrite filter_cons. fold (planned (clock w) turno rs).
  case_decide as Hd.
  - rewrite schedule_one_go by lia. simpl.
    rewrite length_app, after_cancel_length. simpl. lia.
  - rewrite schedule_one_skip by lia. reflexivity.
Qed.

(** The registry entry of every offset that was not skipped. *)
Lemma loop_registry_new (rs : list Reminder) (w : World) (i : nat) (r : Reminder) :
  NoDup (key <$> rs) ->
  planned (clock w) turno rs !! i = Some r ->
  jobsMap (loop w rs) !! key_for r = Some (length (timers w) + i)%nat.
Proof.
  revert w i; induction rs as [|r0 rs IH]; intros w i Hnd Hi; simpl.
  { discriminate Hi. }
  rewrite fmap_cons in Hnd. apply NoDup_cons in Hnd as [Hr Hnd].
  unfold planned in Hi. rewrite filter_cons in Hi.
  fold (planned (clock w) turno rs) in Hi.
  pose proof (schedule_one_frame turno w r0) as (Hc & _).
  case_decide as Hd.
  - destruct i as [|i]; simpl in Hi.
    + injection Hi as <-. rewrite loop_registry_kept.
      * rewrite schedule_one_go by lia. simpl.
        rewrite lookup_insert_eq. f_equal. lia.
      * intros r' Hr' _. apply key_for_fresh with rs; assumption.
    + rewrite <- Hc in Hi. rewrite (IH _ i Hnd Hi).
      rewrite schedule_one_go by lia. simpl.
      rewrite length_app, after_cancel_length. simpl. f_equal. lia.
  - rewrite schedule_one_skip by lia. apply IH; assumption.
Qed.

(** Registry entries after the loop are old ones or those just made. *)
Lemma loop_registry_origin (rs : list Reminder) (w : World) (k : string) (h : nat) :
  jobsMap (loop w rs) !! k = Some h ->
  jobsMap w !! k = Some h \/
  exists r, r ∈ planned (clock w) turno rs /\ k = key_for r.
Proof.
  revert w; induction rs as [|r rs IH]; intros w Hk; simpl in *; [auto|].
  pose proof (schedule_one_frame turno w r) as (Hc & _).
  unfold planned. setoid_rewrite list_elem_of_filter.
  destruct (IH _ Hk) as [H1|(r' & Hr' & ->)].
  - destruct (Z.le_gt_cases (due r) (clock w)) as [H|H].
    + rewrite schedule_one_skip in H1 by exact H. auto.
    + rewrite schedule_one_go in H1 by lia. simpl in H1.
      destruct (decide (key_for r = k)) as [<-|Hne].
      * right. exists r. split; [split; [lia|left]|reflexivity].
      * rewrite lookup_insert_ne in H1 by exact Hne. auto.
  - right. exists r'. rewrite Hc in Hr'. apply list_elem_of_filter in Hr' as [? ?].
    split; [split; [assumption|right; assumption]|reflexivity].
Qed.

End Loop.

#[global] Hint Resolve wf_schedule_one wf_loop : sched.

(** ** The reminder policy *)

Ltac due_arith :=
  unfold when_of, DateTime_minus, millis in *; simpl in *; lia.

Lemma when_of_REMINDERS (dtUtc : Z) :
  when_of dtUtc <$> REMINDERS =
  [dtUtc - 86400000; dtUtc - 36000000; dtUtc - 7200000; dtUtc - 3600000;
   dtUtc - 1800000].
Proof. unfold REMINDERS. simpl. repeat (f_equal; try due_arith). Qed.

Lemma REMINDERS_lead_bounds (r : Reminder) :
  r ∈ REMINDERS -> 1800000 <= millis (minus r) <= 86400000.
Proof.
  unfold REMINDERS. rewrite !elem_of_cons, elem_of_nil.
  intros [->|[->|[->|[->|[->|[]]]]]]; due_arith.
Qed.


Lemma planned_none (t : Turno) (now : Z) :
  fecha_iso t <= now + 1800000 -> planned now t REMINDERS = [].
Proof.
  intros H. unfold planned, REMINDERS.
  repeat (rewrite filter_cons_False by due_arith). reflexivity.
Qed.

Lemma planned_elem (t : Turno) (now : Z) (rs : list Reminder) (r : Reminder) :
  r ∈ planned now t rs <-> now < when_of (fecha_iso t) r /\ r ∈ rs.
Proof. unfold planned. rewrite list_elem_of_filter. reflexivity. Qed.

(** Every job at a handle that did not exist before the loop was made by
    the loop, for an offset that was not skipped. *)
Lemma loop_timers_created (t : Turno) (rs : list Reminder) (w : World)
    (h : nat) (j : Job) :
  timers (foldl (schedule_one t) w rs) !! h = Some j ->
  (length (timers w) <= h)%nat ->
  exists r, r ∈ planned (clock w) t rs /\
            (j = new_job t r \/ j = cancel_job (new_job t r)).
Proof.
  revert w; induction rs as [|r rs IH]; intros w Hj Hh; simpl in *.
  { apply lookup_lt_Some in Hj. lia. }
  pose proof (schedule_one_frame t w r) as (Hc & _).
  setoid_rewrite planned_elem.
  destruct (Z.le_gt_cases (when_of (fecha_iso t) r) (clock w)) as [H|H].
  - rewrite schedule_one_skip in Hj by exact H.
    destruct (IH _ Hj Hh) as (r' & Hr' & Hj'). apply planned_elem in Hr' as [? ?].
    exists r'. split; [split; [assumption|right; assumption]|exact Hj'].
  - destruct (decide (h = length (timers w))) as [->|Hne].
    + exists r. split; [split; [lia|left]|].
      rewrite schedule_one_go in Hj by lia.
      set (w1 := mkWorld _ _ _ _ _ _) in *.
      assert (Hat : timers w1 !! length (timers w) = Some (new_job t r)).
      { unfold w1; simpl. apply list_lookup_middle.
        symmetry. apply after_cancel_length. }
      destruct (loop_timers_old t rs w1 _ _ Hat) as [H1|H1]; rewrite H1 in Hj;
        injection Hj as <-; auto.
    + assert (Hlen : length (timers (schedule_one t w r)) = S (length (timers w))).
      { rewrite schedule_one_go by lia. simpl.
        rewrite length_app, after_cancel_length. simpl. lia. }
      destruct (IH _ Hj ltac:(lia)) as (r' & Hr' & Hj').
      rewrite Hc in Hr'. apply planned_elem in Hr' as [? ?].
      exists r'. split; [split; [assumption|right; assumption]|exact Hj'].
Qed.

Lemma cancel_job_reminder (j : Job) : job_reminder (cancel_job j) = job_reminder j.
Proof. unfold cancel_job. destruct (job_state j); reflexivity. Qed.

Lemma wf_boot (now : Z) (rows : list Turno) : wf (boot now rows).
Proof.
  split; simpl.
  - intros k h H. rewrite lookup_empty in H. discriminate H.
  - intros h j H. rewrite lookup_nil in H. discriminate H.
Qed.

Lemma wf_scheduleRemindersForTurno (t : Turno) (w : World) :
  wf w -> wf (scheduleRemindersForTurno t w).
Proof. apply wf_loop. Qed.

#[global] Hint Resolve wf_boot wf_scheduleRemindersForTurno : sched.

(** Over the whole call, the registry entry of a skipped offset and the job
    it refers to stay as they are. *)
Lemma skipped_entry (t : Turno) (w : World) (r : Reminder) :
  wf w -> r ∈ REMINDERS -> when_of (fecha_iso t) r <= clock w ->
  jobsMap (scheduleRemindersForTurno t w) !! job_key_of (id t) (key r) =
    jobsMap w !! job_key_of (id t) (key r) /\
  forall h j, jobsMap w !! job_key_of (id t) (key r) = Some h ->
              timers w !! h = Some j ->
              timers (scheduleRemindersForTurno t w) !! h = Some j.
Proof.
  intros Hwf Hr Hpast.
  assert (Hfree : forall r', r' ∈ REMINDERS -> clock w < when_of (fecha_iso t) r' ->
                  job_key_of (id t) (key r) <> job_key_of (id t) (key r')).
  { intros r' Hr' Hdue Hk. apply job_key_of_inj in Hk as [_ Hk].
    apply (REMINDERS_key_inj r r' Hr Hr') in Hk. subst r'. lia. }
  unfold scheduleRemindersForTurno. split.
  - apply loop_registry_kept. exact Hfree.
  - intros h j Hk Hj. apply loop_timers_kept; [exact Hwf|exact Hj|].
    intros _ r' Hr' Hdue.
    destruct Hwf as [W1 _]. destruct (W1 _ _ Hk) as (j' & Hj' & Hkey & _).
    assert (j' = j) by congruence. subst j'. rewrite Hkey. apply Hfree; assumption.
Qed.

(** ** Claims on scheduling *)

(** C9. For every target instant, the trigger instants of the configured
    offsets, taken in policy order, are strictly increasing; the lead
    durations (1 day, 10 hours, 2 hours, 1 hour, 30 minutes) are strictly
    decreasing; the last offset of the policy, the one with the smallest
    lead, has the latest trigger, which still lies before the appointment. *)
Theorem C9_triggers_increasing (dtUtc : Z) :
  StronglySorted Z.lt (when_of dtUtc <$> REMINDERS) /\
  StronglySorted Z.gt ((fun r => millis (minus r)) <$> REMINDERS) /\
  (fun r => millis (minus r)) <$> REMINDERS =
    [86400000; 36000000; 7200000; 3600000; 1800000] /\
  Forall (fun r => exists r30, last REMINDERS = Some r30 /\
                     when_of dtUtc r <= when_of dtUtc r30 < dtUtc) REMINDERS.
Proof.
  split; [|split; [|split]].
  - rewrite when_of_REMINDERS.
    repeat (apply SSorted_cons; [|repeat (apply List.Forall_cons; [lia|]); apply List.Forall_nil]).
    apply SSorted_nil.
  - unfold REMINDERS. simpl.
    repeat (apply SSorted_cons;
            [|repeat (apply List.Forall_cons; [due_arith|]); apply List.Forall_nil]).
    apply SSorted_nil.
  - reflexivity.
  - unfold REMINDERS.
    repeat (apply Forall_cons; split; [eexists; split; [reflexivity|due_arith]|]).
    apply Forall_nil. trivial.
Qed.

(** C8. The job key is a function of the pair (appointment id, offset key)
    alone, so repeated scheduling calls for the same pair use the same key
    whatever the state of the process; distinct pairs give distinct keys;
    the offsets of the policy have pairwise distinct keys. *)
Theorem C8_job_key_injective :
  (forall i k i' k', job_key_of i k = job_key_of i' k' <-> (i = i' /\ k = k')) /\
  NoDup (key <$> REMINDERS) /\
  (forall t r w,
     jobsMap (schedule_one t w r) = jobsMap w \/
     jobsMap (schedule_one t w r) =
       <[job_key_of (id t) (key r) := length (timers w)]> (jobsMap w)).
Proof.
  split; [|split].
  - intros i k i' k'. split.
    + apply job_key_of_inj.
    + intros [-> ->]. reflexivity.
  - apply REMINDERS_keys_NoDup.
  - intros t r w.
    destruct (Z.le_gt_cases (when_of (fecha_iso t) r) (clock w)) as [H|H].
    + left. rewrite schedule_one_skip by exact H. reflexivity.
    + right. rewrite schedule_one_go by lia. reflexivity.
Qed.

(** C3. An offset whose trigger instant is not after the current instant
    is skipped: its iteration changes nothing, no job created by the call
    belongs to that offset, and the call sends nothing. An appointment 20
    minutes ahead gets no job at all under the policy, whose smallest lead
    is 30 minutes. *)
Theorem C3_past_offsets_skipped (t : Turno) (w : World) :
  (forall r, when_of (fecha_iso t) r <= clock w ->
     schedule_one t w r = w /\
     (forall h j, timers (scheduleRemindersForTurno t w) !! h = Some j ->
                  (length (timers w) <= h)%nat -> job_reminder j <> r) /\
     outbox (scheduleRemindersForTurno t w) = outbox w) /\
  (fecha_iso t = clock w + 20 * 60000 ->
     planned (clock w) t REMINDERS = [] /\ scheduleRemindersForTurno t w = w).
Proof.
  split.
  - intros r Hr. split; [apply schedule_one_skip, Hr|]. split.
    + intros h j Hj Hh Heq.
      destruct (loop_timers_created t REMINDERS w h j Hj Hh) as (r' & Hr' & Hj').
      apply planned_elem in Hr' as [Hdue _].
      assert (job_reminder j = r') as E
        by (destruct Hj' as [->| ->]; rewrite ?cancel_job_reminder; reflexivity).
      subst. lia.
    + apply loop_frame.
  - intros H. split; [apply planned_none; lia|].
    apply loop_skip_all. intros r Hr.
    pose proof (REMINDERS_lead_bounds r Hr). due_arith.
Qed.


(** C10. When an offset's trigger instant is not strictly in the future,
    its iteration returns before the cancel-then-replace step and leaves the
    whole state as it was; over the whole call the registry entry under that
    offset's key and the job it refers to are unchanged. *)
Theorem C10_skip_leaves_entry (t : Turno) (w : World) (r : Reminder) :
  when_of (fecha_iso t) r <= clock w ->
  schedule_one t w r = w /\
  (wf w -> r ∈ REMINDERS ->
   jobsMap (scheduleRemindersForTurno t w) !! job_key_of (id t) (key r) =
     jobsMap w !! job_key_of (id t) (key r) /\
   forall h j, jobsMap w !! job_key_of (id t) (key r) = Some h ->
               timers w !! h = Some j ->
               timers (scheduleRemindersForTurno t w) !! h = Some j).
Proof.
  intros Hpast. split; [apply schedule_one_skip, Hpast|].
  intros Hwf Hr. apply skipped_entry; assumption.
Qed.

(** ** Firing *)

Lemma string_app_assoc (a b c : string) : (a +:+ b) +:+ c = a +:+ b +:+ c.
Proof.
  induction a as [|x a IH]; [reflexivity|].
  change (String x ((a +:+ b) +:+ c) = String x (a +:+ b +:+ c)). f_equal. exact IH.
Qed.

Lemma includes_here (a part b : string) : includes (a +:+ part +:+ b) part.
Proof. exists a, b. reflexivity. Qed.

Lemma includes_after (a s part : string) : includes s part -> includes (a +:+ s) part.
Proof.
  intros (x & y & ->). exists (a +:+ x), y. symmetry. apply string_app_assoc.
Qed.

Lemma includes_end (a part : string) : includes (a +:+ part) part.
Proof.
  exists a, "". f_equal. induction part as [|c p IH]; [reflexivity|].
  change (String c p = String c (p +:+ "")). f_equal. exact IH.
Qed.

Lemma fire_Some (TZ : Zone) (ok : bool) (h : nat) (w w' : World) :
  fire TZ ok h w = Some w' <->
  exists j, timers w !! h = Some j /\ job_state j = Scheduled /\
            job_when j <= clock w /\ w' = fired_world TZ ok h j w.
Proof.
  unfold fire. destruct (timers w !! h) as [j|] eqn:Hj.
  - case_decide as Hd.
    + split.
      * intros [= <-]. exists j. destruct Hd. auto.
      * intros (j' & [= <-] & _ & _ & ->). reflexivity.
    + split; [discriminate|].
      intros (j' & [= <-] & ? & ? & _). exfalso. apply Hd. auto.
  - split; [discriminate|]. intros (j' & [=] & _).
Qed.

Lemma fire_ready (TZ : Zone) (ok : bool) (h : nat) (j : Job) (w : World) :
  timers w !! h = Some j -> job_state j = Scheduled -> job_when j <= clock w ->
  fire TZ ok h w = Some (fired_world TZ ok h j w).
Proof. intros. apply fire_Some. exists j. auto. Qed.

Lemma fire_not_pending (TZ : Zone) (ok : bool) (h : nat) (j : Job) (w : World) :
  timers w !! h = Some j -> job_state j <> Scheduled -> fire TZ ok h w = None.
Proof.
  intros Hj Hs. destruct (fire TZ ok h w) as [w'|] eqn:E; [|reflexivity].
  apply fire_Some in E as (j' & Hj' & Hs' & _). congruence.
Qed.

Lemma wf_fire (TZ : Zone) (ok : bool) (h : nat) (w w' : World) :
  wf w -> fire TZ ok h w = Some w' -> wf w'.
Proof.
  intros [W1 W2] (j & Hj & Hs & _ & ->)%fire_Some.
  pose proof (lookup_lt_Some _ _ _ Hj) as Hlt.
  split; simpl.
  - intros k h' Hk.
    destruct (decide (job_key j = k)) as [<-|Hne];
      [rewrite lookup_delete_eq in Hk; discriminate|].
    rewrite lookup_delete_ne in Hk by exact Hne.
    destruct (W1 _ _ Hk) as (j' & Hj' & Hk' & Hs').
    exists j'. split; [|auto].
    rewrite list_lookup_insert_ne; [exact Hj'|]. congruence.
  - intros h' j' Hj' Hs'.
    destruct (decide (h = h')) as [<-|Hne].
    + rewrite list_lookup_insert_eq in Hj' by exact Hlt.
      injection Hj' as <-. discriminate Hs'.
    + rewrite list_lookup_insert_ne in Hj' by exact Hne.
      pose proof (W2 _ _ Hj' Hs') as Hreg.
      rewrite lookup_delete_ne; [exact Hreg|].
      intros Hk. apply Hne. rewrite <- Hk in Hreg.
      pose proof (W2 _ _ Hj Hs). congruence.
Qed.

Lemma cmd_borrar_frame (ok : bool) (chat i : Z) (w : World) :
  jobsMap (cmd_borrar ok chat i w) = jobsMap w /\
  timers (cmd_borrar ok chat i w) = timers w /\
  clock (cmd_borrar ok chat i w) = clock w.
Proof.
  unfold cmd_borrar. destruct (borrarTurno i chat (turnos w)) as [[|] rows]; auto.
Qed.

Lemma wf_frame (w w' : World) :
  jobsMap w' = jobsMap w -> timers w' = timers w -> wf w -> wf w'.
Proof. unfold wf. intros -> ->. trivial. Qed.

Lemma wf_step (TZ : Zone) (e : Event) (w w' : World) :
  wf w -> step TZ e w = Some w' -> wf w'.
Proof.
  intros Hwf. destruct e as [d|ok h|t|ok chat i]; simpl.
  - intros [= <-]. exact Hwf.
  - apply wf_fire, Hwf.
  - intros [= <-]. apply wf_scheduleRemindersForTurno, Hwf.
  - intros [= <-]. pose proof (cmd_borrar_frame ok chat i w) as (? & ? & _).
    eapply wf_frame; eauto.
Qed.

Lemma wf_run (TZ : Zone) (es : list Event) (w w' : World) :
  wf w -> run TZ es w = Some w' -> wf w'.
Proof.
  revert w; induction es as [|e es IH]; intros w Hwf; simpl.
  - intros [= <-]. exact Hwf.
  - destruct (step TZ e w) as [w1|] eqn:E; [|discriminate].
    apply IH. eapply wf_step; eauto.
Qed.

(** A job that has run stays as it is, whatever happens next. *)
Lemma fired_stable_step (TZ : Zone) (e : Event) (w w' : World) (h : nat) (j : Job) :
  timers w !! h = Some j -> job_state j = Fired ->
  step TZ e w = Some w' -> timers w' !! h = Some j.
Proof.
  intros Hj Hs. destruct e as [d|ok h'|t|ok chat i]; simpl.
  - intros [= <-]. exact Hj.
  - intros (j' & Hj' & Hs' & _ & ->)%fire_Some. simpl.
    rewrite list_lookup_insert_ne; [exact Hj|]. intros ->. congruence.
  - intros [= <-].
    destruct (loop_timers_old t REMINDERS w h j Hj) as [H|H]; [exact H|].
    rewrite cancel_job_idle in H by congruence. exact H.
  - intros [= <-]. pose proof (cmd_borrar_frame ok chat i w) as (_ & -> & _).
    exact Hj.
Qed.

Lemma fired_stable_run (TZ : Zone) (es : list Event) (w w' : World) (h : nat) (j : Job) :
  timers w !! h = Some j -> job_state j = Fired ->
  run TZ es w = Some w' -> timers w' !! h = Some j.
Proof.
  revert w; induction es as [|e es IH]; intros w Hj Hs; simpl.
  - intros [= <-]. exact Hj.
  - destruct (step TZ e w) as [w1|] eqn:E; [|discriminate].
    apply IH; [|exact Hs]. eapply fired_stable_step; eauto.
Qed.

(** C7. Whatever the Dispatcher makes of the call, the firing path ends in
    the same registry and the same timer store, with the job's key deleted;
    the call is made once, no job is created in its place, and in every
    continuation of the run the job stays fired and cannot fire again. *)
Theorem C7_no_retry (TZ : Zone) (ok : bool) (h : nat) (w w' : World) :
  fire TZ ok h w = Some w' ->
  (exists j, timers w !! h = Some j /\
             jobsMap w' = delete (job_key j) (jobsMap w) /\
             jobsMap w' !! job_key j = None /\
             timers w' !! h = Some (mark_fired j)) /\
  (forall ok', exists w'', fire TZ ok' h w = Some w'' /\
                           jobsMap w'' = jobsMap w' /\ timers w'' = timers w') /\
  (exists d, outbox w' = (outbox w ++ [d])%list /\ delivered d = ok) /\
  length (timers w') = length (timers w) /\
  (forall es w2, run TZ es w' = Some w2 ->
     (exists j, timers w2 !! h = Some j /\ job_state j = Fired) /\
     forall ok', fire TZ ok' h w2 = None).
Proof.
  intros (j & Hj & Hs & Hdue & ->)%fire_Some.
  pose proof (lookup_lt_Some _ _ _ Hj) as Hlt.
  assert (Hf : timers (fired_world TZ ok h j w) !! h = Some (mark_fired j))
    by (simpl; apply list_lookup_insert_eq, Hlt).
  split; [|split; [|split; [|split]]].
  - exists j. simpl. rewrite lookup_delete_eq. auto.
  - intros ok'. exists (fired_world TZ ok' h j w).
    split; [apply fire_ready; assumption|]. split; reflexivity.
  - eexists. split; reflexivity.
  - simpl. apply length_insert.
  - intros es w2 Hrun.
    pose proof (fired_stable_run TZ es _ _ h _ Hf eq_refl Hrun) as H2.
    split; [exists (mark_fired j); auto|].
    intros ok'. eapply fire_not_pending; [exact H2|]. discriminate.
Qed.

(** ** Deleting an appointment *)

(** C1 fails on the code: the handler of [/borrar] deletes the row and
    replies, and never touches the registry. After the appointment of the
    sample process is deleted, its five jobs are still registered, and a day
    later the first of them fires and sends its reminder. *)
Lemma C1_borrar_leaves_jobs_counterexample :
  turnos (cmd_borrar true 7 1 sample_world) = [] /\
  jobsMap (cmd_borrar true 7 1 sample_world) !! job_key_of 1 "24h" = Some 0%nat /\
  size (jobsMap (cmd_borrar true 7 1 sample_world)) = 5%nat /\
  outbox <$> run UTC_minus_3 [EvTick 86400000; EvFire true 0%nat]
                 (cmd_borrar true 7 1 sample_world) =
    Some [mkDelivery 7 "🗑️ Turno 1 borrado" true;
          mkDelivery 7 "⏰ Recordatorio (1 día antes): 31/12/2025 21:00 Turno" true].
Proof. vm_compute. repeat split; reflexivity. Qed.

(** C1, amended. The [/borrar] flow removes the matching row of the
    repository and sends one reply; the registry, the timer store and the
    clock are left as they were, so every job fires after the deletion
    exactly when it would have fired without it. *)
Theorem C1_borrar_keeps_registry (ok : bool) (chat i : Z) (w : World) :
  jobsMap (cmd_borrar ok chat i w) = jobsMap w /\
  timers (cmd_borrar ok chat i w) = timers w /\
  turnos (cmd_borrar ok chat i w) =
    filter (fun t => ~ (id t = i /\ chat_id t = chat)) (turnos w) /\
  (exists msg, outbox (cmd_borrar ok chat i w) =
               (outbox w ++ [mkDelivery chat msg ok])%list) /\
  (forall TZ ok' h, is_Some (fire TZ ok' h (cmd_borrar ok chat i w)) <->
                    is_Some (fire TZ ok' h w)).
Proof.
  pose proof (cmd_borrar_frame ok chat i w) as (Hm & Ht & Hc).
  split; [exact Hm|]. split; [exact Ht|].
  split; [|split].
  - unfold cmd_borrar, borrarTurno. destruct (existsb _ _); reflexivity.
  - unfold cmd_borrar, borrarTurno. destruct (existsb _ _); eexists; reflexivity.
  - intros TZ ok' h. unfold fire. rewrite Ht, Hc.
    destruct (timers w !! h) as [j|]; [|reflexivity].
    case_decide; split; intros [x Hx]; try discriminate Hx; eexists; reflexivity.
Qed.

(** ** Recovery at start-up *)

Section Recovery.

Lemma sql_datetime_is_Some (t : Z) :
  is_Some (sql_datetime t) <-> year_0000 <= t < year_10000.
Proof.
  unfold sql_datetime. case_decide as Hd; split; intros Hx.
  - exact Hd.
  - eauto.
  - destruct Hx as [x Hx]. discriminate Hx.
  - contradiction.
Qed.

Lemma sql_lt_seconds (now f : Z) :
  sql_lt (sql_datetime now) (sql_datetime f) <->
  is_Some (sql_datetime now) /\ is_Some (sql_datetime f) /\ now / 1000 < f / 1000.
Proof.
  rewrite !sql_datetime_is_Some. unfold sql_datetime.
  repeat case_decide; simpl; tauto.
Qed.

Lemma sql_le_seconds (now f : Z) :
  sql_le (sql_datetime now) (sql_datetime f) <->
  is_Some (sql_datetime now) /\ is_Some (sql_datetime f) /\ now / 1000 <= f / 1000.
Proof.
  rewrite !sql_datetime_is_Some. unfold sql_datetime.
  repeat case_decide; simpl; tauto.
Qed.

Lemma seconds_lt (a b : Z) : a / 1000 < b / 1000 -> a < b.
Proof.
  intros H'. destruct (Z.le_gt_cases b a) as [Hle|Hgt]; [|lia].
  apply (Z.div_le_mono _ _ 1000) in Hle; lia.
Qed.

Lemma seconds_le (a b : Z) : a <= b -> a / 1000 <= b / 1000.
Proof. intros H'. apply Z.div_le_mono; lia. Qed.

Lemma seconds_far (a b : Z) : a + 1000 <= b -> a / 1000 < b / 1000.
Proof.
  intros Hge. apply (Z.div_le_mono _ _ 1000) in Hge; [|lia].
  replace (a + 1000) with (a + 1 * 1000) in Hge by lia.
  rewrite Z.div_add in Hge by lia. lia.
Qed.

Lemma select_futuros_elem (now : Z) (rows : list Turno) (t : Turno) :
  t ∈ select_futuros now rows <->
  t ∈ rows /\ is_Some (sql_datetime now) /\ is_Some (sql_datetime (fecha_iso t)) /\
  now / 1000 < fecha_iso t / 1000.
Proof.
  unfold select_futuros. rewrite list_elem_of_filter, sql_lt_seconds. tauto.
Qed.

Lemma select_futuros_future (now : Z) (rows : list Turno) (t : Turno) :
  t ∈ select_futuros now rows -> t ∈ rows /\ now < fecha_iso t.
Proof.
  rewrite select_futuros_elem. intros (Hin & _ & _ & Hlt).
  split; [exact Hin|apply seconds_lt, Hlt].
Qed.

(** An appointment of a readable date that the query leaves out has no
    offset left to plan. *)
Lemma not_selected_nothing_planned (now : Z) (t : Turno) :
  is_Some (sql_datetime now) -> is_Some (sql_datetime (fecha_iso t)) ->
  ~ sql_lt (sql_datetime now) (sql_datetime (fecha_iso t)) ->
  planned now t REMINDERS = [].
Proof.
  intros Hnow Ht Hno. apply planned_none.
  destruct (Z.le_gt_cases (fecha_iso t) (now + 1800000)) as [Hle|Hgt]; [exact Hle|].
  exfalso. apply Hno. apply sql_lt_seconds.
  split; [exact Hnow|]. split; [exact Ht|]. apply seconds_far. lia.
Qed.

Lemma flat_map_selected {B} (f : Turno -> list B) (now : Z) (rows : list Turno) :
  (forall t, t ∈ rows ->
     ~ sql_lt (sql_datetime now) (sql_datetime (fecha_iso t)) -> f t = []) ->
  flat_map f (select_futuros now rows) =
  flat_map f (filter (fun t => now < fecha_iso t) rows).
Proof.
  unfold select_futuros.
  induction rows as [|t rows IH]; intros Hnil; [reflexivity|].
  rewrite !filter_cons.
  specialize (IH (fun x Hx => Hnil x (list_elem_of_further _ _ _ Hx))).
  destruct (decide (sql_lt (sql_datetime now) (sql_datetime (fecha_iso t)))) as [Hs|Hs].
  - rewrite decide_True.
    + simpl. rewrite IH. reflexivity.
    + apply (select_futuros_future now [t] t).
      unfold select_futuros. rewrite list_elem_of_filter. split; [exact Hs|left].
  - case_decide; simpl; rewrite ?(Hnil t (list_elem_of_here _ _) Hs); exact IH.
Qed.

Variable now : Z.

(** On keys that are free the loop cancels nothing: it appends its jobs
    and the registry grows by one entry for each. *)
Lemma loop_fresh (t : Turno) (rs : list Reminder) (w : World) :
  clock w = now -> NoDup (key <$> rs) ->
  (forall r, r ∈ rs -> jobsMap w !! job_key_of (id t) (key r) = None) ->
  timers (foldl (schedule_one t) w rs) =
    (timers w ++ (new_job t <$> planned now t rs))%list /\
  size (jobsMap (foldl (schedule_one t) w rs)) =
    (size (jobsMap w) + length (planned now t rs))%nat.
Proof.
  revert w; induction rs as [|r rs IH]; intros w Hc Hnd Hfree; simpl.
  { rewrite app_nil_r. split; [reflexivity|lia]. }
  rewrite fmap_cons in Hnd. apply NoDup_cons in Hnd as [Hr Hnd].
  unfold planned. rewrite filter_cons. fold (planned now t rs).
  case_decide as Hd.
  - rewrite schedule_one_go by lia.
    set (w1 := mkWorld _ _ _ _ _ _).
    destruct (IH w1) as [-> ->]; [exact Hc|exact Hnd| |].
    + intros r' Hr'. unfold w1; simpl. rewrite lookup_insert_ne.
      * apply Hfree. right. exact Hr'.
      * apply key_for_fresh with rs; assumption.
    + unfold w1; simpl. unfold after_cancel.
      rewrite (Hfree r) by left.
      rewrite map_size_insert_None by (apply Hfree; left).
      rewrite <- app_assoc. simpl. split; [reflexivity|lia].
  - rewrite schedule_one_skip by lia. apply IH; [exact Hc|exact Hnd|].
    intros r' Hr'. apply Hfree. right. exact Hr'.
Qed.

Lemma recover_frame (ts : list Turno) (w : World) :
  clock (recover w ts) = clock w /\ outbox (recover w ts) = outbox w /\
  turnos (recover w ts) = turnos w /\ console (recover w ts) = console w.
Proof.
  revert w; induction ts as [|t ts IH]; intros w; simpl; [auto|].
  destruct (IH (scheduleRemindersForTurno t w)) as (-> & -> & -> & ->).
  apply loop_frame.
Qed.

Lemma wf_recover (ts : list Turno) (w : World) : wf w -> wf (recover w ts).
Proof.
  revert w; induction ts as [|t ts IH]; intros w Hwf; simpl; [exact Hwf|].
  apply IH, wf_scheduleRemindersForTurno, Hwf.
Qed.

Lemma recover_fresh (ts : list Turno) (w : World) :
  clock w = now -> NoDup (id <$> ts) ->
  (forall t, t ∈ ts -> fresh_for w (id t)) ->
  timers (recover w ts) =
    (timers w ++ flat_map (fun t => new_job t <$> planned now t REMINDERS) ts)%list /\
  size (jobsMap (recover w ts)) =
    (size (jobsMap w) +
     sum_list_with (fun t => length (planned now t REMINDERS)) ts)%nat.
Proof.
  revert w; induction ts as [|t ts IH]; intros w Hc Hnd Hfresh; simpl.
  { rewrite app_nil_r. split; [reflexivity|lia]. }
  rewrite fmap_cons in Hnd. apply NoDup_cons in Hnd as [Ht Hnd].
  destruct (loop_fresh t REMINDERS w Hc) as [Ht1 Hs1];
    [apply REMINDERS_keys_NoDup|intros r _; apply Hfresh; left|].
  fold (scheduleRemindersForTurno t w) in Ht1, Hs1.
  destruct (IH (scheduleRemindersForTurno t w)) as [-> ->].
  - rewrite <- Hc. apply loop_clock.
  - exact Hnd.
  - intros t' Ht' k.
    destruct (jobsMap (scheduleRemindersForTurno t w) !! job_key_of (id t') k)
      as [h|] eqn:E; [|reflexivity].
    apply loop_registry_origin in E as [E|(r & _ & E)].
    + rewrite (Hfresh t') in E by (right; exact Ht'). discriminate E.
    + apply job_key_of_inj in E as [E _]. exfalso. apply Ht.
      rewrite <- E. apply list_elem_of_fmap_2, Ht'.
  - rewrite Ht1, Hs1, <- app_assoc. split; [reflexivity|lia].
Qed.

End Recovery.

Lemma wf_init (now : Z) (rows : list Turno) : wf (init (boot now rows)).
Proof.
  unfold init. eapply wf_frame; [reflexivity|reflexivity|].
  apply (wf_recover (select_futuros now rows) (boot now rows)), wf_boot.
Qed.

(** Every state the process reaches after start-up satisfies [wf]. *)
Lemma wf_reachable (TZ : Zone) (now : Z) (rows : list Turno) (es : list Event)
    (w : World) :
  run TZ es (init (boot now rows)) = Some w -> wf w.
Proof. apply wf_run, wf_init. Qed.

Lemma NoDup_fmap_filter {A B} (f : A -> B) (P : A -> Prop)
    `{forall x, Decision (P x)} (l : list A) :
  NoDup (f <$> l) -> NoDup (f <$> filter P l).
Proof.
  induction l as [|x l IH]; [trivial|].
  rewrite fmap_cons, NoDup_cons. intros [Hx Hnd].
  rewrite filter_cons. case_decide; [|auto].
  rewrite fmap_cons, NoDup_cons. split; [|auto].
  intros (y & Hy & Hin)%list_elem_of_fmap. apply Hx.
  apply list_elem_of_filter in Hin as [_ Hin].
  rewrite Hy. apply list_elem_of_fmap_2, Hin.
Qed.

Lemma sum_selected (f : Turno -> nat) (now : Z) (rows : list Turno) :
  (forall t, t ∈ rows ->
     ~ sql_lt (sql_datetime now) (sql_datetime (fecha_iso t)) -> f t = 0%nat) ->
  sum_list_with f (select_futuros now rows) =
  sum_list_with f (filter (fun t => now < fecha_iso t) rows).
Proof.
  unfold select_futuros.
  induction rows as [|t rows IH]; intros Hnil; [reflexivity|].
  rewrite !filter_cons.
  specialize (IH (fun x Hx => Hnil x (list_elem_of_further _ _ _ Hx))).
  destruct (decide (sql_lt (sql_datetime now) (sql_datetime (fecha_iso t)))) as [Hs|Hs].
  - rewrite decide_True.
    + simpl. rewrite IH. reflexivity.
    + apply (select_futuros_future now [t] t).
      unfold select_futuros. rewrite list_elem_of_filter. split; [exact Hs|left].
  - case_decide; simpl; rewrite ?(Hnil t (list_elem_of_here _ _) Hs); exact IH.
Qed.

(** C5. At start-up [init] schedules reminders only for appointments whose
    target instant is strictly after the current instant and logs how many
    it recovered. Afterwards the timer store holds, for the recovered
    appointments in row order, one pending job per offset whose trigger
    instant is still ahead, and nothing else; the registry maps the key of
    each such (appointment, offset) pair to its job and holds no other
    entry, so its size is the sum over those appointments of the number of
    offsets still ahead. On a table whose instants, like the clock, lie in
    the years 0000 to 9999 that the query can read, and whose ids are exact
    JS numbers, the recovered appointments are all the appointments that
    have an offset still ahead: every future (appointment, offset) pair of
    the table has its job. *)
Theorem C5_recovery (now : Z) (rows : list Turno) :
  NoDup (id <$> rows) ->
  Forall (fun t => - 2 ^ 53 <= id t <= 2 ^ 53) rows ->
  let futuros := select_futuros now rows in
  let upcoming := filter (fun t => now < fecha_iso t) rows in
  let w' := init (boot now rows) in
  Forall (fun t => t ∈ rows /\ now < fecha_iso t) futuros /\
  console w' = ["Programados " +:+ Number_toString (Z.of_nat (length futuros))
                +:+ " turnos futuros"] /\
  timers w' = flat_map (fun t => new_job t <$> planned now t REMINDERS) futuros /\
  (forall t r, t ∈ futuros -> r ∈ REMINDERS -> now < when_of (fecha_iso t) r ->
     exists h, jobsMap w' !! job_key_of (id t) (key r) = Some h /\
               timers w' !! h = Some (new_job t r)) /\
  (forall k h, jobsMap w' !! k = Some h ->
     exists t r, t ∈ futuros /\ now < fecha_iso t /\
                 r ∈ REMINDERS /\ now < when_of (fecha_iso t) r /\
                 k = job_key_of (id t) (key r) /\
                 timers w' !! h = Some (new_job t r)) /\
  size (jobsMap w') =
    sum_list_with (fun t => length (planned now t REMINDERS)) futuros /\
  (is_Some (sql_datetime now) ->
   Forall (fun t => is_Some (sql_datetime (fecha_iso t))) rows ->
   timers w' = flat_map (fun t => new_job t <$> planned now t REMINDERS) upcoming /\
   (forall t r, t ∈ rows -> now < fecha_iso t ->
                r ∈ REMINDERS -> now < when_of (fecha_iso t) r ->
      exists h, jobsMap w' !! job_key_of (id t) (key r) = Some h /\
                timers w' !! h = Some (new_job t r)) /\
   size (jobsMap w') =
     sum_list_with (fun t => length (planned now t REMINDERS)) upcoming).
Proof.
  intros Hnd _ futuros upcoming w'.
  assert (Hw : wf (recover (boot now rows) futuros)) by apply wf_recover, wf_boot.
  destruct (recover_fresh now futuros (boot now rows)) as [Ht Hs].
  { reflexivity. }
  { apply NoDup_fmap_filter, Hnd. }
  { intros t _ k. apply lookup_empty. }
  simpl in Ht, Hs. rewrite map_size_empty in Hs. simpl in Hs.
  assert (Hsel : timers w' =
            flat_map (fun t => new_job t <$> planned now t REMINDERS) futuros)
    by exact Ht.
  assert (Hjobs : forall j, j ∈ timers w' <->
            exists t r, t ∈ futuros /\ r ∈ REMINDERS /\
                        now < when_of (fecha_iso t) r /\ j = new_job t r).
  { intros j. rewrite Hsel, list_elem_of_In, in_flat_map. split.
    - intros (t & Hin & Hj). apply list_elem_of_In in Hin.
      apply list_elem_of_In, list_elem_of_fmap in Hj as (r & -> & Hr).
      apply planned_elem in Hr as [? ?]. exists t, r. auto.
    - intros (t & r & Ht' & Hr & Hd & ->). exists t. split.
      + apply list_elem_of_In, Ht'.
      + apply list_elem_of_In, list_elem_of_fmap_2, planned_elem. auto. }
  destruct Hw as [W1 W2].
  assert (Hreg : forall t r, t ∈ futuros -> r ∈ REMINDERS ->
            now < when_of (fecha_iso t) r ->
            exists h, jobsMap w' !! job_key_of (id t) (key r) = Some h /\
                      timers w' !! h = Some (new_job t r)).
  { intros t r Ht' Hr Hd.
    assert (Hin : new_job t r ∈ timers w') by (apply Hjobs; exists t, r; auto).
    apply list_elem_of_lookup_1 in Hin as [h Hh]. exists h. split; [|exact Hh].
    apply (W2 h (new_job t r)); [exact Hh|reflexivity]. }
  split; [|split; [|split; [|split; [|split; [|split]]]]].
  - apply Forall_forall. intros t Hin. apply select_futuros_future, Hin.
  - unfold w', init. simpl.
    destruct (recover_frame (select_futuros now rows) (boot now rows))
      as (_ & _ & _ & Hcon).
    unfold recover in Hcon. rewrite Hcon. reflexivity.
  - exact Hsel.
  - exact Hreg.
  - intros k h Hk. destruct (W1 k h Hk) as (j & Hj & Hkey & _).
    assert (Hin : j ∈ timers w') by (eapply list_elem_of_lookup_2; eauto).
    apply Hjobs in Hin as (t & r & Ht' & Hr & Hd & ->).
    exists t, r. rewrite <- Hkey.
    pose proof (select_futuros_future now rows t Ht') as [_ Hf]. auto 10.
  - exact Hs.
  - intros Hnow Hrows. rewrite Forall_forall in Hrows.
    assert (Hnone : forall t, t ∈ rows ->
              ~ sql_lt (sql_datetime now) (sql_datetime (fecha_iso t)) ->
              planned now t REMINDERS = []).
    { intros t Hin Hno. apply not_selected_nothing_planned; auto. }
    split; [|split].
    + rewrite Hsel. apply flat_map_selected.
      intros t Hin Hno. rewrite (Hnone t Hin Hno). reflexivity.
    + intros t r Hin Hf Hr Hd. apply Hreg; [|exact Hr|exact Hd].
      destruct (decide (sql_lt (sql_datetime now) (sql_datetime (fecha_iso t))))
        as [Hyes|Hno].
      * unfold futuros, select_futuros. apply list_elem_of_filter. auto.
      * exfalso. pose proof (Hnone t Hin Hno) as Hp.
        assert (Hrp : r ∈ planned now t REMINDERS) by (apply planned_elem; auto).
        rewrite Hp in Hrp. apply elem_of_nil in Hrp. exact Hrp.
    + change (jobsMap w') with (jobsMap (recover (boot now rows) futuros)).
      rewrite Hs. apply sum_selected.
      intros t Hin Hno. rewrite (Hnone t Hin Hno). reflexivity.
Qed.

(** ** Rescheduling *)

Section FilterByIndex.

Context {A : Type} (P : A -> Prop) `{forall x, Decision (P x)}.

Lemma filter_none (l : list A) :
  (forall i y, l !! i = Some y -> ~ P y) -> filter P l = [].
Proof.
  induction l as [|x l IH]; intros Hno; [reflexivity|].
  rewrite filter_cons_False by (apply (Hno 0%nat); reflexivity).
  apply IH. intros i y Hy. apply (Hno (S i)). exact Hy.
Qed.

Lemma filter_unique (l : list A) (h : nat) (x : A) :
  l !! h = Some x -> P x ->
  (forall i y, l !! i = Some y -> P y -> i = h) ->
  filter P l = [x].
Proof.
  revert h; induction l as [|y l IH]; intros h Hx HP Huniq; [discriminate Hx|].
  destruct h as [|h]; simpl in Hx.
  - injection Hx as ->. rewrite filter_cons_True by exact HP. f_equal.
    apply filter_none. intros i y Hy HPy.
    specialize (Huniq (S i) y Hy HPy). discriminate Huniq.
  - rewrite filter_cons_False.
    + apply (IH h); [exact Hx|exact HP|].
      intros i z Hz HPz. specialize (Huniq (S i) z Hz HPz). lia.
    + intros HPy. specialize (Huniq 0%nat y eq_refl HPy). discriminate Huniq.
Qed.

Lemma filter_at_most_one (l : list A) :
  (forall i1 i2 x1 x2, l !! i1 = Some x1 -> l !! i2 = Some x2 ->
                       P x1 -> P x2 -> i1 = i2) ->
  (length (filter P l) <= 1)%nat.
Proof.
  induction l as [|y l IH]; intros Huniq; [simpl; lia|].
  rewrite filter_cons. case_decide as HPy.
  - rewrite filter_none; [simpl; lia|].
    intros i z Hz HPz. specialize (Huniq 0%nat (S i) y z eq_refl Hz HPy HPz).
    discriminate Huniq.
  - apply IH. intros i1 i2 x1 x2 H1 H2 HP1 HP2.
    specialize (Huniq (S i1) (S i2) x1 x2 H1 H2 HP1 HP2). lia.
Qed.

End FilterByIndex.

(** Under [wf] the live jobs of a key are read off the registry. *)
Lemma live_under_wf (k : string) (w : World) :
  wf w ->
  live_under k w =
  match jobsMap w !! k with
  | Some h => match timers w !! h with Some j => [j] | None => [] end
  | None => []
  end.
Proof.
  intros [W1 W2]. unfold live_under.
  destruct (jobsMap w !! k) as [h|] eqn:Hk.
  - destruct (W1 _ _ Hk) as (j & Hj & Hkey & Hs). rewrite Hj.
    apply (filter_unique _ _ h); [exact Hj|auto|].
    intros i y Hy [Hys Hyk]. specialize (W2 _ _ Hy Hys). congruence.
  - apply filter_none. intros i y Hy [Hys Hyk].
    specialize (W2 _ _ Hy Hys). congruence.
Qed.

Lemma live_under_le1 (k : string) (w : World) :
  wf w -> (length (live_under k w) <= 1)%nat.
Proof.
  intros Hwf. rewrite live_under_wf by exact Hwf.
  destruct (jobsMap w !! k) as [h|]; [destruct (timers w !! h)|]; simpl; lia.
Qed.

(** C2 fails as stated: an appointment 20 minutes ahead has every offset
    skipped, so after two calls in succession no offset key has a live job,
    where the claim asks for exactly one under each. *)
Lemma C2_no_job_to_keep_counterexample :
  timers (scheduleRemindersForTurno sample_turno
            (scheduleRemindersForTurno sample_turno late_world)) = [] /\
  Forall (fun r =>
            length (live_under (job_key_of (id sample_turno) (key r))
                      (scheduleRemindersForTurno sample_turno
                         (scheduleRemindersForTurno sample_turno late_world)))
            = 0%nat) REMINDERS.
Proof. vm_compute. split; [reflexivity|]. repeat constructor. Qed.

Section Steady.

Variables (t : Turno) (r : Reminder).
Hypothesis r_in_policy : r ∈ REMINDERS.

Local Abbreviation k := (job_key_of (id t) (key r)).

Lemma schedule_one_lookup (t' : Turno) (r' : Reminder) (w : World) (h : nat) (j' : Job) :
  wf w -> clock w < when_of (fecha_iso t') r' ->
  timers (schedule_one t' w r') !! h = Some j' ->
  (h = length (timers w) /\ j' = new_job t' r') \/
  (exists j, timers w !! h = Some j /\
     j' = if decide (job_state j = Scheduled /\
                     job_key j = job_key_of (id t') (key r'))
          then cancel_job j else j).
Proof.
  intros Hwf Hgo. rewrite schedule_one_go by exact Hgo. simpl.
  intros [Hold|[Hge Hnew]]%lookup_app_Some.
  - right. pose proof (lookup_lt_Some _ _ _ Hold) as Hlt.
    rewrite after_cancel_length in Hlt.
    destruct (lookup_lt_is_Some_2 _ _ Hlt) as [j Hj]. exists j. split; [exact Hj|].
    rewrite (after_cancel_lookup _ w h j Hwf Hj) in Hold. congruence.
  - left. rewrite after_cancel_length in Hge, Hnew.
    destruct (h - length (timers w))%nat eqn:E; simpl in Hnew.
    + injection Hnew as <-. split; [lia|reflexivity].
    + rewrite lookup_nil in Hnew. discriminate Hnew.
Qed.

(** The jobs under the pair's key that count after one iteration. *)
Lemma steady_survivors (t' : Turno) (r' : Reminder) (w : World) (h : nat) (j' : Job) :
  wf w -> steady t r w -> r' ∈ REMINDERS -> (id t' = id t -> t' = t) ->
  clock w < when_of (fecha_iso t') r' ->
  timers (schedule_one t' w r') !! h = Some j' ->
  job_key j' = k -> job_state j' <> Cancelled ->
  (t' = t /\ r' = r /\ h = length (timers w) /\ j' = new_job t r) \/
  (job_key_of (id t') (key r') <> k /\ timers w !! h = Some j').
Proof.
  intros Hwf (_ & _ & SC) Hr' Hsame Hgo Hj' Hkey Hst.
  destruct (schedule_one_lookup t' r' w h j' Hwf Hgo Hj') as [[-> ->]|(j & Hj & ->)].
  - left. simpl in Hkey. apply job_key_of_inj in Hkey as [Hid Hk].
    specialize (Hsame Hid). subst t'.
    apply (REMINDERS_key_inj r' r Hr' r_in_policy) in Hk. subst r'. auto.
  - case_decide as Hd.
    + exfalso. destruct Hd as [Hs _]. apply Hst.
      unfold cancel_job. rewrite Hs. reflexivity.
    + right. split; [|exact Hj].
      intros Hk. apply job_key_of_inj in Hk as [Hid Hk].
      specialize (Hsame Hid). subst t'.
      apply (REMINDERS_key_inj r' r Hr' r_in_policy) in Hk. subst r'.
      destruct (job_state j) eqn:Hs.
      * apply Hd. auto.
      * specialize (SC _ _ Hj Hkey Hs). lia.
      * congruence.
Qed.

Lemma steady_schedule_one (t' : Turno) (r' : Reminder) (w : World) :
  wf w -> steady t r w -> r' ∈ REMINDERS -> (id t' = id t -> t' = t) ->
  steady t r (schedule_one t' w r').
Proof.
  intros Hwf Hst Hr' Hsame.
  destruct (Z.le_gt_cases (when_of (fecha_iso t') r') (clock w)) as [H|H].
  { rewrite schedule_one_skip by exact H. exact Hst. }
  assert (Hgo : clock w < when_of (fecha_iso t') r') by lia.
  pose proof (fun h j' => steady_survivors t' r' w h j' Hwf Hst Hr' Hsame Hgo)
    as Hsurv.
  pose proof (schedule_one_frame t' w r') as (Hc & _).
  destruct Hst as (SA & SB & SC).
  split; [|split].
  - intros h1 h2 j1 j2 H1 H2 K1 K2 N1 N2.
    destruct (Hsurv h1 j1 H1 K1 N1) as [(Et1 & Er1 & -> & _)|[Hne1 O1]];
      destruct (Hsurv h2 j2 H2 K2 N2) as [(Et2 & Er2 & -> & _)|[Hne2 O2]].
    + reflexivity.
    + subst t' r'. congruence.
    + subst t' r'. congruence.
    + apply (SA h1 h2 j1 j2); assumption.
  - intros h j Hj Hk Hs.
    destruct (Hsurv h j Hj Hk) as [(_ & _ & _ & ->)|[_ Ho]]; [congruence|..].
    + reflexivity.
    + apply (SB h j); assumption.
  - intros h j Hj Hk Hs. rewrite Hc.
    destruct (Hsurv h j Hj Hk) as [(_ & _ & _ & ->)|[_ Ho]]; [congruence|..].
    + discriminate Hs.
    + apply (SC h j); assumption.
Qed.

Lemma steady_loop (t' : Turno) (rs : list Reminder) (w : World) :
  wf w -> steady t r w -> (forall r', r' ∈ rs -> r' ∈ REMINDERS) ->
  (id t' = id t -> t' = t) ->
  steady t r (foldl (schedule_one t') w rs).
Proof.
  revert w; induction rs as [|r' rs IH]; intros w Hwf Hst Hrs Hsame; simpl;
    [exact Hst|].
  apply IH.
  - apply wf_schedule_one, Hwf.
  - apply steady_schedule_one; [exact Hwf|exact Hst|apply Hrs; left|exact Hsame].
  - intros r'' Hr''. apply Hrs. right. exact Hr''.
  - exact Hsame.
Qed.

Lemma steady_fire (TZ : Zone) (ok : bool) (h : nat) (w w' : World) :
  steady t r w -> fire TZ ok h w = Some w' -> steady t r w'.
Proof.
  intros (SA & SB & SC) (j & Hj & Hs & Hdue & ->)%fire_Some.
  pose proof (lookup_lt_Some _ _ _ Hj) as Hlt.
  assert (Horig : forall i x, timers (fired_world TZ ok h j w) !! i = Some x ->
            (i = h /\ x = mark_fired j) \/ (i <> h /\ timers w !! i = Some x)).
  { intros i x. simpl. destruct (decide (h = i)) as [<-|Hne].
    - rewrite list_lookup_insert_eq by exact Hlt. intros [= <-]. auto.
    - rewrite list_lookup_insert_ne by exact Hne. auto. }
  assert (Hback : forall i x, timers (fired_world TZ ok h j w) !! i = Some x ->
            job_state x <> Cancelled ->
            exists y, timers w !! i = Some y /\ job_key y = job_key x /\
                      job_state y <> Cancelled).
  { intros i x Hx Hn. destruct (Horig i x Hx) as [[-> ->]|[_ Hy]].
    - exists j. split; [exact Hj|]. split; [reflexivity|congruence].
    - exists x. auto. }
  split; [|split].
  - intros h1 h2 j1 j2 H1 H2 K1 K2 N1 N2.
    destruct (Hback _ _ H1 N1) as (y1 & Y1 & E1 & M1).
    destruct (Hback _ _ H2 N2) as (y2 & Y2 & E2 & M2).
    apply (SA h1 h2 y1 y2); congruence.
  - intros i x Hx Hk Hsx. destruct (Horig i x Hx) as [[-> ->]|[_ Hy]].
    + discriminate Hsx.
    + eapply SB; eauto.
  - intros i x Hx Hk Hsx. simpl. destruct (Horig i x Hx) as [[-> ->]|[_ Hy]].
    + simpl in Hk. rewrite <- (SB h j Hj Hk Hs). exact Hdue.
    + eapply SC; eauto.
Qed.

Lemma steady_step (TZ : Zone) (e : Event) (w w' : World) :
  wf w -> steady t r w -> same_appointment t e ->
  step TZ e w = Some w' -> steady t r w'.
Proof.
  intros Hwf Hst Hsame.
  destruct e as [d|ok h|t'|ok chat i]; simpl.
  - intros [= <-]. destruct Hst as (SA & SB & SC).
    split; [exact SA|]. split; [exact SB|].
    intros h j Hj Hk Hs. simpl. specialize (SC h j Hj Hk Hs). lia.
  - apply steady_fire, Hst.
  - intros [= <-]. apply steady_loop; auto.
  - intros [= <-]. pose proof (cmd_borrar_frame ok chat i w) as (_ & Ht & Hc).
    unfold steady. rewrite Ht, Hc. exact Hst.
Qed.

Lemma steady_run (TZ : Zone) (es : list Event) (w w' : World) :
  wf w -> steady t r w -> Forall (same_appointment t) es ->
  run TZ es w = Some w' -> steady t r w'.
Proof.
  revert w; induction es as [|e es IH]; intros w Hwf Hst Hes; simpl.
  - intros [= <-]. exact Hst.
  - apply Forall_cons in Hes as [He Hes].
    destruct (step TZ e w) as [w1|] eqn:E; [|discriminate].
    apply IH; [eapply wf_step; eauto|eapply steady_step; eauto|exact Hes].
Qed.

Lemma steady_unscheduled (w : World) :
  Forall (fun j => job_key j <> k) (timers w) -> steady t r w.
Proof.
  intros Hall.
  assert (Hno : forall h j, timers w !! h = Some j -> job_key j <> k).
  { intros h j Hj. rewrite Forall_forall in Hall. apply Hall.
    eapply list_elem_of_lookup_2; eauto. }
  split; [|split].
  - intros h1 h2 j1 j2 H1 _ K1. exfalso. eapply Hno; eauto.
  - intros h j Hj Hk. exfalso. eapply Hno; eauto.
  - intros h j Hj Hk. exfalso. eapply Hno; eauto.
Qed.

End Steady.

Lemma steady_total (t : Turno) (r : Reminder) (w : World) :
  steady t r w ->
  (length (fired_under (job_key_of (id t) (key r)) w) +
   length (live_under (job_key_of (id t) (key r)) w) <= 1)%nat.
Proof.
  intros (SA & _).
  assert (Hf : (length (fired_under (job_key_of (id t) (key r)) w) <= 1)%nat).
  { apply filter_at_most_one. intros i1 i2 x1 x2 H1 H2 [S1 K1] [S2 K2].
    apply (SA i1 i2 x1 x2); congruence. }
  assert (Hl : (length (live_under (job_key_of (id t) (key r)) w) <= 1)%nat).
  { apply filter_at_most_one. intros i1 i2 x1 x2 H1 H2 [S1 K1] [S2 K2].
    apply (SA i1 i2 x1 x2); congruence. }
  destruct (fired_under _ w) as [|x1 l1] eqn:E1; [simpl; lia|].
  destruct (live_under _ w) as [|x2 l2] eqn:E2; [simpl in *; lia|].
  exfalso.
  assert (H1 : x1 ∈ fired_under (job_key_of (id t) (key r)) w) by (rewrite E1; left).
  assert (H2 : x2 ∈ live_under (job_key_of (id t) (key r)) w) by (rewrite E2; left).
  apply list_elem_of_filter in H1 as [[S1 K1] [i1 I1]%list_elem_of_lookup_1].
  apply list_elem_of_filter in H2 as [[S2 K2] [i2 I2]%list_elem_of_lookup_1].
  assert (i1 = i2) by (apply (SA i1 i2 x1 x2); congruence).
  subst i2. congruence.
Qed.

(** Scheduling an offset whose trigger instant is ahead: the job registered
    under its key before the call, if any, is cancelled, and a job made by
    the call is the one live job under the key. *)
Lemma replaced_entry (t : Turno) (r : Reminder) (w : World) :
  wf w -> r ∈ REMINDERS -> clock w < when_of (fecha_iso t) r ->
  exists h,
    (length (timers w) <= h)%nat /\
    jobsMap (scheduleRemindersForTurno t w) !! job_key_of (id t) (key r) = Some h /\
    timers (scheduleRemindersForTurno t w) !! h = Some (new_job t r) /\
    live_under (job_key_of (id t) (key r)) (scheduleRemindersForTurno t w) =
      [new_job t r] /\
    (forall h0 j0, jobsMap w !! job_key_of (id t) (key r) = Some h0 ->
                   timers w !! h0 = Some j0 ->
                   timers (scheduleRemindersForTurno t w) !! h0 =
                     Some (cancel_job j0) /\
                   job_state (cancel_job j0) = Cancelled).
Proof.
  intros Hwf Hr Hdue.
  assert (Hwf' : wf (scheduleRemindersForTurno t w)) by auto with sched.
  assert (Hin : r ∈ planned (clock w) t REMINDERS) by (apply planned_elem; auto).
  apply list_elem_of_lookup_1 in Hin as [i Hi].
  assert (Hm : jobsMap (scheduleRemindersForTurno t w) !! job_key_of (id t) (key r)
               = Some (length (timers w) + i)%nat)
    by (apply loop_registry_new; [apply REMINDERS_keys_NoDup|exact Hi]).
  assert (Ht : timers (scheduleRemindersForTurno t w) !! (length (timers w) + i)%nat
               = Some (new_job t r)).
  { unfold scheduleRemindersForTurno. rewrite <- lookup_drop.
    rewrite (loop_timers_new t REMINDERS w Hwf REMINDERS_keys_NoDup).
    rewrite list_lookup_fmap, Hi. reflexivity. }
  exists (length (timers w) + i)%nat.
  split; [lia|]. split; [exact Hm|]. split; [exact Ht|]. split.
  - rewrite live_under_wf by exact Hwf'. rewrite Hm, Ht. reflexivity.
  - intros h0 j0 Hk0 Hj0.
    destruct Hwf as [W1 _]. destruct (W1 _ _ Hk0) as (j & Hj & _ & Hs).
    assert (j = j0) by congruence. subst j.
    split; [|unfold cancel_job; rewrite Hs; reflexivity].
    destruct (loop_timers_old t REMINDERS w _ _ Hj0) as [H|H]; [|exact H].
    exfalso. destruct Hwf' as [_ W2].
    pose proof (W2 _ _ H Hs) as Hreg.
    destruct (W1 _ _ Hk0) as (j & Hj' & Hkey & _).
    assert (j = j0) by congruence. subst j. rewrite Hkey in Hreg.
    fold (scheduleRemindersForTurno t w) in Hreg.
    rewrite Hm in Hreg. injection Hreg as Hreg.
    apply lookup_lt_Some in Hj0. lia.
Qed.

(** C2, amended. Calling [scheduleRemindersForTurno] twice in succession for
    an appointment leaves at most one live job under each offset key. For
    an offset whose trigger instant is still ahead there is exactly one: a
    live job found under the key is cancelled before the replacement is
    installed, so the first call cancels the job that was registered before
    it and the second call cancels the job of the first, and the job of the
    second call stands in the registry. For a skipped offset the entry is
    as it was before the two calls. When the appointment had not been
    scheduled before, then however often it is scheduled again in the rest
    of the run, at most one job of each offset ever fires, and once it has
    fired none is pending. *)
Theorem C2_reschedule_replaces (t : Turno) (r : Reminder) (w : World) :
  wf w -> r ∈ REMINDERS ->
  let k := job_key_of (id t) (key r) in
  let w1 := scheduleRemindersForTurno t w in
  let w2 := scheduleRemindersForTurno t w1 in
  (length (live_under k w2) <= 1)%nat /\
  (clock w < when_of (fecha_iso t) r ->
     exists h1 h2,
       jobsMap w1 !! k = Some h1 /\ timers w1 !! h1 = Some (new_job t r) /\
       jobsMap w2 !! k = Some h2 /\ timers w2 !! h2 = Some (new_job t r) /\
       (h1 < h2)%nat /\
       timers w2 !! h1 =
         Some (mkJob (when_of (fecha_iso t) r) t r k Cancelled) /\
       live_under k w1 = [new_job t r] /\
       live_under k w2 = [new_job t r] /\
       (forall h0, jobsMap w !! k = Some h0 ->
                   job_state <$> timers w1 !! h0 = Some Cancelled)) /\
  (when_of (fecha_iso t) r <= clock w ->
     jobsMap w2 !! k = jobsMap w !! k /\ live_under k w2 = live_under k w) /\
  (Forall (fun j => job_key j <> k) (timers w) ->
   forall TZ es w', Forall (same_appointment t) es -> run TZ es w2 = Some w' ->
     (length (fired_under k w') + length (live_under k w') <= 1)%nat).
Proof.
  intros Hwf Hr k w1 w2.
  assert (Hwf1 : wf w1) by (unfold w1; auto with sched).
  assert (Hwf2 : wf w2) by (unfold w2, w1; auto with sched).
  assert (Hc1 : clock w1 = clock w) by apply loop_clock.
  split; [apply live_under_le1, Hwf2|]. split; [|split].
  - intros Hdue.
    destruct (replaced_entry t r w Hwf Hr Hdue) as (h1 & Hge1 & Hm1 & Ht1 & Hl1 & Hold1).
    destruct (replaced_entry t r w1 Hwf1 Hr ltac:(lia))
      as (h2 & Hge2 & Hm2 & Ht2 & Hl2 & Hold2).
    fold w1 k in Hm1, Ht1, Hl1, Hold1. fold w2 k in Hm2, Ht2, Hl2, Hold2.
    exists h1, h2.
    split; [exact Hm1|]. split; [exact Ht1|]. split; [exact Hm2|].
    split; [exact Ht2|].
    split; [apply lookup_lt_Some in Ht1; lia|].
    split; [exact (proj1 (Hold2 h1 _ Hm1 Ht1))|].
    split; [exact Hl1|]. split; [exact Hl2|].
    intros h0 Hk0. destruct Hwf as [W1 _].
    destruct (W1 _ _ Hk0) as (j0 & Hj0 & _).
    destruct (Hold1 h0 j0 Hk0 Hj0) as [-> Hs]. simpl. rewrite Hs. reflexivity.
  - intros Hpast.
    destruct (skipped_entry t w r Hwf Hr Hpast) as [Hm1 Hk1].
    destruct (skipped_entry t w1 r Hwf1 Hr ltac:(lia)) as [Hm2 Hk2].
    fold w1 k in Hm1, Hk1. fold w1 w2 k in Hm2, Hk2.
    split; [congruence|].
    rewrite !live_under_wf by assumption. rewrite Hm2, Hm1.
    destruct (jobsMap w !! k) as [h|] eqn:Hk; [|reflexivity].
    destruct Hwf as [W1 _]. destruct (W1 _ _ Hk) as (j & Hj & _).
    rewrite Hj. rewrite (Hk2 h j); [reflexivity|congruence|].
    apply (Hk1 h j); [reflexivity|exact Hj].
  - intros Hnone TZ es w' Hes Hrun.
    apply steady_total.
    apply (steady_run t r Hr TZ es w2 w'); [exact Hwf2| |exact Hes|exact Hrun].
    apply steady_loop; [exact Hr|exact Hwf1| |auto|auto].
    apply steady_loop; [exact Hr|exact Hwf| |auto|auto].
    apply steady_unscheduled, Hnone.
Qed.

(** ** The claims at the sample process *)

(** C2 at the sample process: scheduled twice, the 24h offset has one live
    job; a day later it fires, and scheduling again makes no second one. *)
Lemma C2_reschedule_replaces_witness :
  wf (boot sample_start [sample_turno]) /\ sample_reminder ∈ REMINDERS /\
  live_under (job_key_of (id sample_turno) (key sample_reminder))
    (scheduleRemindersForTurno sample_turno sample_world) =
    [new_job sample_turno sample_reminder] /\
  exists w',
    run UTC_minus_3 [EvTick 86400000; EvFire true 5%nat; EvSchedule sample_turno]
        (scheduleRemindersForTurno sample_turno sample_world) = Some w' /\
    (length (fired_under (job_key_of (id sample_turno) (key sample_reminder)) w') +
     length (live_under (job_key_of (id sample_turno) (key sample_reminder)) w')
     <= 1)%nat.
Proof.
  pose proof (C2_reschedule_replaces sample_turno sample_reminder
                (boot sample_start [sample_turno]) (wf_boot _ _)
                (list_elem_of_here _ _)) as (_ & Hahead & _ & Hrun).
  split; [apply wf_boot|]. split; [left|]. split.
  - destruct Hahead as (h1 & h2 & _ & _ & _ & _ & _ & _ & _ & Hlive & _).
    + vm_compute. reflexivity.
    + exact Hlive.
  - destruct (run UTC_minus_3
                [EvTick 86400000; EvFire true 5%nat; EvSchedule sample_turno]
                (scheduleRemindersForTurno sample_turno sample_world))
      as [w'|] eqn:E; [|vm_compute in E; discriminate E].
    exists w'. split; [reflexivity|].
    apply (Hrun (List.Forall_nil _) UTC_minus_3
             [EvTick 86400000; EvFire true 5%nat; EvSchedule sample_turno] w').
    + repeat constructor.
    + exact E.
Defined.

(** C3 at the appointment seen 20 minutes ahead. *)
Lemma C3_past_offsets_skipped_witness :
  when_of (fecha_iso sample_turno) sample_reminder <= clock late_world /\
  schedule_one sample_turno late_world sample_reminder = late_world /\
  fecha_iso sample_turno = clock late_world + 20 * 60000 /\
  scheduleRemindersForTurno sample_turno late_world = late_world.
Proof.
  assert (H1 : when_of (fecha_iso sample_turno) sample_reminder <= clock late_world)
    by (vm_compute; discriminate).
  assert (H2 : fecha_iso sample_turno = clock late_world + 20 * 60000)
    by reflexivity.
  split; [exact H1|].
  split; [exact (proj1 (proj1 (C3_past_offsets_skipped sample_turno late_world)
                          sample_reminder H1))|].
  split; [exact H2|].
  exact (proj2 (proj2 (C3_past_offsets_skipped sample_turno late_world) H2)).
Defined.


(** C5 for a table with one past and one future appointment. *)
Lemma C5_recovery_witness :
  NoDup (id <$> [sample_turno; past_turno]) /\
  Forall (fun t => - 2 ^ 53 <= id t <= 2 ^ 53) [sample_turno; past_turno] /\
  is_Some (sql_datetime sample_start) /\
  Forall (fun t => is_Some (sql_datetime (fecha_iso t))) [sample_turno; past_turno] /\
  console (init (boot sample_start [sample_turno; past_turno])) =
    ["Programados 1 turnos futuros"] /\
  size (jobsMap (init (boot sample_start [sample_turno; past_turno]))) = 5%nat.
Proof.
  assert (H : NoDup (id <$> [sample_turno; past_turno])).
  { apply NoDup_cons. split; [|apply NoDup_singleton].
    intros Hin. apply list_elem_of_singleton in Hin. discriminate Hin. }
  assert (Hids : Forall (fun t => - 2 ^ 53 <= id t <= 2 ^ 53)
                   [sample_turno; past_turno])
    by (repeat constructor; vm_compute; discriminate).
  assert (Hnow : is_Some (sql_datetime sample_start)) by (eexists; reflexivity).
  assert (Hrows : Forall (fun t => is_Some (sql_datetime (fecha_iso t)))
                    [sample_turno; past_turno])
    by (repeat constructor; eexists; reflexivity).
  pose proof (C5_recovery sample_start [sample_turno; past_turno] H Hids)
    as (_ & Hlog & _ & _ & _ & _ & Hall).
  destruct (Hall Hnow Hrows) as (_ & _ & Hsize).
  split; [exact H|]. split; [exact Hids|]. split; [exact Hnow|].
  split; [exact Hrows|]. split; [exact Hlog|exact Hsize].
Defined.

(** C7 for the 24h reminder of the sample appointment, delivery failed. *)
Lemma C7_no_retry_witness :
  fire UTC_minus_3 false 0 due_world =
    Some (fired_world UTC_minus_3 false 0
            (new_job sample_turno sample_reminder) due_world) /\
  forall w2,
    run UTC_minus_3 [EvSchedule sample_turno; EvTick 3600000]
        (fired_world UTC_minus_3 false 0
           (new_job sample_turno sample_reminder) due_world) = Some w2 ->
    forall ok', fire UTC_minus_3 ok' 0 w2 = None.
Proof.
  assert (H : fire UTC_minus_3 false 0 due_world =
              Some (fired_world UTC_minus_3 false 0
                      (new_job sample_turno sample_reminder) due_world))
    by (apply fire_ready; [reflexivity|reflexivity|vm_compute; discriminate]).
  split; [exact H|].
  destruct (C7_no_retry UTC_minus_3 false 0 due_world _ H) as (_ & _ & _ & _ & Hrun).
  intros w2 Hw2. exact (proj2 (Hrun _ w2 Hw2)).
Defined.

(** C10 at the sample process one day later: the 24h job is due and still
    pending; scheduling again skips its offset and leaves it registered. *)
Lemma C10_skip_leaves_entry_witness :
  when_of (fecha_iso sample_turno) sample_reminder <= clock due_world /\
  schedule_one sample_turno due_world sample_reminder = due_world /\
  jobsMap (scheduleRemindersForTurno sample_turno due_world) !! "turno-1-24h" =
    Some 0%nat /\
  timers (scheduleRemindersForTurno sample_turno due_world) !! 0%nat =
    Some (new_job sample_turno sample_reminder).
Proof.
  assert (H : when_of (fecha_iso sample_turno) sample_reminder <= clock due_world)
    by (vm_compute; discriminate).
  assert (Hwf : wf due_world).
  { apply (wf_frame sample_world); [reflexivity|reflexivity|].
    apply wf_scheduleRemindersForTurno, wf_boot. }
  destruct (C10_skip_leaves_entry sample_turno due_world sample_reminder H)
    as [Hone Hall].
  destruct (Hall Hwf (list_elem_of_here _ _)) as [Hreg Hjob].
  split; [exact H|]. split; [exact Hone|]. split.
  - etransitivity; [exact Hreg|]. vm_compute. reflexivity.
  - apply Hjob; vm_compute; reflexivity.
Defined.

(** ** The appointment table *)

Section Table.

Lemma filter_all {A} (P : A -> Prop) `{forall x, Decision (P x)} (l : list A) :
  (forall x, x ∈ l -> P x) -> filter P l = l.
Proof.
  induction l as [|x l IH]; intros Hall; [reflexivity|].
  rewrite filter_cons_True by (apply Hall; left). f_equal.
  apply IH. intros y Hy. apply Hall. right. exact Hy.
Qed.

Lemma max_rowid_bound (rows : list Turno) (t : Turno) :
  t ∈ rows -> id t <= max_rowid rows.
Proof.
  induction rows as [|x rows IH]; [intros H; apply elem_of_nil in H; contradiction|].
  rewrite elem_of_cons. simpl. intros [->|Hin]; [lia|].
  specialize (IH Hin). lia.
Qed.

Lemma insert_by_fecha_perm (x : Turno) (l : list Turno) :
  insert_by_fecha x l ≡ₚ x :: l.
Proof.
  induction l as [|y l IH]; [reflexivity|]. simpl.
  case_decide; [|reflexivity]. rewrite IH. apply Permutation_swap.
Qed.

Lemma order_by_fecha_perm (l : list Turno) : order_by_fecha l ≡ₚ l.
Proof.
  induction l as [|x l IH]; [reflexivity|]. simpl.
  rewrite insert_by_fecha_perm. f_equiv. exact IH.
Qed.

Lemma insert_by_fecha_sorted (x : Turno) (l : list Turno) :
  StronglySorted fecha_le l -> StronglySorted fecha_le (insert_by_fecha x l).
Proof.
  induction l as [|y l IH]; intros Hs; simpl.
  { constructor; [constructor|constructor]. }
  apply StronglySorted_inv in Hs as [Hl Hy].
  case_decide as Hd.
  - constructor; [apply IH, Hl|].
    apply Forall_forall. intros z Hz.
    rewrite insert_by_fecha_perm in Hz. apply elem_of_cons in Hz as [->|Hz].
    + unfold fecha_le. lia.
    + rewrite Forall_forall in Hy. apply Hy, Hz.
  - constructor; [constructor; assumption|].
    constructor; [unfold fecha_le; lia|].
    eapply Forall_impl; [exact Hy|]. unfold fecha_le. intros z Hz. simpl in Hz. lia.
Qed.

Lemma order_by_fecha_sorted (l : list Turno) : StronglySorted fecha_le (order_by_fecha l).
Proof.
  induction l as [|x l IH]; [constructor|]. simpl. apply insert_by_fecha_sorted, IH.
Qed.

(** The sort is stable: rows of one instant keep their order. *)
Lemma insert_by_fecha_ties (f : Z) (x : Turno) (l : list Turno) :
  filter (fun t => fecha_iso t = f) (insert_by_fecha x l) =
  filter (fun t => fecha_iso t = f) (x :: l).
Proof.
  induction l as [|y l IH]; [reflexivity|]. simpl.
  case_decide as Hd; [|reflexivity].
  rewrite (filter_cons _ y), IH, !(filter_cons _ x), (filter_cons _ y).
  destruct (decide (fecha_iso y = f)) as [Hy|Hy]; [|reflexivity].
  rewrite !decide_False by lia. reflexivity.
Qed.

Lemma order_by_fecha_ties (f : Z) (l : list Turno) :
  filter (fun t => fecha_iso t = f) (order_by_fecha l) =
  filter (fun t => fecha_iso t = f) l.
Proof.
  induction l as [|x l IH]; [reflexivity|]. simpl.
  rewrite insert_by_fecha_ties, !filter_cons, IH. reflexivity.
Qed.

Lemma listarTurnos_elem (chatId now : Z) (rows : list Turno) (t : Turno) :
  t ∈ listarTurnos chatId now rows <->
  t ∈ rows /\ chat_id t = chatId /\
  sql_le (sql_datetime now) (sql_datetime (fecha_iso t)).
Proof.
  unfold listarTurnos. rewrite order_by_fecha_perm, list_elem_of_filter. tauto.
Qed.

(** Inserting takes an id above every id in the table and above every id
    the table ever held, so the key stays unique and a deleted id is never
    given out again. *)
Theorem agregarTurno_fresh_id (chatId fechaISO : Z) (descripcion : option string)
    (db : Db) :
  let i := fst (agregarTurno chatId fechaISO descripcion db) in
  let db' := snd (agregarTurno chatId fechaISO descripcion db) in
  Forall (fun t => id t < i) (db_rows db) /\
  sqlite_sequence db < i /\
  sqlite_sequence db' = i /\
  (NoDup (id <$> db_rows db) -> NoDup (id <$> db_rows db')) /\
  (forall c f d x y,
     fst (agregarTurno c f d
            (mkDb (snd (borrarTurno x y (db_rows db'))) (sqlite_sequence db'))) > i).
Proof.
  intros i db'. unfold i, db', agregarTurno; simpl.
  assert (Hmax : forall t, t ∈ db_rows db -> id t <= max_rowid (db_rows db))
    by (intros t; apply max_rowid_bound).
  split; [|split; [|split; [|split]]].
  - apply Forall_forall. intros t Ht. specialize (Hmax t Ht). lia.
  - lia.
  - reflexivity.
  - intros Hnd. rewrite fmap_app. apply NoDup_app. split; [exact Hnd|]. split.
    + intros z (t & -> & Ht)%list_elem_of_fmap Hin. simpl in Hin.
      apply list_elem_of_singleton in Hin. specialize (Hmax t Ht). lia.
    + simpl. apply NoDup_singleton.
  - intros c f d x y. lia.
Qed.

(** What a chat is shown: its own appointments only, those whose date the
    query can read and whose second has not passed, each once, in the order
    of their instants, and in the order of the table where instants are
    equal. With clock and instant in the years 0000 to 9999, every
    appointment of the chat that is not past is shown. *)
Theorem listarTurnos_spec (chatId now : Z) (rows : list Turno) :
  StronglySorted fecha_le (listarTurnos chatId now rows) /\
  listarTurnos chatId now rows ≡ₚ
    filter (fun t => chat_id t = chatId /\
                     sql_le (sql_datetime now) (sql_datetime (fecha_iso t))) rows /\
  (forall f, filter (fun t => fecha_iso t = f) (listarTurnos chatId now rows) =
             filter (fun t => fecha_iso t = f)
               (filter (fun t => chat_id t = chatId /\
                          sql_le (sql_datetime now) (sql_datetime (fecha_iso t))) rows)) /\
  (forall t, t ∈ listarTurnos chatId now rows <->
             t ∈ rows /\ chat_id t = chatId /\
             is_Some (sql_datetime now) /\ is_Some (sql_datetime (fecha_iso t)) /\
             now / 1000 <= fecha_iso t / 1000) /\
  Forall (fun t => chat_id t = chatId /\ now - 1000 < fecha_iso t /\
                   year_0000 <= fecha_iso t < year_10000)
    (listarTurnos chatId now rows) /\
  Forall (fun t => chat_id t = chatId -> now <= fecha_iso t ->
                   year_0000 <= now < year_10000 ->
                   year_0000 <= fecha_iso t < year_10000 ->
                   t ∈ listarTurnos chatId now rows) rows /\
  listarTurnos 7 0 [mkTurno 1 7 5000 None; mkTurno 2 7 1000 None;
                    mkTurno 3 7 5000 None; mkTurno 4 7 year_10000 None;
                    mkTurno 5 7 5000 None] =
    [mkTurno 2 7 1000 None; mkTurno 1 7 5000 None; mkTurno 3 7 5000 None;
     mkTurno 5 7 5000 None].
Proof.
  assert (Hin : forall t, t ∈ listarTurnos chatId now rows <->
             t ∈ rows /\ chat_id t = chatId /\
             is_Some (sql_datetime now) /\ is_Some (sql_datetime (fecha_iso t)) /\
             now / 1000 <= fecha_iso t / 1000).
  { intros t. rewrite listarTurnos_elem, sql_le_seconds. tauto. }
  split; [apply order_by_fecha_sorted|].
  split; [apply order_by_fecha_perm|].
  split; [intros f; apply order_by_fecha_ties|].
  split; [exact Hin|]. split; [|split; [|reflexivity]].
  - apply Forall_forall. intros t (_ & Hc & _ & Hd & Hs)%Hin.
    split; [exact Hc|]. split; [|apply sql_datetime_is_Some, Hd].
    destruct (Z.le_gt_cases (fecha_iso t) (now - 1000)) as [Hle|Hgt]; [|lia].
    exfalso. assert (fecha_iso t + 1000 <= now) as Hfar by lia.
    apply seconds_far in Hfar. lia.
  - apply Forall_forall. intros t Ht Hc Hn Hnow Hd. apply Hin.
    split; [exact Ht|]. split; [exact Hc|].
    split; [apply sql_datetime_is_Some, Hnow|].
    split; [apply sql_datetime_is_Some, Hd|]. apply seconds_le, Hn.
Qed.

(** Deleting answers whether a row with that id belonged to that chat,
    removes exactly such rows and leaves every other row, in place; with
    unique ids at most one row goes. *)
Theorem borrarTurno_spec (i chat : Z) (rows : list Turno) :
  (fst (borrarTurno i chat rows) = true <->
   exists t, t ∈ rows /\ id t = i /\ chat_id t = chat) /\
  (forall t, t ∈ snd (borrarTurno i chat rows) <->
             t ∈ rows /\ ~ (id t = i /\ chat_id t = chat)) /\
  snd (borrarTurno i chat rows) ⊆+ rows /\
  (fst (borrarTurno i chat rows) = false -> snd (borrarTurno i chat rows) = rows) /\
  (NoDup (id <$> rows) ->
   (length rows <= S (length (snd (borrarTurno i chat rows))))%nat /\
   NoDup (id <$> snd (borrarTurno i chat rows))).
Proof.
  unfold borrarTurno; simpl.
  split; [|split; [|split; [|split]]].
  - rewrite existsb_exists. split.
    + intros (t & Hin & Hb). apply bool_decide_eq_true in Hb as [? ?].
      exists t. rewrite list_elem_of_In. auto.
    + intros (t & Hin & Hi & Hc). exists t. rewrite <- list_elem_of_In.
      split; [exact Hin|]. apply bool_decide_eq_true. auto.
  - intros t. rewrite list_elem_of_filter. tauto.
  - apply sublist_submseteq, sublist_filter.
  - intros Hf. induction rows as [|x rows IH]; [reflexivity|].
    simpl in Hf. apply orb_false_iff in Hf as [Hx Hr].
    apply bool_decide_eq_false in Hx.
    rewrite filter_cons_True by exact Hx. f_equal. apply IH, Hr.
  - intros Hnd. split; [|apply NoDup_fmap_filter, Hnd].
    induction rows as [|x rows IH]; [simpl; lia|].
    rewrite fmap_cons in Hnd. apply NoDup_cons in Hnd as [Hx Hnd].
    rewrite filter_cons. case_decide as Hd.
    + simpl. specialize (IH Hnd). lia.
    + destruct Hd as [Hi Hc].
      rewrite filter_all.
      * simpl. lia.
      * intros t Ht [Hti _]. apply Hx. rewrite Hi, <- Hti.
        apply list_elem_of_fmap_2, Ht.
Qed.

End Table.

(** ** Inline keyboards *)

Local Open Scope list_scope.

Section Calendar.

Variable startDate : Z.

Local Abbreviation grid_after n :=
  (foldl (fun rows i => calendar_push (i / 7)%nat (day_button startDate i) rows)
         [] (seq 0 n)).

Lemma calendar_push_new (b : Button) (rows : list (list Button)) :
  calendar_push (length rows) b (Some <$> rows) = Some <$> (rows ++ [[b]]).
Proof.
  unfold calendar_push, array_set.
  rewrite (lookup_ge_None_2 (Some <$> rows)) by (rewrite length_fmap; lia).
  rewrite length_fmap, decide_False by lia.
  rewrite Nat.sub_diag. simpl.
  replace (length rows) with (length (Some <$> rows) + 0)%nat at 1
    by (rewrite length_fmap; lia).
  rewrite alter_app_r, fmap_app. reflexivity.
Qed.

Lemma calendar_push_last (b : Button) (init : list (list Button)) (row : list Button) :
  calendar_push (length init) b (Some <$> (init ++ [row])) =
  Some <$> (init ++ [row ++ [b]]).
Proof.
  unfold calendar_push. rewrite !fmap_app. simpl.
  rewrite list_lookup_middle by (rewrite length_fmap; reflexivity).
  replace (length init) with (length (Some <$> init) + 0)%nat at 1
    by (rewrite length_fmap; lia).
  rewrite alter_app_r. reflexivity.
Qed.

Lemma calendar_rows (n : nat) :
  exists rows : list (list Button),
    grid_after n = Some <$> rows /\
    concat rows = day_button startDate <$> seq 0 n /\
    length rows = ((n + 6) / 7)%nat /\
    forall w row, rows !! w = Some row -> length row = (7 `min` (n - 7 * w))%nat.
Proof.
  induction n as [|n (rows & Hg & Hc & Hl & Hr)].
  { exists []. repeat split. intros w row H. discriminate H. }
  rewrite seq_S, foldl_app. cbn [foldl Nat.add]. rewrite Hg.
  pose proof (Nat.div_mod_eq n 7) as Hn.
  pose proof (Nat.mod_upper_bound n 7 ltac:(lia)) as Hm.
  pose proof (Nat.div_mod_eq (n + 6) 7) as Hn6.
  pose proof (Nat.mod_upper_bound (n + 6) 7 ltac:(lia)) as Hm6.
  pose proof (Nat.div_mod_eq (S (n + 6)) 7) as Hs6.
  pose proof (Nat.mod_upper_bound (S (n + 6)) 7 ltac:(lia)) as Hsm6.
  change (S n + 6)%nat with (S (n + 6)).
  destruct (decide (n mod 7 = 0)%nat) as [Hz|Hnz].
  - assert (Hq : (n / 7)%nat = length rows) by lia.
    rewrite Hq, calendar_push_new.
    exists (rows ++ [[day_button startDate n]]).
    split; [reflexivity|]. split; [|split].
    + rewrite concat_app, Hc, fmap_app. simpl. reflexivity.
    + rewrite length_app. cbn [length]. lia.
    + intros w row [Hw|[Hge Hw]]%lookup_app_Some.
      * pose proof (lookup_lt_Some _ _ _ Hw). rewrite (Hr w row Hw). lia.
      * destruct (w - length rows)%nat eqn:E; simpl in Hw; [|
          rewrite lookup_nil in Hw; discriminate Hw].
        injection Hw as <-. cbn [length]. lia.
  - assert (Hq : length rows = S (n / 7)) by lia.
    destruct rows as [|row init _] using rev_ind; [discriminate Hq|].
    rewrite length_app in Hq, Hl. cbn [length] in Hq, Hl.
    assert (Hi : (n / 7)%nat = length init) by lia.
    rewrite Hi, calendar_push_last.
    pose proof (Hr (length init) row (list_lookup_middle _ _ _ _ eq_refl)) as Hrow.
    exists (init ++ [row ++ [day_button startDate n]]).
    split; [reflexivity|]. split; [|split].
    + rewrite concat_app in Hc |- *. simpl in Hc |- *.
      rewrite app_nil_r in Hc |- *. rewrite app_assoc, Hc, fmap_app. reflexivity.
    + rewrite length_app. cbn [length]. lia.
    + intros w row' [Hw|[Hge Hw]]%lookup_app_Some.
      * pose proof (lookup_lt_Some _ _ _ Hw).
        rewrite (Hr w row' (lookup_app_l_Some _ _ _ _ Hw)). lia.
      * destruct (w - length init)%nat eqn:E; simpl in Hw; [|
          rewrite lookup_nil in Hw; discriminate Hw].
        injection Hw as <-. rewrite length_app, Hrow. cbn [length]. lia.
Qed.

End Calendar.

(** The calendar keyboard has no holes and no empty row: its rows are the
    days from the start date on, in order and each once, in weeks of seven
    with the remainder, if any, in the last row; every button carries its
    day in the callback data. The calendar of 37 days that [/turno] sends
    has six rows, the last with two days. *)
Theorem calendarKeyboard_layout (startDate : Z) (days : nat) :
  exists rows : list (list Button),
    calendarKeyboard startDate days = Some <$> rows /\
    concat rows = day_button startDate <$> seq 0 days /\
    length rows = ((days + 6) / 7)%nat /\
    (forall w row, rows !! w = Some row ->
       length row = (7 `min` (days - 7 * w))%nat /\ (1 <= length row <= 7)%nat) /\
    (days = 37%nat -> length <$> rows = [7; 7; 7; 7; 7; 2]%nat).
Proof.
  destruct (calendar_rows startDate days) as (rows & Hg & Hc & Hl & Hr).
  exists rows. split; [exact Hg|]. split; [exact Hc|]. split; [exact Hl|]. split.
  - intros w row Hw. pose proof (Hr w row Hw) as Hlen. split; [exact Hlen|].
    pose proof (lookup_lt_Some _ _ _ Hw) as Hlt. rewrite Hl in Hlt.
    pose proof (Nat.div_mod_eq (days + 6) 7).
    pose proof (Nat.mod_upper_bound (days + 6) 7 ltac:(lia)). lia.
  - intros ->. change ((37 + 6) / 7)%nat with 6%nat in Hl.
    do 7 (destruct rows as [|? rows]; try discriminate Hl).
    simpl. repeat f_equal;
      match goal with
      | |- length ?r = _ =>
          first [ rewrite (proj1 (conj (Hr 0%nat r eq_refl) I)); reflexivity
                | rewrite (proj1 (conj (Hr 1%nat r eq_refl) I)); reflexivity
                | rewrite (proj1 (conj (Hr 2%nat r eq_refl) I)); reflexivity
                | rewrite (proj1 (conj (Hr 3%nat r eq_refl) I)); reflexivity
                | rewrite (proj1 (conj (Hr 4%nat r eq_refl) I)); reflexivity
                | rewrite (proj1 (conj (Hr 5%nat r eq_refl) I)); reflexivity ]
      end.
Qed.

(** The hours keyboard: the slicing loop ends by itself and returns the 26
    half-hour slots from 07:00 to 19:30 in order, each once, four to a row
    with two in the last of its seven rows; a button shows its slot and
    carries the date and the slot in its callback data. *)
Theorem hoursKeyboard_layout (dateISO : string) :
  exists rows : list (list Button),
    hoursKeyboard dateISO = Some rows /\
    concat rows = hour_button dateISO <$> hour_slots /\
    length <$> rows = [4; 4; 4; 4; 4; 4; 2]%nat /\
    hour_slots =
      ["07:00"; "07:30"; "08:00"; "08:30"; "09:00"; "09:30"; "10:00"; "10:30";
       "11:00"; "11:30"; "12:00"; "12:30"; "13:00"; "13:30"; "14:00"; "14:30";
       "15:00"; "15:30"; "16:00"; "16:30"; "17:00"; "17:30"; "18:00"; "18:30";
       "19:00"; "19:30"] /\
    Forall (fun b => callback_data b = "pickHour_" +:+ dateISO +:+ "_" +:+ btn_text b)
           (concat rows).
Proof.
  eexists. split; [vm_compute; reflexivity|].
  split; [vm_compute; reflexivity|]. split; [reflexivity|].
  split; [vm_compute; reflexivity|].
  simpl. repeat (apply Forall_cons; split; [reflexivity|]). apply Forall_nil. trivial.
Qed.

(** ** Reading callback data *)

Section Splitting.

Variable sep : ascii.

Lemma split_whole (s : string) : has_char sep s = false -> split sep s = [s].
Proof.
  induction s as [|c s IH]; [reflexivity|]. simpl.
  intros [Hc Hs]%orb_false_iff. apply bool_decide_eq_false in Hc.
  rewrite decide_False by exact Hc. rewrite (IH Hs). reflexivity.
Qed.

Lemma split_at_first (a b : string) :
  has_char sep a = false -> split sep (a +:+ String sep b) = a :: split sep b.
Proof.
  induction a as [|c a IH]; simpl.
  - intros _. change ("" +:+ String sep b) with (String sep b). simpl.
    rewrite decide_True by reflexivity. reflexivity.
  - intros [Hc Ha]%orb_false_iff. apply bool_decide_eq_false in Hc.
    change (String c a +:+ String sep b) with (String c (a +:+ String sep b)).
    simpl. rewrite decide_False by exact Hc. rewrite (IH Ha). reflexivity.
Qed.

End Splitting.

Lemma prefix_drop (p s : string) :
  String.prefix p s = true -> s = p +:+ string_drop (String.length p) s.
Proof.
  revert s; induction p as [|c p IH]; intros s; [reflexivity|].
  destruct s as [|x s]; [discriminate|]. simpl.
  destruct (ascii_dec c x) as [->|]; [|discriminate].
  intros H. change (String x p +:+ string_drop (String.length p) s)
    with (String x (p +:+ string_drop (String.length p) s)).
  f_equal. apply IH, H.
Qed.

Lemma prefix_app (p x : string) : String.prefix p (p +:+ x) = true.
Proof.
  induction p as [|c p IH]; [destruct x; reflexivity|].
  change (String c p +:+ x) with (String c (p +:+ x)). simpl.
  destruct (ascii_dec c c); [exact IH|congruence].
Qed.

Lemma string_drop_app (p x : string) : string_drop (String.length p) (p +:+ x) = x.
Proof. induction p as [|c p IH]; [destruct x; reflexivity|exact IH]. Qed.

Lemma pickDay_date_written (d : string) : pickDay_date ("pickDay_" +:+ d) = Some d.
Proof.
  unfold pickDay_date. rewrite prefix_app. f_equal.
  change ("pickDay_" +:+ d) with (String "p" ("ickDay_" +:+ d)).
  unfold replace_first; fold replace_first.
  change (String "p" ("ickDay_" +:+ d)) with ("pickDay_" +:+ d).
  rewrite prefix_app, string_drop_app. reflexivity.
Qed.

Lemma has_char_app (c : ascii) (a b : string) :
  has_char c (a +:+ b) = has_char c a || has_char c b.
Proof.
  induction a as [|x a IH]; [reflexivity|].
  change (String x a +:+ b) with (String x (a +:+ b)). simpl.
  rewrite IH, orb_assoc. reflexivity.
Qed.

Lemma has_char_uint (c : ascii) (d : uint) :
  is_digit c = false -> has_char c (NilEmpty.string_of_uint d) = false.
Proof.
  intros Hc. induction d; simpl; rewrite ?IHd; try reflexivity;
    rewrite orb_false_r; apply bool_decide_eq_false; intros <-; discriminate Hc.
Qed.

Lemma has_char_Number (c : ascii) (n : Z) :
  is_digit c = false -> c <> "-"%char -> has_char c (Number_toString n) = false.
Proof.
  intros Hc Hm. unfold Number_toString.
  destruct (Z.to_int n) as [d|d]; simpl; [apply has_char_uint, Hc|].
  rewrite has_char_uint by exact Hc. rewrite orb_false_r.
  apply bool_decide_eq_false. congruence.
Qed.

Lemma has_char_zeros (c : ascii) (n : nat) :
  c <> "0"%char -> has_char c (zeros n) = false.
Proof.
  intros Hc. induction n as [|n IH]; [reflexivity|]. simpl. rewrite IH, orb_false_r.
  apply bool_decide_eq_false. congruence.
Qed.

Lemma has_char_padStart (c : ascii) (n : nat) (s : string) :
  c <> "0"%char -> has_char c s = false -> has_char c (padStart n s) = false.
Proof.
  intros Hc Hs. unfold padStart. rewrite has_char_app, has_char_zeros, Hs by exact Hc.
  reflexivity.
Qed.

Lemma has_char_pad2 (c : ascii) (n : Z) :
  is_digit c = false -> c <> "-"%char -> has_char c (pad2 n) = false.
Proof.
  intros Hc Hm. apply has_char_padStart; [intros ->; discriminate Hc|].
  apply has_char_Number; assumption.
Qed.

Lemma has_char_luxon_padStart (c : ascii) (n : Z) (k : nat) :
  is_digit c = false -> c <> "-"%char -> has_char c (luxon_padStart n k) = false.
Proof.
  intros Hc Hm. unfold luxon_padStart.
  assert (Hp : forall x, has_char c (padStart k (Number_toString x)) = false).
  { intros x. apply has_char_padStart; [intros ->; discriminate Hc|].
    apply has_char_Number; assumption. }
  destruct (n <? 0); [|apply Hp].
  change ("-" +:+ padStart k (Number_toString (- n)))
    with (String "-" (padStart k (Number_toString (- n)))).
  simpl. rewrite Hp, orb_false_r. apply bool_decide_eq_false. congruence.
Qed.

Lemma toISODate_no_underscore (day : Z) : has_char "_" (toISODate day) = false.
Proof.
  unfold toISODate. destruct (civil_from_days day) as [[y m] d]. cbv zeta.
  rewrite !has_char_app, has_char_luxon_padStart, !has_char_pad2
    by (reflexivity || discriminate).
  destruct (_ && _); reflexivity.
Qed.

Lemma hour_slots_no_underscore (h : string) :
  h ∈ hour_slots -> has_char "_" h = false.
Proof.
  intros Hin. assert (Hall : Forall (fun h => has_char "_" h = false) hour_slots)
    by (vm_compute; repeat constructor).
  rewrite Forall_forall in Hall. apply Hall, Hin.
Qed.

Lemma pickHour_fields_written (dateISO h : string) :
  has_char "_" dateISO = false -> has_char "_" h = false ->
  pickHour_fields (callback_data (hour_button dateISO h)) =
    Some (Some dateISO, Some h).
Proof.
  intros Hd Hh. unfold pickHour_fields.
  change (callback_data (hour_button dateISO h))
    with ("pickHour_" +:+ (dateISO +:+ "_" +:+ h)) at 1.
  rewrite prefix_app.
  change (callback_data (hour_button dateISO h))
    with ("pickHour" +:+ String "_" (dateISO +:+ String "_" h)).
  rewrite (split_at_first "_" "pickHour") by reflexivity.
  rewrite (split_at_first "_" dateISO) by exact Hd.
  rewrite split_whole by exact Hh. reflexivity.
Qed.

(** The hours keyboard and the callback handler agree on the callback data:
    the data of an hour button passes the [pickHour_] test and not the
    [pickDay_] test, and splitting it at the underscores gives back the
    date and the slot, provided neither contains an underscore. *)
Theorem pickHour_round_trip (dateISO h : string) :
  has_char "_" dateISO = false -> has_char "_" h = false ->
  split "_" (callback_data (hour_button dateISO h)) = ["pickHour"; dateISO; h] /\
  pickHour_fields (callback_data (hour_button dateISO h)) =
    Some (Some dateISO, Some h) /\
  pickDay_date (callback_data (hour_button dateISO h)) = None.
Proof.
  intros Hd Hh.
  assert (Hsplit : split "_" (callback_data (hour_button dateISO h)) =
                   ["pickHour"; dateISO; h]).
  { change (callback_data (hour_button dateISO h))
      with ("pickHour" +:+ String "_" (dateISO +:+ String "_" h)).
    rewrite (split_at_first "_" "pickHour") by reflexivity.
    rewrite (split_at_first "_" dateISO) by exact Hd.
    rewrite split_whole by exact Hh. reflexivity. }
  split; [exact Hsplit|]. split; [|reflexivity].
  apply pickHour_fields_written; assumption.
Qed.

(** The whole path from the calendar to a booking request: the data of a
    day button is read by the [pickDay_] branch, and only by it, as the ISO
    date of its day; the hours keyboard made for that date carries it in
    every button, and the [pickHour_] branch reads the date and the slot
    back from each of them. A date with an underscore in it would not be
    read back: the split takes it apart. *)
Theorem calendar_to_booking_data (startDate : Z) (i : nat) :
  pickDay_date (callback_data (day_button startDate i)) =
    Some (toISODate (startDate + Z.of_nat i)) /\
  pickHour_fields (callback_data (day_button startDate i)) = None /\
  Forall (fun slot =>
            pickHour_fields
              (callback_data (hour_button (toISODate (startDate + Z.of_nat i)) slot)) =
            Some (Some (toISODate (startDate + Z.of_nat i)), Some slot))
         hour_slots /\
  pickHour_fields (callback_data (hour_button "2026_01_01" "07:00")) =
    Some (Some "2026", Some "01").
Proof.
  split; [apply pickDay_date_written|]. split; [reflexivity|]. split; [|reflexivity].
  apply Forall_forall. intros slot Hslot.
  apply pickHour_fields_written;
    [apply toISODate_no_underscore|apply hour_slots_no_underscore, Hslot].
Qed.

(** ** Reading commands *)

Lemma handlers_for_values (msg : string) (a b c d : bool) :
  handler_matches OnStart msg = a -> handler_matches OnTurnos msg = b ->
  handler_matches OnBorrar msg = c -> handler_matches OnTurno msg = d ->
  handlers_for msg =
    (if a then [OnStart] else []) ++ (if b then [OnTurnos] else []) ++
    (if c then [OnBorrar] else []) ++ (if d then [OnTurno] else []).
Proof.
  intros Ha Hb Hc Hd. unfold handlers_for.
  rewrite !filter_cons, filter_nil, Ha, Hb, Hc, Hd.
  destruct a, b, c, d; reflexivity.
Qed.

Lemma match_borrar_prefix (msg digits : string) :
  match_borrar msg = Some digits ->
  msg = "/borrar " +:+ digits /\ digits <> "" /\ all_digits digits = true.
Proof.
  unfold match_borrar. cbv zeta.
  pose proof (prefix_drop "/borrar " msg) as Hpre.
  change (String.length "/borrar ") with 8%nat in Hpre.
  generalize dependent (string_drop 8 msg). intros rest Hpre.
  destruct (String.prefix "/borrar " msg) eqn:Hp; [|discriminate].
  destruct (String.eqb rest "") eqn:He; [discriminate|].
  destruct (all_digits rest) eqn:Ha; [|discriminate].
  intros [= <-]. split; [exact (Hpre eq_refl)|]. split; [|exact Ha].
  apply String.eqb_neq, He.
Qed.

Lemma one_handler (msg : string) (h : Handler) :
  handler_matches h msg = true -> handlers_for msg = [h].
Proof.
  destruct h; simpl; intros H.
  - apply String.eqb_eq in H. subst msg. reflexivity.
  - apply String.eqb_eq in H. subst msg. reflexivity.
  - apply bool_decide_eq_true in H. destruct H as [digits Hd].
    pose proof (match_borrar_prefix msg digits Hd) as (-> & _ & _).
    apply (handlers_for_values _ false false true false); try reflexivity.
    simpl. apply bool_decide_eq_true. eauto.
  - apply String.eqb_eq in H. subst msg. reflexivity.
Qed.

(** A text runs at most one of the four command callbacks, the one whose
    pattern it matches: the anchors keep [/turno] and [/turnos] apart, and
    [/borrar] needs a space and at least one digit, and nothing after the
    digits. *)
Theorem one_handler_per_text (msg : string) :
  (length (handlers_for msg) <= 1)%nat /\
  (forall h, handler_matches h msg = true <-> handlers_for msg = [h]) /\
  (handlers_for msg = [] <-> forall h, handler_matches h msg = false).
Proof.
  assert (Hcases : (exists h, handler_matches h msg = true) \/
                   (forall h, handler_matches h msg = false)).
  { destruct (handler_matches OnStart msg) eqn:H1; [left; eauto|].
    destruct (handler_matches OnTurnos msg) eqn:H2; [left; eauto|].
    destruct (handler_matches OnBorrar msg) eqn:H3; [left; eauto|].
    destruct (handler_matches OnTurno msg) eqn:H4; [left; eauto|].
    right. intros []; assumption. }
  assert (Hnone : (forall h, handler_matches h msg = false) -> handlers_for msg = []).
  { intros Hno. rewrite (handlers_for_values msg false false false false);
      [reflexivity|apply Hno..]. }
  split; [|split].
  - destruct Hcases as [[h Hh]|Hno].
    + rewrite (one_handler msg h Hh). simpl. lia.
    + rewrite (Hnone Hno). simpl. lia.
  - intros h. split; [apply one_handler|].
    intros Hh. destruct Hcases as [[h' Hh']|Hno].
    + rewrite (one_handler msg h' Hh') in Hh. injection Hh as ->. exact Hh'.
    + rewrite (Hnone Hno) in Hh. discriminate Hh.
  - split; [|exact Hnone].
    intros Hempty h. destruct (handler_matches h msg) eqn:Hh; [|reflexivity].
    rewrite (one_handler msg h Hh) in Hempty. discriminate Hempty.
Qed.

Lemma all_digits_uint (d : uint) : all_digits (NilEmpty.string_of_uint d) = true.
Proof. induction d; simpl; auto. Qed.

Lemma Number_toString_nonneg (i : Z) :
  0 <= i ->
  exists d, d <> Nil /\ Number_toString i = NilEmpty.string_of_uint d /\
            Z.of_uint d = i.
Proof.
  intros Hi. unfold Number_toString. pose proof (DecimalZ.of_to i) as Hof.
  destruct i as [|p|p]; [| |lia].
  - exists (D0 Nil). repeat split. discriminate.
  - exists (Pos.to_uint p). split; [apply Unsigned.to_uint_nonnil|].
    split; [reflexivity|exact Hof].
Qed.

Lemma shown_id_parses (i : Z) :
  0 <= i <= 2 ^ 53 ->
  match_borrar ("/borrar " +:+ Number_toString i) = Some (Number_toString i) /\
  Number_of_digits (Number_toString i) = Exact i /\
  handlers_for ("/borrar " +:+ Number_toString i) = [OnBorrar].
Proof.
  intros [Hlo Hhi].
  destruct (Number_toString_nonneg i Hlo) as (d & Hnil & Hs & Hv).
  assert (Hm : match_borrar ("/borrar " +:+ Number_toString i) =
               Some (Number_toString i)).
  { unfold match_borrar. rewrite prefix_app.
    change 8%nat with (String.length "/borrar "). rewrite string_drop_app.
    rewrite Hs, all_digits_uint.
    destruct (NilEmpty.string_of_uint d) eqn:E; [|reflexivity].
    destruct d; simpl in E; congruence. }
  split; [exact Hm|]. split.
  - unfold Number_of_digits. rewrite Hs, NilEmpty.usu, Hv.
    destruct (Z.leb_spec i (2 ^ 53)); [reflexivity|lia].
  - apply (handlers_for_values _ false false true false); try reflexivity.
    simpl. apply bool_decide_eq_true. rewrite Hm. eauto.
Qed.

(** The id that the bot shows for an appointment can be typed back: for an
    id within the exact range of a JS number, the text [/borrar ID] made of
    its decimal rendering matches the delete pattern and no other, the
    captured digits convert to the same id, and what the bot then does is
    the deletion of that id for the sending chat. *)
Theorem borrar_reads_shown_id (i : Z) :
  0 <= i <= 2 ^ 53 ->
  match_borrar ("/borrar " +:+ Number_toString i) = Some (Number_toString i) /\
  Number_of_digits (Number_toString i) = Exact i /\
  handlers_for ("/borrar " +:+ Number_toString i) = [OnBorrar] /\
  forall TZ ok chat b,
    bot_step TZ (Text ok chat ("/borrar " +:+ Number_toString i)) b =
    Some (with_world (cmd_borrar ok chat i) b).
Proof.
  intros Hi. destruct (shown_id_parses i Hi) as (Hm & Hn & Hh).
  split; [exact Hm|]. split; [exact Hn|]. split; [exact Hh|].
  intros TZ ok chat b. simpl. rewrite Hh. simpl. rewrite Hm. simpl.
  rewrite Hn. reflexivity.
Qed.

(** ** What a formatted instant says *)

Lemma year_of_era (doe : Z) :
  0 <= doe < 146097 ->
  let yoe := (doe - doe / 1460 + doe / 36524 - doe / 146096) / 365 in
  0 <= yoe <= 399 /\ 0 <= doe - (365 * yoe + yoe / 4 - yoe / 100) <= 365.
Proof. intros H. cbv zeta. Z.to_euclidean_division_equations; lia. Qed.

Lemma month_and_day (doy : Z) :
  0 <= doy <= 365 ->
  let mp := (5 * doy + 2) / 153 in
  0 <= mp <= 11 /\ 1 <= doy - (153 * mp + 2) / 5 + 1 <= 31.
Proof. intros H. cbv zeta. Z.to_euclidean_division_equations; lia. Qed.

(** The date that [civil_from_days] gives a day number is a date of the
    calendar, and it is the date of that day. *)
Lemma civil_from_days_spec (z : Z) :
  exists y m d,
    civil_from_days z = (y, m, d) /\ 1 <= m <= 12 /\ 1 <= d <= 31 /\
    days_from_civil y m d = z.
Proof.
  unfold civil_from_days. cbv zeta.
  set (era := (z + 719468) / 146097).
  set (doe := z + 719468 - era * 146097).
  assert (Hdoe : 0 <= doe < 146097)
    by (unfold doe, era; Z.to_euclidean_division_equations; lia).
  pose proof (year_of_era doe Hdoe) as Hy. cbv zeta in Hy.
  set (yoe := (doe - doe / 1460 + doe / 36524 - doe / 146096) / 365) in *.
  destruct Hy as [Hyoe Hdoy].
  set (doy := doe - (365 * yoe + yoe / 4 - yoe / 100)) in *.
  pose proof (month_and_day doy Hdoy) as Hm. cbv zeta in Hm.
  set (mp := (5 * doy + 2) / 153) in *.
  destruct Hm as [Hmp Hd].
  eexists _, _, _. split; [reflexivity|].
  assert (Hmonth : 1 <= (if mp <? 10 then mp + 3 else mp - 9) <= 12)
    by (destruct (Z.ltb_spec mp 10); lia).
  split; [exact Hmonth|]. split; [exact Hd|].
  unfold days_from_civil. cbv zeta.
  destruct (Z.ltb_spec mp 10) as [Hlt|Hge].
  - destruct (Z.leb_spec (mp + 3) 2); [lia|].
    destruct (Z.ltb_spec 2 (mp + 3)); [|lia].
    replace ((yoe + era * 400) / 400) with era
      by (Z.to_euclidean_division_equations; lia).
    replace (yoe + era * 400 - era * 400) with yoe by lia.
    replace (mp + 3 - 3) with mp by lia.
    unfold doy, doe. lia.
  - destruct (Z.leb_spec (mp - 9) 2); [|lia].
    destruct (Z.ltb_spec 2 (mp - 9)); [lia|].
    replace ((yoe + era * 400 + 1 - 1) / 400) with era
      by (Z.to_euclidean_division_equations; lia).
    replace (yoe + era * 400 + 1 - 1 - era * 400) with yoe by lia.
    replace (mp - 9 + 9) with mp by lia.
    unfold doy, doe. lia.
Qed.

(** Reading decimal numbers back. *)
Lemma uint_of_string_zeros (n : nat) (s : string) (d : uint) :
  NilEmpty.uint_of_string s = Some d ->
  exists d', NilEmpty.uint_of_string (zeros n +:+ s) = Some d' /\
             Z.of_uint d' = Z.of_uint d.
Proof.
  intros Hs. induction n as [|n (d' & Hd' & Hv)]; [exists d; auto|].
  exists (D0 d'). split; [|exact Hv].
  change (zeros (S n) +:+ s) with (String "0" (zeros n +:+ s)).
  simpl. rewrite Hd'. reflexivity.
Qed.

Lemma int_of_uint_string (s : string) (d : uint) :
  NilEmpty.uint_of_string s = Some d -> NilEmpty.int_of_string s = Some (Pos d).
Proof.
  destruct s as [|a s]; simpl; [intros [= <-]; reflexivity|].
  destruct (Ascii.eqb_spec a "-") as [->|Hne].
  - destruct (NilEmpty.uint_of_string s); discriminate.
  - intros ->. reflexivity.
Qed.

Lemma read_number_padStart (k : nat) (n : Z) :
  0 <= n -> read_number (padStart k (Number_toString n)) = Some n.
Proof.
  intros Hn. destruct (Number_toString_nonneg n Hn) as (d & _ & Hs & Hv).
  unfold padStart. rewrite Hs.
  destruct (uint_of_string_zeros (k - String.length (NilEmpty.string_of_uint d))
              (NilEmpty.string_of_uint d) d (NilEmpty.usu d)) as (d' & Hd' & Hv').
  unfold read_number. rewrite (int_of_uint_string _ _ Hd'). simpl.
  rewrite Hv', Hv. reflexivity.
Qed.

Lemma read_number_pad2 (n : Z) : 0 <= n -> read_number (pad2 n) = Some n.
Proof. apply read_number_padStart. Qed.

Lemma read_number_luxon_padStart (k : nat) (n : Z) :
  read_number (luxon_padStart n k) = Some n.
Proof.
  unfold luxon_padStart. destruct (Z.ltb_spec n 0) as [Hneg|Hpos];
    [|apply read_number_padStart, Hpos].
  destruct (Number_toString_nonneg (- n) ltac:(lia)) as (d & _ & Hs & Hv).
  unfold padStart. rewrite Hs.
  destruct (uint_of_string_zeros (k - String.length (NilEmpty.string_of_uint d))
              (NilEmpty.string_of_uint d) d (NilEmpty.usu d)) as (d' & Hd' & Hv').
  unfold read_number.
  change ("-" +:+ ?x) with (String "-" x). simpl. rewrite Hd'. simpl.
  rewrite Hv', Hv. f_equal. lia.
Qed.

(** The fields of a text written in the shape [dd/LL/yyyy HH:mm]. *)
Lemma read_fecha_written (y m d H M : Z) :
  0 <= m -> 0 <= d -> 0 <= H -> 0 <= M ->
  read_fecha (pad2 d +:+ "/" +:+ pad2 m +:+ "/" +:+ luxon_padStart y 4 +:+ " " +:+
              pad2 H +:+ ":" +:+ pad2 M) = Some (y, m, d, H, M).
Proof.
  intros Hm Hd HH HM. unfold read_fecha.
  change (pad2 d +:+ "/" +:+ pad2 m +:+ "/" +:+ luxon_padStart y 4 +:+ " " +:+
          pad2 H +:+ ":" +:+ pad2 M)
    with (pad2 d +:+ String "/" (pad2 m +:+ String "/"
            (luxon_padStart y 4 +:+ String " " (pad2 H +:+ String ":" (pad2 M))))).
  rewrite (split_at_first "/" (pad2 d))
    by (apply has_char_pad2; [reflexivity|discriminate]).
  rewrite (split_at_first "/" (pad2 m))
    by (apply has_char_pad2; [reflexivity|discriminate]).
  rewrite (split_whole "/")
    by (rewrite has_char_app, has_char_luxon_padStart by (reflexivity || discriminate);
        change (String " " ?x) with (" " +:+ x);
        change (String ":" ?x) with (":" +:+ x);
        rewrite !has_char_app, !has_char_pad2 by (reflexivity || discriminate);
        reflexivity).
  rewrite (split_at_first " " (luxon_padStart y 4))
    by (apply has_char_luxon_padStart; [reflexivity|discriminate]).
  rewrite (split_whole " ")
    by (change (String ":" ?x) with (":" +:+ x);
        rewrite !has_char_app, !has_char_pad2 by (reflexivity || discriminate);
        reflexivity).
  rewrite (split_at_first ":" (pad2 H))
    by (apply has_char_pad2; [reflexivity|discriminate]).
  rewrite (split_whole ":") by (apply has_char_pad2; [reflexivity|discriminate]).
  rewrite read_number_luxon_padStart, !read_number_pad2 by assumption.
  reflexivity.
Qed.

Lemma length_app_string (a b : string) :
  String.length (a +:+ b) = (String.length a + String.length b)%nat.
Proof.
  induction a as [|c a IH]; [reflexivity|].
  change (String c a +:+ b) with (String c (a +:+ b)). simpl. rewrite IH. reflexivity.
Qed.

Lemma pad2_length (n : Z) : 0 <= n <= 99 -> String.length (pad2 n) = 2%nat.
Proof.
  intros Hn.
  assert (Hall : Forall (fun x => String.length (pad2 x) = 2%nat) (seqZ 0 100))
    by (apply Forall_forall; intros x Hx; revert x Hx; apply Forall_forall;
        vm_compute; repeat constructor).
  rewrite Forall_forall in Hall. apply Hall, elem_of_seqZ. lia.
Qed.

Lemma yyyy_length (y : Z) :
  0 <= y <= 9999 -> String.length (luxon_padStart y 4) = 4%nat.
Proof.
  intros Hy.
  assert (Hall : forallb (fun x => Nat.eqb (String.length (luxon_padStart x 4)) 4)
                   (seqZ 0 10000) = true) by (vm_compute; reflexivity).
  rewrite forallb_forall in Hall. apply Nat.eqb_eq, Hall.
  apply list_elem_of_In, elem_of_seqZ. lia.
Qed.

(** What [toFormat_local] writes: the date and the time of day that a
    clock of the zone shows at the instant, to the minute, each field in
    decimal digits; in the years 0 to 9999 the text has 16 characters. *)
Lemma toFormat_local_fields (zone : Zone) (dt : Z) :
  exists y m d H M,
    toFormat_local zone dt =
      pad2 d +:+ "/" +:+ pad2 m +:+ "/" +:+ luxon_padStart y 4 +:+ " " +:+
      pad2 H +:+ ":" +:+ pad2 M /\
    read_fecha (toFormat_local zone dt) = Some (y, m, d, H, M) /\
    1 <= m <= 12 /\ 1 <= d <= 31 /\ 0 <= H < 24 /\ 0 <= M < 60 /\
    minute_of_fields (y, m, d, H, M) = (dt + offset zone dt * 60000) / 60000 /\
    (0 <= y <= 9999 -> String.length (toFormat_local zone dt) = 16%nat).
Proof.
  unfold toFormat_local. cbv zeta.
  set (loc := dt + offset zone dt * 60000).
  destruct (civil_from_days_spec (loc / 86400000)) as (y & m & d & -> & Hm & Hd & Hday).
  set (H := loc mod 86400000 / 3600000).
  set (M := loc mod 86400000 mod 3600000 / 60000).
  assert (HH : 0 <= H < 24) by (unfold H; Z.to_euclidean_division_equations; lia).
  assert (HM : 0 <= M < 60) by (unfold M; Z.to_euclidean_division_equations; lia).
  exists y, m, d, H, M.
  split; [reflexivity|].
  split; [apply read_fecha_written; lia|].
  split; [exact Hm|]. split; [exact Hd|]. split; [exact HH|]. split; [exact HM|].
  split.
  - unfold minute_of_fields. rewrite Hday. unfold H, M.
    Z.to_euclidean_division_equations; lia.
  - intros Hy. rewrite !length_app_string, !pad2_length, yyyy_length by lia.
    reflexivity.
Qed.

Example days_from_civil_sample :
  days_from_civil 1970 1 1 = 0 /\ days_from_civil 2000 2 29 = 11016 /\
  days_from_civil 2025 12 31 = 20453.
Proof. repeat split; reflexivity. Qed.

Example padStart_sample :
  padStart 4 "5" = "0005" /\ luxon_padStart (-5) 4 = "-0005" /\
  luxon_padStart 12345 4 = "12345".
Proof. repeat split; reflexivity. Qed.

(** C6. Once the clock has reached the trigger instant of a pending job,
    its callback runs: it makes one call of the Dispatcher, to the
    appointment's chat, with a text made of the offset's label, the target
    instant formatted in the configured time zone and the description, and
    then deletes the job's key from the registry, where a lookup of that
    key now finds nothing; other keys are untouched. The formatted instant
    reads as the date, hour and minute that a clock of the zone shows at
    the target instant; the description is the stored one, and empty when
    none is stored. *)
Theorem C6_firing_sends_and_removes (TZ : Zone) (ok : bool) (h : nat) (j : Job)
    (w : World) :
  timers w !! h = Some j -> job_state j = Scheduled -> job_when j <= clock w ->
  exists w' msg fecha desc,
    fire TZ ok h w = Some w' /\
    outbox w' = outbox w ++ [mkDelivery (chat_id (job_turno j)) msg ok] /\
    msg = "⏰ Recordatorio (" +:+ label (job_reminder j) +:+ " antes): " +:+
          fecha +:+ " " +:+ desc /\
    fecha = toFormat_local TZ (fecha_iso (job_turno j)) /\
    (exists y m d H M,
       read_fecha fecha = Some (y, m, d, H, M) /\
       1 <= m <= 12 /\ 1 <= d <= 31 /\ 0 <= H < 24 /\ 0 <= M < 60 /\
       minute_of_fields (y, m, d, H, M) =
         (fecha_iso (job_turno j) + offset TZ (fecha_iso (job_turno j)) * 60000)
         / 60000 /\
       (0 <= y <= 9999 -> String.length fecha = 16%nat)) /\
    (forall d, descripcion (job_turno j) = Some d -> desc = d /\ includes msg d) /\
    (descripcion (job_turno j) = None -> desc = "") /\
    includes msg (label (job_reminder j)) /\
    includes msg fecha /\
    jobsMap w' !! job_key j = None /\
    (forall k, k <> job_key j -> jobsMap w' !! k = jobsMap w !! k) /\
    timers w' !! h = Some (mark_fired j).
Proof.
  intros Hj Hs Hdue.
  exists (fired_world TZ ok h j w), (reminder_text TZ (job_turno j) (job_reminder j)),
         (toFormat_local TZ (fecha_iso (job_turno j))),
         (or_empty (descripcion (job_turno j))).
  split; [apply fire_ready; assumption|].
  split; [reflexivity|]. split; [reflexivity|]. split; [reflexivity|].
  split.
  { destruct (toFormat_local_fields TZ (fecha_iso (job_turno j)))
      as (y & m & d & H & M & _ & Hr & Hm & Hd & HH & HM & Hmin & Hlen).
    exists y, m, d, H, M. auto 10. }
  split.
  { intros d Hd. unfold reminder_text. rewrite Hd. simpl.
    split; [reflexivity|]. do 4 apply includes_after. apply includes_end. }
  split; [intros ->; reflexivity|].
  split; [apply includes_here|].
  split; [unfold reminder_text; do 2 apply includes_after; apply includes_here|].
  simpl. split; [apply lookup_delete_eq|]. split.
  - intros k Hk. apply lookup_delete_ne. congruence.
  - apply list_lookup_insert_eq. eapply lookup_lt_Some; eauto.
Qed.

(** C6 for the 24h reminder of the sample appointment. *)
Lemma C6_firing_sends_and_removes_witness :
  timers due_world !! 0%nat = Some (new_job sample_turno sample_reminder) /\
  job_when (new_job sample_turno sample_reminder) <= clock due_world /\
  exists w',
    fire UTC_minus_3 true 0 due_world = Some w' /\
    outbox w' =
      [mkDelivery 7 "⏰ Recordatorio (1 día antes): 31/12/2025 21:00 Turno" true] /\
    jobsMap w' !! "turno-1-24h" = None.
Proof.
  assert (H1 : timers due_world !! 0%nat = Some (new_job sample_turno sample_reminder))
    by reflexivity.
  assert (H2 : job_when (new_job sample_turno sample_reminder) <= clock due_world)
    by (vm_compute; discriminate).
  split; [exact H1|]. split; [exact H2|].
  destruct (C6_firing_sends_and_removes UTC_minus_3 true 0
              (new_job sample_turno sample_reminder) due_world H1 eq_refl H2)
    as (w' & msg & fecha & desc & Hf & Ho & Hm & Hfe & _ & Hd & _ & _ & _ & Hk & _).
  exists w'. split; [exact Hf|]. split; [|exact Hk].
  destruct (Hd "Turno" eq_refl) as [Hdesc _].
  rewrite Ho, Hm, Hfe, Hdesc. reflexivity.
Defined.

(** ** The bot as a whole *)

Section Whole.

Lemma tidy_frame (w w' : World) :
  jobsMap w' = jobsMap w -> timers w' = timers w -> tidy w -> tidy w'.
Proof. unfold tidy, wf. intros -> ->. trivial. Qed.

Lemma tidy_fire (TZ : Zone) (ok : bool) (h : nat) (w w' : World) :
  tidy w -> fire TZ ok h w = Some w' ->
  tidy w' /\ Forall2 (fun j j' => job_turno j' = job_turno j) (timers w) (timers w').
Proof.
  intros (Hwf & Hnd & Hall) Hf.
  pose proof (wf_fire TZ ok h w w' Hwf Hf) as Hwf'.
  apply fire_Some in Hf as (j & Hj & Hs & _ & ->). simpl.
  assert (Hkeys : job_key <$> <[h := mark_fired j]> (timers w) = job_key <$> timers w).
  { rewrite list_fmap_insert. apply list_insert_id.
    rewrite list_lookup_fmap, Hj. reflexivity. }
  split; [split; [exact Hwf'|split]|].
  - simpl. rewrite Hkeys. exact Hnd.
  - simpl. apply Forall_insert; [exact Hall|].
    rewrite Forall_forall in Hall.
    destruct (Hall j (list_elem_of_lookup_2 _ _ _ Hj)) as [_ Hk].
    split; [discriminate|exact Hk].
  - apply Forall2_same_length_lookup. split; [rewrite length_insert; reflexivity|].
    intros i x y Hx Hy. destruct (decide (h = i)) as [<-|Hne].
    + rewrite list_lookup_insert_eq in Hy by (eapply lookup_lt_Some; eauto).
      injection Hy as <-. simpl. congruence.
    + rewrite list_lookup_insert_ne in Hy by exact Hne. congruence.
Qed.

(** Scheduling an appointment none of whose jobs exist yet cancels nothing:
    it appends its jobs. *)
Lemma tidy_schedule_fresh (t : Turno) (w : World) :
  tidy w -> Forall (fun j => id (job_turno j) <> id t) (timers w) ->
  tidy (scheduleRemindersForTurno t w) /\
  timers (scheduleRemindersForTurno t w) =
    timers w ++ (new_job t <$> planned (clock w) t REMINDERS).
Proof.
  intros (Hwf & Hnd & Hall) Hother.
  rewrite Forall_forall in Hall, Hother.
  assert (Hfree : forall k, jobsMap w !! job_key_of (id t) k = None).
  { intros k. destruct (jobsMap w !! job_key_of (id t) k) as [h|] eqn:E; [|reflexivity].
    exfalso. destruct Hwf as [W1 _]. destruct (W1 _ _ E) as (j & Hj & Hk & _).
    apply list_elem_of_lookup_2 in Hj.
    destruct (Hall j Hj) as [_ Hkey]. rewrite Hkey in Hk.
    apply job_key_of_inj in Hk as [Hid _]. exact (Hother j Hj Hid). }
  destruct (loop_fresh (clock w) t REMINDERS w eq_refl REMINDERS_keys_NoDup)
    as [Ht _]; [intros r _; apply Hfree|].
  fold (scheduleRemindersForTurno t w) in Ht.
  split; [|exact Ht].
  split; [apply wf_scheduleRemindersForTurno, Hwf|]. rewrite Ht. split.
  - rewrite fmap_app. apply NoDup_app. split; [exact Hnd|]. split.
    + intros k (j & -> & Hj)%list_elem_of_fmap (j' & Hk & Hj')%list_elem_of_fmap.
      apply list_elem_of_fmap in Hj' as (r & -> & _). simpl in Hk.
      destruct (Hall j Hj) as [_ Hkey]. rewrite Hkey in Hk.
      apply job_key_of_inj in Hk as [Hid _]. exact (Hother j Hj Hid).
    + rewrite <- list_fmap_compose.
      apply (NoDup_fmap_2_strong (job_key ∘ new_job t)).
      * intros r r' Hr Hr' Hk. simpl in Hk.
        apply job_key_of_inj in Hk as [_ Hk].
        apply planned_elem in Hr as [_ Hr]. apply planned_elem in Hr' as [_ Hr'].
        apply REMINDERS_key_inj; assumption.
      * apply NoDup_filter, (NoDup_fmap_1 key), REMINDERS_keys_NoDup.
  - apply Forall_app. split; [apply Forall_forall, Hall|].
    apply Forall_fmap, Forall_forall. intros r _. simpl. split; [discriminate|reflexivity].
Qed.

Lemma tidy_recover (ts : list Turno) (w : World) :
  tidy w -> NoDup (id <$> ts) ->
  Forall (fun j => id (job_turno j) ∉ id <$> ts) (timers w) ->
  tidy (recover w ts) /\
  Forall (fun j => j ∈ timers w \/ job_turno j ∈ ts) (timers (recover w ts)).
Proof.
  revert w; induction ts as [|t ts IH]; intros w Htidy Hnd Hout; simpl.
  { split; [exact Htidy|]. apply Forall_forall. auto. }
  rewrite fmap_cons in Hnd. apply NoDup_cons in Hnd as [Ht Hnd].
  rewrite Forall_forall in Hout.
  destruct (tidy_schedule_fresh t w Htidy) as [Htidy1 Htim1].
  { apply Forall_forall. intros j Hj Hid. apply (Hout j Hj).
    rewrite fmap_cons, Hid. left. }
  destruct (IH (scheduleRemindersForTurno t w) Htidy1 Hnd) as [Htidy2 Hfrom].
  { rewrite Htim1. apply Forall_app. split.
    - apply Forall_forall. intros j Hj Hin. apply (Hout j Hj).
      rewrite fmap_cons. right. exact Hin.
    - apply Forall_fmap, Forall_forall. intros r _. exact Ht. }
  split; [exact Htidy2|].
  rewrite Forall_forall in Hfrom. apply Forall_forall. intros j Hj.
  destruct (Hfrom j Hj) as [Hin|Hin]; [|right; right; exact Hin].
  rewrite Htim1 in Hin. apply elem_of_app in Hin as [Hin|Hin]; [left; exact Hin|].
  apply list_elem_of_fmap in Hin as (r & -> & _). right. left.
Qed.

Lemma consistent_boot (now : Z) (rows : list Turno) (seq : Z) :
  NoDup (id <$> rows) -> Forall (fun t => id t <= seq) rows ->
  consistent (bot_boot now rows seq).
Proof.
  intros Hnd Hseq. unfold consistent, bot_boot. simpl.
  destruct (tidy_recover (select_futuros now rows) (boot now rows)) as [Htidy Hfrom].
  { split; [apply wf_boot|]. split; [apply NoDup_nil; trivial|apply Forall_nil; trivial]. }
  { apply NoDup_fmap_filter, Hnd. }
  { apply Forall_nil. trivial. }
  destruct (recover_frame (select_futuros now rows) (boot now rows))
    as (_ & _ & Hturnos & _).
  unfold recover in *. rewrite Hturnos. simpl.
  split; [exact Htidy|]. split; [|split; [exact Hseq|exact Hnd]].
  apply Forall_forall. intros j Hj.
  pose proof (proj1 (Forall_forall _ _) Hfrom j Hj) as [Hin|Hin];
    [apply elem_of_nil in Hin; contradiction|].
  apply (proj1 (Forall_forall _ _) Hseq).
  apply list_elem_of_filter in Hin as [_ Hin]. exact Hin.
Qed.

Lemma consistent_with_world (f : World -> World) (b : Bot) :
  (forall w, jobsMap (f w) = jobsMap w /\ timers (f w) = timers w /\
             turnos (f w) `sublist_of` turnos w) ->
  consistent b -> consistent (with_world f b).
Proof.
  intros Hf (Htidy & Hjobs & Hrows & Hnd).
  destruct (Hf (world b)) as (Hm & Ht & Hsub).
  unfold consistent, with_world; simpl. rewrite Ht.
  split; [eapply tidy_frame; eauto|]. split; [exact Hjobs|]. split.
  - rewrite Forall_forall in Hrows. apply Forall_forall. intros t Hin.
    apply Hrows. eapply elem_of_sublist; eauto.
  - eapply sublist_NoDup; [exact Hnd|]. apply (fmap_sublist id), Hsub.
Qed.

Lemma sendMessage_frame (ok : bool) (chat : Z) (msg : string) (w : World) :
  jobsMap (sendMessage ok chat msg w) = jobsMap w /\
  timers (sendMessage ok chat msg w) = timers w /\
  turnos (sendMessage ok chat msg w) `sublist_of` turnos w.
Proof. repeat split; reflexivity. Qed.

Lemma consistent_pickHour (TZ : Zone) (chat message_id fecha : Z) (b : Bot) :
  consistent b -> consistent (cmd_pickHour TZ chat message_id fecha b).
Proof.
  intros ((Hwf & Hkeys & Hall) & Hjobs & Hrows & Hnd).
  unfold cmd_pickHour, agregarTurno. cbn [db_rows sqlite_sequence].
  set (i := Z.max (sequence b) (max_rowid (turnos (world b))) + 1).
  set (t := mkTurno i chat fecha (Some (or_empty (Some "Turno")))).
  set (w1 := mkWorld _ _ _ _ _ _).
  rewrite Forall_forall in Hjobs. rewrite Forall_forall in Hrows.
  destruct (tidy_schedule_fresh (mkTurno i chat fecha (Some "Turno")) w1) as [Htidy Htim].
  { split; [exact Hwf|]. split; [exact Hkeys|exact Hall]. }
  { apply Forall_forall. intros j Hj. specialize (Hjobs j Hj). simpl. lia. }
  unfold consistent. cbn [world sequence].
  split; [exact Htidy|]. split; [|split].
  - rewrite Htim. apply Forall_app. split.
    + apply Forall_forall. intros j Hj. specialize (Hjobs j Hj). lia.
    + apply Forall_fmap, Forall_forall. intros r _. simpl. lia.
  - destruct (loop_frame (mkTurno i chat fecha (Some "Turno")) REMINDERS w1)
      as (_ & _ & Hturnos & _).
    unfold scheduleRemindersForTurno. rewrite Hturnos. unfold w1; simpl.
    apply Forall_app. split.
    + apply Forall_forall. intros x Hx. specialize (Hrows x Hx). lia.
    + apply Forall_singleton. simpl. lia.
  - destruct (loop_frame (mkTurno i chat fecha (Some "Turno")) REMINDERS w1)
      as (_ & _ & Hturnos & _).
    unfold scheduleRemindersForTurno. rewrite Hturnos. unfold w1; simpl.
    rewrite fmap_app. apply NoDup_app. split; [exact Hnd|]. split.
    + intros z (x & -> & Hx)%list_elem_of_fmap Hin. simpl in Hin.
      apply list_elem_of_singleton in Hin. specialize (Hrows x Hx). lia.
    + simpl. apply NoDup_singleton.
Qed.

Lemma cmd_borrar_rounded_frame (ok : bool) (chat v : Z) (w : World) :
  jobsMap (cmd_borrar_rounded ok chat v w) = jobsMap w /\
  timers (cmd_borrar_rounded ok chat v w) = timers w /\
  clock (cmd_borrar_rounded ok chat v w) = clock w.
Proof.
  unfold cmd_borrar_rounded. destruct (borrarTurno v chat (turnos w)) as [[|] rows]; auto.
Qed.

Lemma consistent_handler (TZ : Zone) (ok : bool) (chat : Z) (msg : string)
    (h : Handler) (b : Bot) :
  consistent b -> consistent (run_handler TZ ok chat msg h b).
Proof.
  intros Hb. destruct h; simpl.
  - apply consistent_with_world; [|exact Hb]. intros w. apply sendMessage_frame.
  - apply consistent_with_world; [|exact Hb].
    intros w. unfold cmd_turnos. case_decide; apply sendMessage_frame.
  - destruct (Number_of_digits _) as [i|v| |];
      (apply consistent_with_world; [|exact Hb]); intros w.
    + pose proof (cmd_borrar_frame ok chat i w) as (Hm & Ht & _).
      split; [exact Hm|]. split; [exact Ht|].
      unfold cmd_borrar, borrarTurno. destruct (existsb _ _); simpl;
        apply sublist_filter.
    + pose proof (cmd_borrar_rounded_frame ok chat v w) as (Hm & Ht & _).
      split; [exact Hm|]. split; [exact Ht|].
      unfold cmd_borrar_rounded, borrarTurno. destruct (existsb _ _); simpl;
        apply sublist_filter.
    + apply sendMessage_frame.
    + apply sendMessage_frame.
  - destruct Hb as (Ht & Hj & Hr & Hn).
    unfold consistent, cmd_turno; simpl. auto.
Qed.

Lemma consistent_step (TZ : Zone) (e : BotEvent) (b b' : Bot) :
  consistent b -> bot_step TZ e b = Some b' -> consistent b'.
Proof.
  intros Hb. destruct e as [d|ok h|ok chat msg|chat message_id fecha]; simpl.
  - intros [= <-]. apply consistent_with_world; [|exact Hb].
    intros w. repeat split; reflexivity.
  - destruct (fire TZ ok h (world b)) as [w|] eqn:Hf; [|discriminate].
    simpl. intros [= <-].
    destruct Hb as (Htidy & Hjobs & Hrows & Hnd).
    destruct (tidy_fire TZ ok h _ _ Htidy Hf) as [Htidy' Hsame].
    apply fire_Some in Hf as (j & _ & _ & _ & Hw).
    unfold consistent; simpl. split; [exact Htidy'|]. split.
    + apply Forall_forall. intros x Hx.
      apply list_elem_of_lookup_1 in Hx as [n Hn].
      destruct (Forall2_lookup_r _ _ _ _ _ Hsame Hn) as (y & Hy & ->).
      rewrite Forall_forall in Hjobs. apply Hjobs.
      eapply list_elem_of_lookup_2; eauto.
    + rewrite Hw. simpl. auto.
  - intros [= <-]. clear -Hb. revert b Hb.
    induction (handlers_for msg) as [|h hs IH]; intros b Hb; simpl; [exact Hb|].
    apply IH, consistent_handler, Hb.
  - intros [= <-]. apply consistent_pickHour, Hb.
Qed.

Lemma consistent_run (TZ : Zone) (es : list BotEvent) (b b' : Bot) :
  consistent b -> bot_run TZ es b = Some b' -> consistent b'.
Proof.
  revert b; induction es as [|e es IH]; intros b Hb; simpl.
  - intros [= <-]. exact Hb.
  - destruct (bot_step TZ e b) as [b1|] eqn:E; [|discriminate]. simpl.
    apply IH. eapply consistent_step; eauto.
Qed.

Lemma max_rowid_le (rows : list Turno) (s : Z) :
  0 <= s -> Forall (fun t => id t <= s) rows -> max_rowid rows <= s.
Proof.
  intros Hs Hall. induction Hall as [|t rows Ht _ IH]; simpl; lia.
Qed.

Lemma handler_keeps_sequence (TZ : Zone) (ok : bool) (chat : Z) (msg : string)
    (h : Handler) (b : Bot) :
  sequence (run_handler TZ ok chat msg h b) = sequence b.
Proof. destruct h; simpl; try reflexivity. destruct (Number_of_digits _); reflexivity. Qed.

(** The rowid counter moves by one at a booking and not otherwise. *)
Lemma bot_step_sequence (TZ : Zone) (e : BotEvent) (b b' : Bot) :
  consistent b -> 0 <= sequence b -> bot_step TZ e b = Some b' ->
  sequence b <= sequence b' <= sequence b + 1.
Proof.
  intros (_ & _ & Hrows & _) Hs.
  destruct e as [d|ok h|ok chat msg|chat message_id fecha]; simpl.
  - intros [= <-]. simpl. lia.
  - destruct (fire TZ ok h (world b)) as [w|]; [|discriminate].
    simpl. intros [= <-]. simpl. lia.
  - intros [= <-].
    assert (Hsame : forall hs b0,
              sequence (foldl (fun acc h => run_handler TZ ok chat msg h acc) b0 hs) =
              sequence b0).
    { induction hs as [|h hs IH]; intros b0; simpl; [reflexivity|].
      rewrite IH. apply handler_keeps_sequence. }
    rewrite Hsame. lia.
  - intros [= <-]. unfold cmd_pickHour, agregarTurno. cbn [sequence sqlite_sequence db_rows].
    pose proof (max_rowid_le _ _ Hs Hrows). lia.
Qed.

Lemma bot_run_sequence (TZ : Zone) (es : list BotEvent) (b b' : Bot) :
  consistent b -> 0 <= sequence b -> bot_run TZ es b = Some b' ->
  sequence b <= sequence b' <= sequence b + Z.of_nat (length es).
Proof.
  revert b; induction es as [|e es IH]; intros b Hb Hs.
  - simpl. intros [= <-]. lia.
  - cbn [bot_run]. destruct (bot_step TZ e b) as [b1|] eqn:E; [|discriminate].
    cbn [mbind option_bind]. intros Hrun.
    pose proof (bot_step_sequence TZ e b b1 Hb Hs E) as H1.
    pose proof (IH b1 (consistent_step TZ e b b1 Hb E) ltac:(lia) Hrun) as H2.
    rewrite length_cons. lia.
Qed.

(** A run is undefined only where the timer facility would run a job that
    is not pending or not yet due: every text and every button is handled. *)
Lemma bot_run_stuck (TZ : Zone) (es : list BotEvent) (b : Bot) :
  bot_run TZ es b = None ->
  exists es1 ok h es2 b1,
    es = es1 ++ Fires ok h :: es2 /\ bot_run TZ es1 b = Some b1 /\
    fire TZ ok h (world b1) = None.
Proof.
  revert b; induction es as [|e es IH]; intros b; [discriminate|].
  cbn [bot_run]. destruct (bot_step TZ e b) as [b1|] eqn:E.
  - cbn [mbind option_bind]. intros Hrun.
    destruct (IH b1 Hrun) as (es1 & ok & h & es2 & b2 & -> & Hrun1 & Hf).
    exists (e :: es1), ok, h, es2, b2. split; [reflexivity|]. split; [|exact Hf].
    cbn [bot_run]. rewrite E. exact Hrun1.
  - intros _. destruct e as [d|ok h|ok chat msg|chat message_id fecha];
      simpl in E; try discriminate E.
    exists [], ok, h, es, b. split; [reflexivity|]. split; [reflexivity|].
    destruct (fire TZ ok h (world b)); [discriminate E|reflexivity].
Qed.

Lemma match_borrar_digits (digits : string) :
  digits <> "" -> all_digits digits = true ->
  match_borrar ("/borrar " +:+ digits) = Some digits.
Proof.
  intros Hne Hd. unfold match_borrar. rewrite prefix_app.
  change 8%nat with (String.length "/borrar "). rewrite string_drop_app, Hd.
  destruct (String.eqb_spec digits ""); [contradiction|reflexivity].
Qed.

End Whole.

Lemma filter_split_le {A} (P1 P2 K : A -> Prop)
    `{forall x, Decision (P1 x)} `{forall x, Decision (P2 x)}
    `{forall x, Decision (K x)} (l : list A) :
  (forall x, P1 x -> P2 x -> False) ->
  (length (filter (fun x => P1 x /\ K x) l) + length (filter (fun x => P2 x /\ K x) l)
   <= length (filter K l))%nat.
Proof.
  intros Hex. induction l as [|x l IH]; [simpl; lia|].
  rewrite !filter_cons.
  destruct (decide (K x)) as [HK|HK].
  - destruct (decide (P1 x)) as [Hx1|Hx1], (decide (P2 x)) as [Hx2|Hx2].
    + destruct (Hex x Hx1 Hx2).
    + rewrite decide_True, decide_False by tauto. simpl. lia.
    + rewrite decide_False, decide_True by tauto. simpl. lia.
    + rewrite !decide_False by tauto. simpl. lia.
  - rewrite !decide_False by tauto. exact IH.
Qed.

Lemma one_job_per_key (w : World) (k : string) :
  NoDup (job_key <$> timers w) ->
  (length (fired_under k w) + length (live_under k w) <= 1)%nat.
Proof.
  intros Hnd. unfold fired_under, live_under.
  etransitivity;
    [apply (filter_split_le (fun j => job_state j = Fired)
              (fun j => job_state j = Scheduled) (fun j => job_key j = k));
     congruence|].
  apply filter_at_most_one. intros i1 i2 x1 x2 H1 H2 K1 K2.
  apply (NoDup_lookup (job_key <$> timers w) i1 i2 k Hnd);
    rewrite list_lookup_fmap; [rewrite H1|rewrite H2]; simpl; congruence.
Qed.

(** In every run of the bot on a table with unique ids, none above the
    rowid counter, and as long as the counter stays within the integers a
    JS number holds exactly, the cancel-and-replace step of the scheduler
    never finds a job to cancel: start-up schedules each appointment once
    and a booking always brings a new id. So registry and timers agree
    throughout, no job is ever cancelled, no two jobs ever share a key, the
    ids in the table stay unique and exact, and for each appointment and
    offset at most one job exists, which fires at most once. Every text and
    every button is handled; a run is undefined only where it asks a job to
    fire that is not pending or not due. *)
Theorem bot_never_cancels (TZ : Zone) (now : Z) (rows : list Turno) (seq : Z)
    (es : list BotEvent) :
  NoDup (id <$> rows) -> Forall (fun t => - 2 ^ 53 <= id t <= seq) rows ->
  0 <= seq -> seq + Z.of_nat (length es) <= 2 ^ 53 ->
  (forall b, bot_run TZ es (bot_boot now rows seq) = Some b ->
     wf (world b) /\
     Forall (fun j => job_state j = Scheduled \/ job_state j = Fired)
            (timers (world b)) /\
     NoDup (job_key <$> timers (world b)) /\
     NoDup (id <$> turnos (world b)) /\
     Forall (fun t => id t <= sequence b) (turnos (world b)) /\
     sequence b <= 2 ^ 53 /\
     (forall k, (length (fired_under k (world b)) + length (live_under k (world b))
                 <= 1)%nat)) /\
  (bot_run TZ es (bot_boot now rows seq) = None ->
   exists es1 ok h es2 b1,
     es = es1 ++ Fires ok h :: es2 /\
     bot_run TZ es1 (bot_boot now rows seq) = Some b1 /\
     fire TZ ok h (world b1) = None).
Proof.
  intros Hnd Hids Hseq0 Hsafe.
  assert (Hseq : Forall (fun t => id t <= seq) rows)
    by (eapply Forall_impl; [exact Hids|]; intros t Ht; simpl in Ht; lia).
  split; [|apply bot_run_stuck].
  intros b Hrun.
  pose proof (consistent_boot now rows seq Hnd Hseq) as Hboot.
  pose proof (bot_run_sequence TZ es _ b Hboot Hseq0 Hrun) as Hcount.
  pose proof (consistent_run TZ es _ b Hboot Hrun)
    as ((Hwf & Hkeys & Hall) & _ & Hrows & Hunique).
  split; [exact Hwf|]. split; [|split; [exact Hkeys|split; [exact Hunique|split; [|split]]]].
  - eapply Forall_impl; [exact Hall|]. intros j [Hs _]. simpl in Hs.
    destruct (job_state j); auto. congruence.
  - exact Hrows.
  - simpl in Hcount. lia.
  - intros k. apply one_job_per_key, Hkeys.
Qed.

(** ** Scheduling and the other appointments *)

Lemma loop_registry_grows (t : Turno) (rs : list Reminder) (w : World) :
  (size (jobsMap w) <= size (jobsMap (foldl (schedule_one t) w rs))
   <= size (jobsMap w) + length rs)%nat /\
  (forall k, is_Some (jobsMap w !! k) ->
             is_Some (jobsMap (foldl (schedule_one t) w rs) !! k)).
Proof.
  revert w; induction rs as [|r rs IH]; intros w; simpl.
  { split; [lia|auto]. }
  destruct (IH (schedule_one t w r)) as [Hsize Hdom].
  destruct (Z.le_gt_cases (when_of (fecha_iso t) r) (clock w)) as [H|H].
  - rewrite schedule_one_skip in Hsize, Hdom |- * by exact H.
    split; [lia|exact Hdom].
  - rewrite schedule_one_go in Hsize, Hdom |- * by lia. simpl in Hsize, Hdom.
    rewrite map_size_insert in Hsize.
    split.
    + destruct (jobsMap w !! job_key_of (id t) (key r));
        cbv [Datatypes.id] in Hsize; lia.
    + intros k Hk. apply Hdom. rewrite lookup_insert. case_decide; [eauto|exact Hk].
Qed.

(** Scheduling an appointment sends nothing and leaves the table alone; it
    never unregisters a key and adds at most five entries and five jobs;
    registry entries and jobs under keys of other appointments are as they
    were. *)
Theorem schedule_leaves_others (t : Turno) (w : World) :
  wf w ->
  (forall k, (forall r, r ∈ REMINDERS -> k <> job_key_of (id t) (key r)) ->
     jobsMap (scheduleRemindersForTurno t w) !! k = jobsMap w !! k) /\
  (forall h j, timers w !! h = Some j ->
     (forall r, r ∈ REMINDERS -> job_key j <> job_key_of (id t) (key r)) ->
     timers (scheduleRemindersForTurno t w) !! h = Some j) /\
  (forall k, is_Some (jobsMap w !! k) ->
             is_Some (jobsMap (scheduleRemindersForTurno t w) !! k)) /\
  (size (jobsMap w) <= size (jobsMap (scheduleRemindersForTurno t w))
   <= size (jobsMap w) + 5)%nat /\
  (length (timers w) <= length (timers (scheduleRemindersForTurno t w))
   <= length (timers w) + 5)%nat /\
  outbox (scheduleRemindersForTurno t w) = outbox w /\
  turnos (scheduleRemindersForTurno t w) = turnos w.
Proof.
  intros Hwf. unfold scheduleRemindersForTurno.
  destruct (loop_registry_grows t REMINDERS w) as [Hsize Hdom].
  destruct (loop_frame t REMINDERS w) as (_ & Hout & Hrows & _).
  split; [|split; [|split; [exact Hdom|split; [exact Hsize|split; [|auto]]]]].
  - intros k Hk. apply loop_registry_kept. intros r Hr _. apply Hk, Hr.
  - intros h j Hj Hk. apply loop_timers_kept; [exact Hwf|exact Hj|].
    intros _ r Hr _. apply Hk, Hr.
  - rewrite loop_timers_length.
    pose proof (length_filter (fun r => clock w < when_of (fecha_iso t) r) REMINDERS).
    unfold planned. simpl in *. lia.
Qed.

(** ** Booking, listing and deleting *)

Lemma existsb_none {A} (f : A -> bool) (l : list A) :
  (forall x, x ∈ l -> f x = false) -> existsb f l = false.
Proof.
  induction l as [|x l IH]; intros Hall; [reflexivity|]. simpl.
  rewrite (Hall x) by left. apply IH. intros y Hy. apply Hall. right. exact Hy.
Qed.

(** Deleting the id of the last row, an id no other row has. *)
Lemma borrarTurno_last (rows : list Turno) (i c c' f : Z) (d : option string) :
  (forall t, t ∈ rows -> id t <> i) ->
  borrarTurno i c' (rows ++ [mkTurno i c f d]) =
  if decide (c' = c) then (true, rows) else (false, rows ++ [mkTurno i c f d]).
Proof.
  intros Hfresh. unfold borrarTurno.
  rewrite existsb_app, filter_app.
  rewrite existsb_none
    by (intros t Ht; apply bool_decide_eq_false; intros [? _]; exact (Hfresh t Ht ltac:(assumption))).
  rewrite filter_all by (intros t Ht [? _]; exact (Hfresh t Ht ltac:(assumption))).
  simpl. case_decide as Hc.
  - subst c'. rewrite bool_decide_eq_true_2 by auto.
    rewrite filter_cons_False by (simpl; tauto).
    rewrite filter_nil, app_nil_r. reflexivity.
  - rewrite bool_decide_eq_false_2 by (simpl; intros [_ ?]; congruence).
    rewrite filter_cons_True by (simpl; intros [_ ?]; congruence).
    reflexivity.
Qed.

Lemma max_rowid_nonneg (rows : list Turno) : 0 <= max_rowid rows.
Proof. induction rows as [|x l IH]; simpl; lia. Qed.

Lemma new_rowid_fresh (db : Db) (t : Turno) :
  t ∈ db_rows db ->
  id t <> Z.max (sqlite_sequence db) (max_rowid (db_rows db)) + 1.
Proof. intros Ht. pose proof (max_rowid_bound _ _ Ht). lia. Qed.

(** An appointment just inserted is listed for its chat exactly when the
    query can read its date and that of the clock and its second has not
    passed: always when both lie in the years 0000 to 9999 and the
    appointment is not past, never when it lies in the year 10000 or later.
    It changes no other chat's list; deleting its id from its own chat
    removes exactly that row, and from any other chat removes nothing. *)
Theorem agregarTurno_round_trip (chatId fechaISO now : Z) (descripcion : option string)
    (db : Db) :
  let i := fst (agregarTurno chatId fechaISO descripcion db) in
  let rows' := db_rows (snd (agregarTurno chatId fechaISO descripcion db)) in
  (mkTurno i chatId fechaISO (Some (or_empty descripcion)) ∈
     listarTurnos chatId now rows' <->
   sql_le (sql_datetime now) (sql_datetime fechaISO)) /\
  (year_0000 <= now < year_10000 -> year_0000 <= fechaISO < year_10000 ->
   now <= fechaISO ->
   mkTurno i chatId fechaISO (Some (or_empty descripcion)) ∈
     listarTurnos chatId now rows') /\
  (year_10000 <= fechaISO ->
   mkTurno i chatId fechaISO (Some (or_empty descripcion)) ∉
     listarTurnos chatId now rows') /\
  (forall chat', chat' <> chatId ->
     listarTurnos chat' now rows' = listarTurnos chat' now (db_rows db)) /\
  borrarTurno i chatId rows' = (true, db_rows db) /\
  (forall chat', chat' <> chatId -> borrarTurno i chat' rows' = (false, rows')).
Proof.
  intros i rows'.
  assert (Hlisted : mkTurno i chatId fechaISO (Some (or_empty descripcion)) ∈
                      listarTurnos chatId now rows' <->
                    sql_le (sql_datetime now) (sql_datetime fechaISO)).
  { rewrite listarTurnos_elem. simpl. split; [tauto|]. intros Hle.
    split; [|auto]. unfold rows', agregarTurno. cbn [snd db_rows].
    apply elem_of_app. right. left. }
  split; [exact Hlisted|]. split; [|split].
  - intros Hnow Hf Hle. apply Hlisted, sql_le_seconds.
    rewrite !sql_datetime_is_Some. split; [exact Hnow|]. split; [exact Hf|].
    apply seconds_le, Hle.
  - intros Hf Hin. apply Hlisted, sql_le_seconds in Hin as (_ & Hd & _).
    apply sql_datetime_is_Some in Hd. lia.
  - unfold i, rows', agregarTurno. cbn [fst snd db_rows].
    split; [|split].
    + intros chat' Hc. unfold listarTurnos. rewrite filter_app.
      rewrite filter_cons_False by (simpl; intros [? _]; congruence).
      rewrite filter_nil, app_nil_r. reflexivity.
    + rewrite borrarTurno_last by (intros t Ht; apply new_rowid_fresh, Ht).
      rewrite decide_True by reflexivity. reflexivity.
    + intros chat' Hc.
      rewrite borrarTurno_last by (intros t Ht; apply new_rowid_fresh, Ht).
      rewrite decide_False by exact Hc. reflexivity.
Qed.

(** Booking and then deleting through the bot: the confirmation shows the
    new id; the text [/borrar ID] with that id, sent from the chat that
    booked, takes the row out again and is answered with the deletion
    notice, while from any other chat the row stays and the answer is that
    no such appointment was found. Either way the reminders scheduled at the
    booking stay registered. *)
Theorem book_then_borrar (TZ : Zone) (ok : bool) (chat chat' mid fecha : Z) (b : Bot) :
  Z.max (sequence b) (max_rowid (turnos (world b))) < 2 ^ 53 ->
  let i := Z.max (sequence b) (max_rowid (turnos (world b))) + 1 in
  let b1 := cmd_pickHour TZ chat mid fecha b in
  last (edits b1) =
    Some (mkEdit chat mid ("✅ Turno agendado (ID " +:+ Number_toString i +:+ ") para "
                           +:+ toFormat_local TZ fecha)) /\
  turnos (world b1) = turnos (world b) ++ [mkTurno i chat fecha (Some "Turno")] /\
  exists b2,
    bot_step TZ (Text ok chat' ("/borrar " +:+ Number_toString i)) b1 = Some b2 /\
    jobsMap (world b2) = jobsMap (world b1) /\
    timers (world b2) = timers (world b1) /\
    (chat' = chat ->
       turnos (world b2) = turnos (world b) /\
       last (outbox (world b2)) =
         Some (mkDelivery chat' ("🗑️ Turno " +:+ Number_toString i +:+ " borrado") ok)) /\
    (chat' <> chat ->
       turnos (world b2) = turnos (world b1) /\
       last (outbox (world b2)) =
         Some (mkDelivery chat' ("No se encontró el turno " +:+ Number_toString i) ok)).
Proof.
  intros Hsafe i b1.
  assert (Hi : 0 <= i <= 2 ^ 53).
  { unfold i. pose proof (max_rowid_nonneg (turnos (world b))). lia. }
  destruct (shown_id_parses i Hi) as (Hm & Hnum & Hh).
  assert (Hrows : turnos (world b1) =
                  turnos (world b) ++ [mkTurno i chat fecha (Some "Turno")]).
  { unfold b1, cmd_pickHour, agregarTurno. cbn [world db_rows].
    match goal with
    | |- turnos (scheduleRemindersForTurno ?t ?w) = _ =>
        destruct (loop_frame t REMINDERS w) as (_ & _ & Hturnos & _)
    end.
    unfold scheduleRemindersForTurno. rewrite Hturnos. reflexivity. }
  split; [unfold b1, cmd_pickHour, agregarTurno; cbn [edits]; apply last_snoc|].
  split; [exact Hrows|].
  simpl. rewrite Hh. simpl. rewrite Hm. simpl. rewrite Hnum.
  eexists. split; [reflexivity|]. unfold with_world; cbn [world].
  pose proof (cmd_borrar_frame ok chat' i (world b1)) as (Hjm & Htm & _).
  split; [exact Hjm|]. split; [exact Htm|].
  unfold cmd_borrar. rewrite Hrows.
  rewrite borrarTurno_last
    by (intros t Ht; unfold i;
        apply (new_rowid_fresh (mkDb (turnos (world b)) (sequence b))), Ht).
  split.
  - intros ->. rewrite decide_True by reflexivity. simpl.
    split; [reflexivity|apply last_snoc].
  - intros Hc. rewrite decide_False by exact Hc. simpl.
    split; [symmetry; exact Hrows|apply last_snoc].
Qed.

(** ** What the bot sends *)

Lemma filter_insert_gain {A} (P : A -> Prop) `{forall x, Decision (P x)}
    (l : list A) (h : nat) (x y : A) :
  l !! h = Some x -> ~ P x -> P y ->
  length (filter P (<[h := y]> l)) = S (length (filter P l)).
Proof.
  revert h; induction l as [|z l IH]; intros h Hx Hnx Hy; [discriminate Hx|].
  destruct h as [|h]; simpl in Hx.
  - injection Hx as ->. simpl.
    rewrite filter_cons_True by exact Hy. rewrite filter_cons_False by exact Hnx.
    reflexivity.
  - change (<[S h := y]> (z :: l)) with (z :: <[h := y]> l).
    rewrite !filter_cons.
    case_decide; simpl; rewrite (IH h Hx Hnx Hy); reflexivity.
Qed.

(** Every command callback makes one call of [bot.sendMessage] and leaves
    the jobs alone. *)
Lemma handler_sends_one (TZ : Zone) (ok : bool) (chat : Z) (msg : string)
    (h : Handler) (b : Bot) :
  length (outbox (world (run_handler TZ ok chat msg h b))) =
    S (length (outbox (world b))) /\
  timers (world (run_handler TZ ok chat msg h b)) = timers (world b).
Proof.
  destruct h; simpl.
  - rewrite length_app. simpl. split; [lia|reflexivity].
  - unfold cmd_turnos.
    case_decide; simpl; rewrite length_app; simpl; split; (lia || reflexivity).
  - destruct (Number_of_digits _) as [i|v| |]; simpl.
    + pose proof (cmd_borrar_frame ok chat i (world b)) as (_ & Ht & _).
      split; [|exact Ht].
      unfold cmd_borrar. destruct (borrarTurno i chat (turnos (world b))) as [[|] rows];
        simpl; rewrite length_app; simpl; lia.
    + pose proof (cmd_borrar_rounded_frame ok chat v (world b)) as (_ & Ht & _).
      split; [|exact Ht].
      unfold cmd_borrar_rounded.
      destruct (borrarTurno v chat (turnos (world b))) as [[|] rows];
        simpl; rewrite length_app; simpl; lia.
    + rewrite length_app. simpl. split; [lia|reflexivity].
    + rewrite length_app. simpl. split; [lia|reflexivity].
  - rewrite length_app. simpl. split; [lia|reflexivity].
Qed.

Lemma handlers_send_one_each (TZ : Zone) (ok : bool) (chat : Z) (msg : string)
    (hs : list Handler) (b : Bot) :
  length (outbox (world (foldl (fun acc h => run_handler TZ ok chat msg h acc) b hs))) =
    (length (outbox (world b)) + length hs)%nat /\
  timers (world (foldl (fun acc h => run_handler TZ ok chat msg h acc) b hs)) =
    timers (world b).
Proof.
  revert b; induction hs as [|h hs IH]; intros b; simpl.
  { split; [lia|reflexivity]. }
  destruct (IH (run_handler TZ ok chat msg h b)) as [Hlen Htim].
  destruct (handler_sends_one TZ ok chat msg h b) as [Hl1 Ht1].
  rewrite Hlen, Htim, Hl1, Ht1. split; [lia|reflexivity].
Qed.

Lemma bot_step_sends (TZ : Zone) (e : BotEvent) (b b' : Bot) :
  consistent b -> bot_step TZ e b = Some b' ->
  length (outbox (world b')) =
    (length (outbox (world b)) + answered e + fires e)%nat /\
  fired_count (world b') = (fired_count (world b) + fires e)%nat.
Proof.
  intros Hb. destruct e as [d|ok h|ok chat msg|chat mid fecha]; simpl.
  - intros [= <-]. simpl. unfold fired_count. simpl. split; lia.
  - destruct (fire TZ ok h (world b)) as [w|] eqn:Hf; [|discriminate].
    simpl. intros [= <-]. apply fire_Some in Hf as (j & Hj & Hs & _ & ->).
    unfold fired_count. simpl. rewrite length_app. simpl.
    rewrite (filter_insert_gain _ _ h j) by (try exact Hj; simpl; congruence).
    split; lia.
  - intros [= <-].
    destruct (handlers_send_one_each TZ ok chat msg (handlers_for msg) b) as [Hlen Htim].
    unfold fired_count. rewrite Htim. split; lia.
  - intros [= <-]. destruct Hb as (Htidy & Hjobs & _).
    unfold cmd_pickHour, agregarTurno. cbn [world db_rows sqlite_sequence].
    match goal with
    | |- context [scheduleRemindersForTurno ?t ?w] =>
        destruct (tidy_schedule_fresh t w) as [_ Htim];
        [exact Htidy| |destruct (loop_frame t REMINDERS w) as (_ & Hout & _)]
    end.
    + rewrite Forall_forall in Hjobs. apply Forall_forall. intros j Hj.
      specialize (Hjobs j Hj). simpl. lia.
    + unfold fired_count. rewrite Htim.
      unfold scheduleRemindersForTurno at 1. rewrite Hout. simpl.
      rewrite filter_app, length_app.
      rewrite (filter_none (fun j => job_state j = Fired) (new_job _ <$> _)).
      * simpl. split; lia.
      * intros n y Hy. apply list_elem_of_lookup_2, list_elem_of_fmap in Hy
          as (r & -> & _). discriminate.
Qed.

Lemma bot_run_sends (TZ : Zone) (es : list BotEvent) (b b' : Bot) :
  consistent b -> bot_run TZ es b = Some b' ->
  length (outbox (world b')) =
    (length (outbox (world b)) + sum_list (answered <$> es) + sum_list (fires <$> es))%nat /\
  fired_count (world b') = (fired_count (world b) + sum_list (fires <$> es))%nat.
Proof.
  revert b; induction es as [|e es IH]; intros b Hb.
  - simpl. intros [= <-]. split; lia.
  - change (sum_list (answered <$> e :: es))
      with (answered e + sum_list (answered <$> es))%nat.
    change (sum_list (fires <$> e :: es))
      with (fires e + sum_list (fires <$> es))%nat.
    cbn [bot_run].
    destruct (bot_step TZ e b) as [b1|] eqn:E; [|discriminate].
    cbn [mbind option_bind]. intros Hrun.
    destruct (bot_step_sends TZ e b b1 Hb E) as [Hl1 Hf1].
    destruct (IH b1 (consistent_step TZ e b b1 Hb E) Hrun) as [Hl Hf].
    rewrite Hl, Hf, Hl1, Hf1. split; lia.
Qed.

(** In every run of the bot, each command that matches a pattern is
    answered with exactly one message, each job that fires sends exactly one
    reminder, and nothing else is ever sent: start-up, bookings and the
    passing of time send no message. A [/borrar] followed by digits is
    answered with one message however long the digits are. Every text and
    every button is handled; a run is undefined only where it asks a job to
    fire that is not pending or not due. *)
Theorem bot_sends_answers_and_reminders (TZ : Zone) (now : Z) (rows : list Turno)
    (seq : Z) (es : list BotEvent) :
  NoDup (id <$> rows) -> Forall (fun t => - 2 ^ 53 <= id t <= seq) rows ->
  0 <= seq -> seq + Z.of_nat (length es) <= 2 ^ 53 ->
  (forall b, bot_run TZ es (bot_boot now rows seq) = Some b ->
     length (outbox (world b)) =
       (sum_list (answered <$> es) + fired_count (world b))%nat /\
     fired_count (world b) = sum_list (fires <$> es)) /\
  Forall (fun e => (answered e <= 1)%nat) es /\
  (forall ok chat digits b, digits <> "" -> all_digits digits = true ->
     exists b', bot_step TZ (Text ok chat ("/borrar " +:+ digits)) b = Some b' /\
                length (outbox (world b')) = S (length (outbox (world b))) /\
                timers (world b') = timers (world b)) /\
  (bot_run TZ es (bot_boot now rows seq) = None ->
   exists es1 ok h es2 b1,
     es = es1 ++ Fires ok h :: es2 /\
     bot_run TZ es1 (bot_boot now rows seq) = Some b1 /\
     fire TZ ok h (world b1) = None).
Proof.
  intros Hnd Hids _ _.
  assert (Hseq : Forall (fun t => id t <= seq) rows)
    by (eapply Forall_impl; [exact Hids|]; intros t Ht; simpl in Ht; lia).
  split; [|split; [|split; [|apply bot_run_stuck]]].
  - intros b Hrun.
    destruct (bot_run_sends TZ es _ b (consistent_boot now rows seq Hnd Hseq) Hrun)
      as [Hl Hf].
    assert (Hout0 : outbox (world (bot_boot now rows seq)) = []).
    { simpl. destruct (recover_frame (select_futuros now rows) (boot now rows))
        as (_ & Hout & _). unfold recover in Hout. rewrite Hout. reflexivity. }
    assert (Hf0 : fired_count (world (bot_boot now rows seq)) = 0%nat).
    { unfold fired_count. simpl.
      destruct (recover_fresh now (select_futuros now rows) (boot now rows)) as [Ht _];
        [reflexivity|apply NoDup_fmap_filter, Hnd|intros t _ k; apply lookup_empty|].
      unfold recover in Ht. rewrite Ht. simpl.
      rewrite filter_none; [reflexivity|].
      intros n y Hy. apply list_elem_of_lookup_2, list_elem_of_In, in_flat_map in Hy
        as (t & _ & Hy). apply list_elem_of_In, list_elem_of_fmap in Hy as (r & -> & _).
      discriminate. }
    rewrite Hout0, Hf0 in *. simpl in Hl, Hf. split; [lia|exact Hf].
  - apply Forall_forall. intros e _. destruct e as [| |ok chat msg|]; simpl; try lia.
    destruct (handler_matches OnStart msg) eqn:H1;
      [rewrite (one_handler msg OnStart H1); simpl; lia|].
    destruct (handler_matches OnTurnos msg) eqn:H2;
      [rewrite (one_handler msg OnTurnos H2); simpl; lia|].
    destruct (handler_matches OnBorrar msg) eqn:H3;
      [rewrite (one_handler msg OnBorrar H3); simpl; lia|].
    destruct (handler_matches OnTurno msg) eqn:H4;
      [rewrite (one_handler msg OnTurno H4); simpl; lia|].
    rewrite (handlers_for_values msg false false false false) by assumption.
    simpl. lia.
  - intros ok chat digits b Hne Hd. eexists. split; [reflexivity|].
    assert (Hh : handlers_for ("/borrar " +:+ digits) = [OnBorrar]).
    { apply one_handler. simpl. apply bool_decide_eq_true.
      rewrite (match_borrar_digits digits Hne Hd). eauto. }
    rewrite Hh. cbn [foldl]. apply handler_sends_one.
Qed.

(** The two queries draw the line differently: [/turnos] still lists an
    appointment during the second of its target instant, start-up no
    longer recovers it; apart from that second they agree, and every
    appointment that start-up recovers is listed for its chat. (An
    appointment whose date the queries cannot read drops out of both.) *)
Theorem listed_or_recovered (now : Z) (rows : list Turno) :
  Forall (fun t =>
            t ∈ listarTurnos (chat_id t) now rows <->
            t ∈ select_futuros now rows \/
            exists second,
              sql_datetime (fecha_iso t) = Some second /\
              sql_datetime now = Some second) rows /\
  Forall (fun t => t ∈ listarTurnos (chat_id t) now rows) (select_futuros now rows).
Proof.
  assert (Hlist : forall t, t ∈ listarTurnos (chat_id t) now rows <->
                  t ∈ rows /\ sql_le (sql_datetime now) (sql_datetime (fecha_iso t))).
  { intros t. rewrite listarTurnos_elem. tauto. }
  assert (Hsel : forall t, t ∈ select_futuros now rows <->
                 t ∈ rows /\ sql_lt (sql_datetime now) (sql_datetime (fecha_iso t))).
  { intros t. unfold select_futuros. rewrite list_elem_of_filter. tauto. }
  split; apply Forall_forall; intros t Ht.
  - rewrite Hlist, Hsel.
    destruct (sql_datetime now) as [n|], (sql_datetime (fecha_iso t)) as [f|]; simpl.
    + split.
      * intros [_ Hle]. destruct (decide (f = n)) as [->|Hne]; [right; eauto|].
        left. split; [exact Ht|lia].
      * intros [[_ Hlt]|(second & [= ->] & [= ->])]; (split; [exact Ht|lia]).
    + split; [tauto|]. intros [[_ []]|(second & Hx & _)]. discriminate Hx.
    + split; [tauto|]. intros [[_ []]|(second & _ & Hx)]. discriminate Hx.
    + split; [tauto|]. intros [[_ []]|(second & Hx & _)]. discriminate Hx.
  - apply Hsel in Ht as [Hin Hlt]. apply Hlist. split; [exact Hin|].
    destruct (sql_datetime now), (sql_datetime (fecha_iso t)); simpl in *; lia || tauto.
Qed.

(** ** The added properties at the sample process *)

Lemma pickHour_round_trip_witness :
  has_char "_" "2026-01-01" = false /\ has_char "_" "07:30" = false /\
  pickHour_fields "pickHour_2026-01-01_07:30" = Some (Some "2026-01-01", Some "07:30").
Proof.
  split; [reflexivity|]. split; [reflexivity|].
  exact (proj1 (proj2 (pickHour_round_trip "2026-01-01" "07:30" eq_refl eq_refl))).
Defined.

Lemma one_handler_per_text_witness :
  handler_matches OnTurnos "/turnos" = true /\ handlers_for "/turnos" = [OnTurnos].
Proof.
  split; [reflexivity|].
  exact (proj1 (proj1 (proj2 (one_handler_per_text "/turnos")) OnTurnos) eq_refl).
Defined.

Lemma borrar_reads_shown_id_witness :
  0 <= 12 <= 2 ^ 53 /\ match_borrar "/borrar 12" = Some "12" /\
  Number_of_digits "12" = Exact 12.
Proof.
  assert (H : 0 <= 12 <= 2 ^ 53) by (split; vm_compute; discriminate).
  split; [exact H|].
  destruct (borrar_reads_shown_id 12 H) as (Hm & Hn & _). split; [exact Hm|exact Hn].
Defined.

Lemma schedule_leaves_others_witness :
  wf sample_world /\
  jobsMap (scheduleRemindersForTurno past_turno sample_world) !! "turno-1-24h" =
    Some 0%nat.
Proof.
  assert (Hwf : wf sample_world) by apply wf_scheduleRemindersForTurno, wf_boot.
  split; [exact Hwf|].
  destruct (schedule_leaves_others past_turno sample_world Hwf) as (Hreg & _).
  rewrite Hreg; [reflexivity|].
  intros r _ Hk. change "turno-1-24h" with (job_key_of 1 "24h") in Hk.
  apply job_key_of_inj in Hk as [Hid _]. discriminate Hid.
Defined.

Lemma agregarTurno_round_trip_witness :
  sql_le (sql_datetime sample_start) (sql_datetime 1767400000000) /\
  mkTurno 2 7 1767400000000 (Some "Turno") ∈
    listarTurnos 7 sample_start
      [sample_turno; mkTurno 2 7 1767400000000 (Some "Turno")] /\
  borrarTurno 2 7 [sample_turno; mkTurno 2 7 1767400000000 (Some "Turno")] =
    (true, [sample_turno]).
Proof.
  assert (H : sql_le (sql_datetime sample_start) (sql_datetime 1767400000000))
    by (vm_compute; discriminate).
  pose proof (agregarTurno_round_trip 7 1767400000000 sample_start
                (Some "Turno") (mkDb [sample_turno] 1)) as (Hl & _ & _ & _ & Hb & _).
  split; [exact H|]. split; [exact (proj2 Hl H)|exact Hb].
Defined.

Lemma bot_never_cancels_witness :
  NoDup (id <$> [sample_turno]) /\
  Forall (fun t => - 2 ^ 53 <= id t <= 1) [sample_turno] /\
  0 <= 1 /\ 1 + Z.of_nat (length booking_run) <= 2 ^ 53 /\
  exists b,
    bot_run UTC_minus_3 booking_run (bot_boot sample_start [sample_turno] 1) = Some b /\
    NoDup (job_key <$> timers (world b)).
Proof.
  assert (H1 : NoDup (id <$> [sample_turno])) by apply NoDup_singleton.
  assert (H2 : Forall (fun t => - 2 ^ 53 <= id t <= 1) [sample_turno])
    by (apply Forall_singleton; split; vm_compute; discriminate).
  assert (H3 : 0 <= 1) by lia.
  assert (H4 : 1 + Z.of_nat (length booking_run) <= 2 ^ 53)
    by (vm_compute; discriminate).
  split; [exact H1|]. split; [exact H2|]. split; [exact H3|]. split; [exact H4|].
  destruct (bot_run UTC_minus_3 booking_run (bot_boot sample_start [sample_turno] 1))
    as [b|] eqn:E; [|vm_compute in E; discriminate E].
  exists b. split; [reflexivity|].
  exact (proj1 (proj2 (proj2 (proj1 (bot_never_cancels UTC_minus_3 sample_start
                                       [sample_turno] 1 booking_run H1 H2 H3 H4)
                                b E)))).
Defined.

Lemma book_then_borrar_witness :
  Z.max (sequence (bot_boot sample_start [sample_turno] 1))
        (max_rowid (turnos (world (bot_boot sample_start [sample_turno] 1)))) < 2 ^ 53 /\
  last (edits (cmd_pickHour UTC_minus_3 7 55 1767400000000
                 (bot_boot sample_start [sample_turno] 1))) =
    Some (mkEdit 7 55 "✅ Turno agendado (ID 2) para 02/01/2026 21:26").
Proof.
  assert (H : Z.max (sequence (bot_boot sample_start [sample_turno] 1))
                (max_rowid (turnos (world (bot_boot sample_start [sample_turno] 1))))
              < 2 ^ 53) by (vm_compute; reflexivity).
  split; [exact H|].
  exact (proj1 (book_then_borrar UTC_minus_3 true 7 8 55 1767400000000
                  (bot_boot sample_start [sample_turno] 1) H)).
Defined.

Lemma bot_sends_answers_and_reminders_witness :
  NoDup (id <$> [sample_turno]) /\
  Forall (fun t => - 2 ^ 53 <= id t <= 1) [sample_turno] /\
  0 <= 1 /\ 1 + Z.of_nat (length texts_run) <= 2 ^ 53 /\
  exists b,
    bot_run UTC_minus_3 texts_run (bot_boot sample_start [sample_turno] 1) = Some b /\
    length (outbox (world b)) = 3%nat /\
    outbox (world b) !! 1%nat =
      Some (mkDelivery 7 "No se encontró el turno 9007199254740992" true).
Proof.
  assert (H1 : NoDup (id <$> [sample_turno])) by apply NoDup_singleton.
  assert (H2 : Forall (fun t => - 2 ^ 53 <= id t <= 1) [sample_turno])
    by (apply Forall_singleton; split; vm_compute; discriminate).
  assert (H3 : 0 <= 1) by lia.
  assert (H4 : 1 + Z.of_nat (length texts_run) <= 2 ^ 53)
    by (vm_compute; discriminate).
  split; [exact H1|]. split; [exact H2|]. split; [exact H3|]. split; [exact H4|].
  destruct (bot_run UTC_minus_3 texts_run (bot_boot sample_start [sample_turno] 1))
    as [b|] eqn:E; [|vm_compute in E; discriminate E].
  exists b.
  pose proof (proj1 (bot_sends_answers_and_reminders UTC_minus_3 sample_start
                       [sample_turno] 1 texts_run H1 H2 H3 H4) b E) as [Hlen Hfired].
  split; [reflexivity|]. split.
  - rewrite Hlen, Hfired. reflexivity.
  - vm_compute in E. injection E as <-. reflexivity.
Defined.
